(** * AgentReceipts: attestation and verification protocol

    A shallow embedding of the receipt generator ([src/generator.ts]),
    the signature handler ([src/signer.ts]), the storage handler
    ([src/storage.ts]), the verifier ([src/verifier.ts]) and the anchoring
    contract ([contracts/ReceiptAnchor.sol]), followed by the properties
    of the protocol that are established on them.

    Conventions.
    - A JavaScript string is a [string]: its UTF-8 bytes.
    - A call that may throw returns a [result]; [Throw e] carries the
      rendering of the thrown value.  [await] is sequencing.
    - [console.log] and [console.error] are not modelled.
    - Library primitives (viem, uuid, Date) are the fields of the classes
      [Viem], [PublicClient] and [Runtime]; every definition and theorem
      is parametric in them. *)

From stdpp Require Import base option list strings gmap pretty.
From Stdlib Require Import ZArith NArith Ascii String Lia.

Local Open Scope string_scope.

(** ** Exceptions *)

Inductive result (A : Type) : Type :=
| Ok (a : A)
| Throw (e : string).
Arguments Ok {A} a.
Arguments Throw {A} e.

Definition bind {A B} (m : result A) (k : A -> result B) : result B :=
  match m with
  | Ok a => k a
  | Throw e => Throw e
  end.

(** [try { m } catch (error) { h error }] *)
Definition try_catch {A} (m : result A) (h : string -> result A) : result A :=
  match m with
  | Ok a => Ok a
  | Throw e => h e
  end.

#[global] Instance result_bind : MBind result := fun A B k m => bind m k.
#[global] Instance result_ret : MRet result := fun A a => Ok a.

(** ** JavaScript values used by the protocol *)

Module Js.

(** [String.prototype.toLowerCase] on the ASCII range.  The strings it
    is applied to are account addresses (hexadecimal text); bytes
    outside [A-Z] are left as they are. *)
Definition lower_ascii (c : ascii) : ascii :=
  let n := nat_of_ascii c in
  if (65 <=? n)%nat && (n <=? 90)%nat then ascii_of_nat (n + 32) else c.

Fixpoint toLowerCase (s : string) : string :=
  match s with
  | EmptyString => EmptyString
  | String c s' => String (lower_ascii c) (toLowerCase s')
  end.

(** Truthiness of a string: the empty string is falsy. *)
Definition truthy (s : string) : bool :=
  match s with
  | EmptyString => false
  | String _ _ => true
  end.

(** Truthiness of an optional string property: [undefined] is falsy. *)
Definition truthy_opt (o : option string) : bool :=
  match o with
  | Some s => truthy s
  | None => false
  end.

(** [a || b] on strings. *)
Definition or_else (a b : string) : string :=
  if truthy a then a else b.

(** [s.slice(n)] for [0 <= n]. *)
Fixpoint slice_from (n : nat) (s : string) : string :=
  match n, s with
  | O, _ => s
  | S n', String _ s' => slice_from n' s'
  | S _, EmptyString => EmptyString
  end.

(** [s.includes(p)] *)
Fixpoint includes (s p : string) : bool :=
  String.prefix p s ||
  match s with
  | EmptyString => false
  | String _ s' => includes s' p
  end.

(** A [Map<string, boolean>]: entries in insertion order; [set] on a
    key that is present replaces its value where it stands. *)
Definition Map := list (string * bool).

Fixpoint map_set (m : Map) (k : string) (v : bool) : Map :=
  match m with
  | [] => [(k, v)]
  | (k', v') :: m' =>
      if String.eqb k' k then (k, v) :: m' else (k', v') :: map_set m' k v
  end.

Definition map_values (m : Map) : list bool := map snd m.

(** [Array.prototype.every(v => v)] *)
Definition every (l : list bool) : bool := forallb (fun v => v) l.

End Js.

(** ** JSON.stringify *)

Module Json.

#[warnings="-register-all"]
Inductive json : Type :=
| JNull
| JBool (b : bool)
| JNum (z : Z)
| JStr (s : string)
| JArr (l : list json)
| JObj (l : list (string * json)).

Definition hex_digit (n : nat) : ascii :=
  if (n <? 10)%nat then ascii_of_nat (48 + n) else ascii_of_nat (87 + n).

Definition dquote : ascii := ascii_of_nat 34.

(** One character of a quoted JSON string. *)
Definition escape_char (c : ascii) : string :=
  let n := nat_of_ascii c in
  if (n =? 34)%nat then String "\" (String dquote EmptyString)
  else if (n =? 92)%nat then "\\"
  else if (n =? 8)%nat then "\b"
  else if (n =? 9)%nat then "\t"
  else if (n =? 10)%nat then "\n"
  else if (n =? 12)%nat then "\f"
  else if (n =? 13)%nat then "\r"
  else if (n <? 32)%nat then
    "\u00" ++ String (hex_digit (n / 16)) (String (hex_digit (n mod 16)) EmptyString)
  else String c EmptyString.

Fixpoint escape (s : string) : string :=
  match s with
  | EmptyString => EmptyString
  | String c s' => escape_char c ++ escape s'
  end.

Definition quote (s : string) : string :=
  String dquote (escape s) ++ String dquote EmptyString.

Fixpoint join_comma (l : list string) : string :=
  match l with
  | [] => EmptyString
  | [x] => x
  | x :: l' => x ++ "," ++ join_comma l'
  end.

(** [JSON.stringify(v)] without indentation. *)
Fixpoint stringify (v : json) : string :=
  match v with
  | JNull => "null"
  | JBool true => "true"
  | JBool false => "false"
  | JNum z => pretty z
  | JStr s => quote s
  | JArr l => "[" ++ join_comma (map stringify l) ++ "]"
  | JObj l =>
      "{" ++ join_comma
               (map (fun kv => quote (fst kv) ++ ":" ++ stringify (snd kv)) l)
          ++ "}"
  end.

(** A property whose value is [undefined] is left out of the text. *)
Definition opt_field (k : string) (o : option json) : list (string * json) :=
  match o with
  | Some v => [(k, v)]
  | None => []
  end.

End Json.

(** ** Receipt model ([src/types.ts]) *)

Inductive Chain := base | base_sepolia | ethereum | polygon.

Definition Chain_text (c : Chain) : string :=
  match c with
  | base => "base"
  | base_sepolia => "base-sepolia"
  | ethereum => "ethereum"
  | polygon => "polygon"
  end.

Inductive Currency := USDC.

Definition Currency_text (c : Currency) : string := "USDC".

Inductive CommerceType :=
| service_payment | product_purchase | subscription | refund
| advance_payment | milestone_payment | bounty_payout | team_split
| escrow_release | other.

Definition CommerceType_text (t : CommerceType) : string :=
  match t with
  | service_payment => "service_payment"
  | product_purchase => "product_purchase"
  | subscription => "subscription"
  | refund => "refund"
  | advance_payment => "advance_payment"
  | milestone_payment => "milestone_payment"
  | bounty_payout => "bounty_payout"
  | team_split => "team_split"
  | escrow_release => "escrow_release"
  | other => "other"
  end.

Inductive PaymentStatus :=
| paid_in_full | partial_payment | advance | status_refund | disputed | cancelled.

Definition PaymentStatus_text (s : PaymentStatus) : string :=
  match s with
  | paid_in_full => "paid_in_full"
  | partial_payment => "partial_payment"
  | advance => "advance"
  | status_refund => "refund"
  | disputed => "disputed"
  | cancelled => "cancelled"
  end.

Inductive Role := buyer | seller | witness | arbiter.

Definition Role_eqb (a b : Role) : bool :=
  match a, b with
  | buyer, buyer | seller, seller | witness, witness | arbiter, arbiter => true
  | _, _ => false
  end.

Module TransactionProof.
Record t := mk {
  chain : Chain;
  txHash : string;
  blockNumber : Z;
  blockHash : string;
  timestamp : string;
  from : string;
  to : string;
  amount : string;
  currency : Currency;
  gasUsed : option string;
}.

(** [p.from = a] and [p.to = a]: assignment to a property of the
    object; the other properties and the key order stay. *)
Definition set_from (p : t) (a : string) : t :=
  mk (chain p) (txHash p) (blockNumber p) (blockHash p) (timestamp p)
     a (to p) (amount p) (currency p) (gasUsed p).
Definition set_to (p : t) (a : string) : t :=
  mk (chain p) (txHash p) (blockNumber p) (blockHash p) (timestamp p)
     (from p) a (amount p) (currency p) (gasUsed p).
End TransactionProof.

Module CommerceTerms.
Record t := mk {
  period : option string;
  sla : option string;
  deliverables : option (list string);
  refundConditions : option string;
  customTerms : option (list (string * string));
}.
End CommerceTerms.

Module CommerceContext.
Record t := mk {
  type : CommerceType;
  description : string;
  orderReference : option string;
  invoiceId : option string;
  terms : option CommerceTerms.t;
  status : PaymentStatus;
  metadata : option (list (string * Json.json));
}.
End CommerceContext.

Module Attestation.
Record t := mk {
  agent : string;
  agentId : option string;
  signature : string;
  timestamp : string;
  role : Role;
}.
End Attestation.

(** The receipt aggregate.  [Atts] is what the [attestations] property
    holds: the list itself when a receipt is looked at as a value, a
    reference to the array when it is looked at as an object in the
    store (see [Heap]). *)
Module AgentReceipt.
Record over (Atts : Type) := mk {
  receiptId : string;
  version : string;
  createdAt : string;
  transaction : TransactionProof.t;
  commerce : CommerceContext.t;
  attestations : Atts;
  ipfsCid : option string;
  onChainAnchor : option string;
  anchorTxHash : option string;
}.
Arguments mk {Atts}.
Arguments receiptId {Atts}.
Arguments version {Atts}.
Arguments createdAt {Atts}.
Arguments transaction {Atts}.
Arguments commerce {Atts}.
Arguments attestations {Atts}.
Arguments ipfsCid {Atts}.
Arguments onChainAnchor {Atts}.
Arguments anchorTxHash {Atts}.

Definition t := over (list Attestation.t).

(** [{ ...r, attestations: a }] *)
Definition spread_with_attestations {A B} (r : over A) (a : B) : over B :=
  mk (receiptId r) (version r) (createdAt r) (transaction r) (commerce r)
     a (ipfsCid r) (onChainAnchor r) (anchorTxHash r).

(** The receipt after [r.ipfsCid = cid], [r.onChainAnchor = hash] and
    [r.anchorTxHash = txHash], the assignments of [createAndSignReceipt]
    ([src/index.ts]), each taken or not. *)
Definition with_anchoring {A} (r : over A)
  (cid hash txHash : option string) : over A :=
  mk (receiptId r) (version r) (createdAt r) (transaction r) (commerce r)
     (attestations r) cid hash txHash.
End AgentReceipt.

Module CreateReceiptInput.
(** [buyerAgent] and [sellerAgent] are declared [string]; a JavaScript
    caller may also leave them [undefined], which is [None] here. *)
Record t := mk {
  txHash : string;
  chain : option Chain;
  commerce : CommerceContext.t;
  buyerAgent : option string;
  sellerAgent : option string;
}.
End CreateReceiptInput.

Module VerifyReceiptInput.
Record t := mk {
  receipt : AgentReceipt.t;
  checkOnChain : option bool;
}.
End VerifyReceiptInput.

Module Checks.
Record t := mk {
  transactionExists : bool;
  transactionMatches : bool;
  signaturesValid : bool;
  anchorMatches : option bool;
  ipfsAvailable : option bool;
}.
End Checks.

Module VerificationResult.
Record t := mk {
  valid : bool;
  checks : Checks.t;
  errors : list string;
  confidence : Z;
}.
End VerificationResult.

(** EIP-712 domain and types ([RECEIPT_DOMAIN], [RECEIPT_TYPES]). *)
Module Eip712.
Record Domain := mkDomain { name : string; version : string; chainId : Z }.

Record TypedData := mkTypedData {
  domain : Domain;
  types : list (string * list (string * string));
  primaryType : string;
  message : list (string * string);
}.
End Eip712.

Definition RECEIPT_DOMAIN : Eip712.Domain :=
  Eip712.mkDomain "AgentReceipts" "1" 84532.

Definition RECEIPT_TYPES : list (string * list (string * string)) :=
  [("Receipt",
    [("receiptId", "string"); ("txHash", "string"); ("amount", "string");
     ("commerceType", "string"); ("description", "string");
     ("status", "string"); ("timestamp", "string")])].

(** ** Collaborators *)

(** What the chain-data client returns. *)
Module Log.
Record t := mk { address : string; topics : list string; data : string }.
End Log.

Module Transaction.
(** [to] is [null] for a contract creation. *)
Record t := mk {
  from : string;
  to : option string;
  input : string;
  blockHash : string;
}.
End Transaction.

Module TransactionReceipt.
Record t := mk {
  blockNumber : Z;
  blockHash : string;
  status : string;
  logs : list Log.t;
  gasUsed : Z;
}.
End TransactionReceipt.

Module Block.
Record t := mk { timestamp : Z }.
End Block.

Inductive BlockTag :=
| ByNumber (blockNumber : Z)
| ByHash (blockHash : string).

(** The public client of viem, bound to one chain endpoint. *)
Class PublicClient := {
  getTransaction : string -> result (option Transaction.t);
  getTransactionReceipt : string -> result (option TransactionReceipt.t);
  getBlock : BlockTag -> result Block.t;
}.

(** The primitives taken from viem. *)
Class Viem := {
  keccak256 : list Byte.byte -> string;
  formatUnits : Z -> Z -> string;
  verifyTypedData : string -> Eip712.TypedData -> string -> result bool;
}.

(** Built-ins of the JavaScript runtime: [BigInt(text)], and
    [new Date(ms).toISOString()]. *)
Class Runtime := {
  BigInt : string -> result Z;
  toISOString : Z -> result string;
}.

(** [toBytes(text)] of viem, for a text that is not a hexadecimal
    literal: its UTF-8 bytes. *)
Definition toBytes (s : string) : list Byte.byte := list_byte_of_string s.

(** [String(new Error(msg))] *)
Definition Error (msg : string) : string := "Error: " ++ msg.

(** ** Receipt generator ([src/generator.ts]) *)

Definition USDC_ADDRESS : string := "0x036CbD53842c5426634e7929541eC2318f3dCF7e".
Definition TRANSFER_TOPIC : string :=
  "0xddf252ad1be2c89b69c2b068fc378daa952ba7f163c4a11628f55a4df523b3ef".

Section Generator.
Context `{PublicClient} `{Viem} `{Runtime}.

(** The loop over [receipt.logs] of [fetchTransactionProof]. *)
Fixpoint parse_amount (logs : list Log.t) (amount : string) : result string :=
  match logs with
  | [] => Ok amount
  | log :: logs' =>
      if String.eqb (Js.toLowerCase (Log.address log)) (Js.toLowerCase USDC_ADDRESS)
      then
        match head (Log.topics log) with
        | Some topic0 =>
            if String.eqb topic0 TRANSFER_TOPIC then
              value ← BigInt (Log.data log);
              parse_amount logs' (formatUnits value 6)
            else parse_amount logs' amount
        | None => parse_amount logs' amount
        end
      else parse_amount logs' amount
  end.

Definition fetchTransactionProof (txHash : string) : result TransactionProof.t :=
  tx ← getTransaction txHash;
  match tx with
  | None => Throw (Error ("Transaction not found: " ++ txHash))
  | Some tx =>
      receipt ← getTransactionReceipt txHash;
      match receipt with
      | None => Throw (Error ("Transaction receipt not found: " ++ txHash))
      | Some receipt =>
          block ← getBlock (ByNumber (TransactionReceipt.blockNumber receipt));
          amount ← parse_amount (TransactionReceipt.logs receipt) "0";
          timestamp ← toISOString (Block.timestamp block * 1000);
          Ok (TransactionProof.mk
                base_sepolia
                txHash
                (TransactionReceipt.blockNumber receipt)
                (TransactionReceipt.blockHash receipt)
                timestamp
                (Transaction.from tx)
                (match Transaction.to tx with
                 | Some a => Js.or_else a EmptyString
                 | None => EmptyString
                 end)
                amount
                USDC
                (Some (pretty (TransactionReceipt.gasUsed receipt))))
      end
  end.

(** [uuid] is what [uuidv4()] returns at this call and [now] what
    [new Date().toISOString()] returns. *)
Definition createReceipt (uuid now : string) (input : CreateReceiptInput.t)
  : result AgentReceipt.t :=
  transactionProof ← fetchTransactionProof (CreateReceiptInput.txHash input);
  let transactionProof :=
    match CreateReceiptInput.buyerAgent input with
    | Some a => if Js.truthy a then TransactionProof.set_from transactionProof a
                else transactionProof
    | None => transactionProof
    end in
  let transactionProof :=
    match CreateReceiptInput.sellerAgent input with
    | Some a => if Js.truthy a then TransactionProof.set_to transactionProof a
                else transactionProof
    | None => transactionProof
    end in
  Ok (AgentReceipt.mk uuid "1.0" now transactionProof
        (CreateReceiptInput.commerce input) [] None None None).

Definition getReceiptSigningMessage {A} (receipt : AgentReceipt.over A)
  : Eip712.TypedData :=
  Eip712.mkTypedData RECEIPT_DOMAIN RECEIPT_TYPES "Receipt"
    [("receiptId", AgentReceipt.receiptId receipt);
     ("txHash", TransactionProof.txHash (AgentReceipt.transaction receipt));
     ("amount", TransactionProof.amount (AgentReceipt.transaction receipt));
     ("commerceType",
       CommerceType_text (CommerceContext.type (AgentReceipt.commerce receipt)));
     ("description", CommerceContext.description (AgentReceipt.commerce receipt));
     ("status",
       PaymentStatus_text (CommerceContext.status (AgentReceipt.commerce receipt)));
     ("timestamp", AgentReceipt.createdAt receipt)].

(** The JSON values of the two nested objects, keys in the order of
    the object literal of [fetchTransactionProof] and of the interface
    declarations. *)
Definition TransactionProof_json (p : TransactionProof.t) : Json.json :=
  Json.JObj
    ([("chain", Json.JStr (Chain_text (TransactionProof.chain p)));
      ("txHash", Json.JStr (TransactionProof.txHash p));
      ("blockNumber", Json.JNum (TransactionProof.blockNumber p));
      ("blockHash", Json.JStr (TransactionProof.blockHash p));
      ("timestamp", Json.JStr (TransactionProof.timestamp p));
      ("from", Json.JStr (TransactionProof.from p));
      ("to", Json.JStr (TransactionProof.to p));
      ("amount", Json.JStr (TransactionProof.amount p));
      ("currency", Json.JStr (Currency_text (TransactionProof.currency p)))]
     ++ Json.opt_field "gasUsed" (Json.JStr <$> TransactionProof.gasUsed p)).

Definition CommerceTerms_json (t : CommerceTerms.t) : Json.json :=
  Json.JObj
    (Json.opt_field "period" (Json.JStr <$> CommerceTerms.period t)
     ++ Json.opt_field "sla" (Json.JStr <$> CommerceTerms.sla t)
     ++ Json.opt_field "deliverables"
          ((fun l => Json.JArr (map Json.JStr l)) <$> CommerceTerms.deliverables t)
     ++ Json.opt_field "refundConditions"
          (Json.JStr <$> CommerceTerms.refundConditions t)
     ++ Json.opt_field "customTerms"
          ((fun l => Json.JObj (map (fun kv => (fst kv, Json.JStr (snd kv))) l))
             <$> CommerceTerms.customTerms t)).

Definition CommerceContext_json (c : CommerceContext.t) : Json.json :=
  Json.JObj
    ([("type", Json.JStr (CommerceType_text (CommerceContext.type c)));
      ("description", Json.JStr (CommerceContext.description c))]
     ++ Json.opt_field "orderReference"
          (Json.JStr <$> CommerceContext.orderReference c)
     ++ Json.opt_field "invoiceId" (Json.JStr <$> CommerceContext.invoiceId c)
     ++ Json.opt_field "terms" (CommerceTerms_json <$> CommerceContext.terms c)
     ++ [("status", Json.JStr (PaymentStatus_text (CommerceContext.status c)))]
     ++ Json.opt_field "metadata" (Json.JObj <$> CommerceContext.metadata c)).

Definition computeReceiptHash {A} (receipt : AgentReceipt.over A) : string :=
  let normalized :=
    Json.stringify
      (Json.JObj
         [("receiptId", Json.JStr (AgentReceipt.receiptId receipt));
          ("version", Json.JStr (AgentReceipt.version receipt));
          ("transaction", TransactionProof_json (AgentReceipt.transaction receipt));
          ("commerce", CommerceContext_json (AgentReceipt.commerce receipt))]) in
  keccak256 (toBytes normalized).

End Generator.

(** ** The object store

    Receipts are JavaScript objects and are passed by reference; their
    [attestations] property refers to an array, itself an object.  The
    store maps references to receipt objects and to arrays.  The nested
    [transaction] and [commerce] objects and the attestation objects are
    never written after their construction and are kept by value. *)

Abbreviation loc := positive.

Module Heap.
Record t := mk {
  objects : gmap loc (AgentReceipt.over loc);
  arrays : gmap loc (list Attestation.t);
}.

(** The receipt a reference denotes, as a value. *)
Definition load (h : t) (l : loc) : option AgentReceipt.t :=
  o ← objects h !! l;
  a ← arrays h !! AgentReceipt.attestations o;
  Some (AgentReceipt.spread_with_attestations o a).

(** A new array, and a new object, at a reference not yet in use. *)
Definition alloc_array (h : t) (a : list Attestation.t) : t * loc :=
  let l := fresh (dom (arrays h)) in
  (mk (objects h) (<[l := a]> (arrays h)), l).

Definition alloc_object (h : t) (o : AgentReceipt.over loc) : t * loc :=
  let l := fresh (dom (objects h)) in
  (mk (<[l := o]> (objects h)) (arrays h), l).
End Heap.

(** ** Signature handler ([src/signer.ts]) *)

Definition already_attested (agent : string) : string :=
  Error ("Agent " ++ agent ++ " has already attested to this receipt").

(** [addAttestation(receipt, attestation)] on the store: [receipt] is a
    reference.  The result is the store after the call together with
    the reference returned or the error thrown; [None] stands for a
    reference that denotes nothing, which no JavaScript program holds. *)
Definition addAttestation (h : Heap.t) (receipt : loc) (attestation : Attestation.t)
  : option (Heap.t * result loc) :=
  o ← Heap.objects h !! receipt;
  atts ← Heap.arrays h !! AgentReceipt.attestations o;
  let existing :=
    find (fun a => String.eqb (Js.toLowerCase (Attestation.agent a))
                              (Js.toLowerCase (Attestation.agent attestation)))
         atts in
  match existing with
  | Some _ => Some (h, Throw (already_attested (Attestation.agent attestation)))
  | None =>
      let '(h1, arr) := Heap.alloc_array h (atts ++ [attestation])%list in
      let '(h2, obj) :=
        Heap.alloc_object h1 (AgentReceipt.spread_with_attestations o arr) in
      Some (h2, Ok obj)
  end.

Module AllAttestations.
Record t := mk { valid : bool; results : Js.Map }.
End AllAttestations.

Section Signer.
Context `{Viem}.

(** The dynamic [import('viem')] resolves the module the file has
    already loaded statically; building the typed data reads
    properties that every receipt has. *)
Definition verifyAttestation (receipt : AgentReceipt.t) (attestation : Attestation.t)
  : result bool :=
  let typedData := getReceiptSigningMessage receipt in
  try_catch
    (isValid ← verifyTypedData (Attestation.agent attestation) typedData
                               (Attestation.signature attestation);
     Ok isValid)
    (fun error => Ok false).

(** The [for ... of] loop of [verifyAllAttestations]. *)
Fixpoint verify_each (receipt : AgentReceipt.t) (todo : list Attestation.t)
  (results : Js.Map) : result Js.Map :=
  match todo with
  | [] => Ok results
  | attestation :: todo' =>
      isValid ← verifyAttestation receipt attestation;
      verify_each receipt todo'
        (Js.map_set results (Attestation.agent attestation) isValid)
  end.

Definition verifyAllAttestations (receipt : AgentReceipt.t)
  : result AllAttestations.t :=
  results ← verify_each receipt (AgentReceipt.attestations receipt) [];
  let allValid := Js.every (Js.map_values results) in
  Ok (AllAttestations.mk allValid results).

Definition hasRequiredAttestations (receipt : AgentReceipt.t) : bool :=
  let hasBuyer :=
    existsb (fun a => Role_eqb (Attestation.role a) buyer)
            (AgentReceipt.attestations receipt) in
  let hasSeller :=
    existsb (fun a => Role_eqb (Attestation.role a) seller)
            (AgentReceipt.attestations receipt) in
  hasBuyer && hasSeller.

End Signer.

(** ** Storage handler ([src/storage.ts]) *)

Module AnchorVerification.
Record t := mk {
  exists_ : bool;
  timestamp : option Z;
  anchorer : option string;
}.
End AnchorVerification.

Section Storage.
Context `{PublicClient} `{Viem}.

Definition verifyOnChainAnchor (receipt : AgentReceipt.t)
  : result AnchorVerification.t :=
  match AgentReceipt.anchorTxHash receipt with
  | None => Ok (AnchorVerification.mk false None None)
  | Some anchorTxHash =>
      if negb (Js.truthy anchorTxHash)
      then Ok (AnchorVerification.mk false None None)
      else
        try_catch
          (tx ← getTransaction anchorTxHash;
           match tx with
           | None => Ok (AnchorVerification.mk false None None)
           | Some tx =>
               let expectedHash := computeReceiptHash receipt in
               if String.eqb (Transaction.input tx) expectedHash
                  || Js.includes (Transaction.input tx) (Js.slice_from 2 expectedHash)
               then
                 block ← getBlock (ByHash (Transaction.blockHash tx));
                 Ok (AnchorVerification.mk true
                       (Some (Block.timestamp block))
                       (Some (Transaction.from tx)))
               else Ok (AnchorVerification.mk false None None)
           end)
          (fun error => Ok (AnchorVerification.mk false None None))
  end.

End Storage.

(** ** Verifier ([src/verifier.ts]) *)

Module TxVerification.
Record t := mk { exists_ : bool; matches : bool; errors : list string }.
End TxVerification.

(** [errors.push(e)] when [c] holds. *)
Definition push_if (c : bool) (errors : list string) (e : string) : list string :=
  if c then (errors ++ [e])%list else errors.

(** The confidence score of [verifyReceipt], as a function of the
    outcome of the checks. *)
Definition confidence_score (checks : Checks.t) : Z :=
  let confidence := 0%Z in
  let confidence :=
    if Checks.transactionExists checks then (confidence + 25)%Z else confidence in
  let confidence :=
    if Checks.transactionMatches checks then (confidence + 25)%Z else confidence in
  let confidence :=
    if Checks.signaturesValid checks then (confidence + 30)%Z else confidence in
  let confidence :=
    match Checks.anchorMatches checks with
    | Some true => (confidence + 10)%Z
    | _ => confidence
    end in
  let confidence :=
    match Checks.ipfsAvailable checks with
    | Some true => (confidence + 10)%Z
    | _ => confidence
    end in
  let confidence :=
    match Checks.anchorMatches checks with
    | None => (confidence + 5)%Z
    | _ => confidence
    end in
  let confidence :=
    match Checks.ipfsAvailable checks with
    | None => (confidence + 5)%Z
    | _ => confidence
    end in
  confidence.

(** The [valid] field of [verifyReceipt], as a function of the outcome
    of the checks. *)
Definition overall_valid (checks : Checks.t) : bool :=
  Checks.transactionExists checks
  && Checks.transactionMatches checks
  && Checks.signaturesValid checks.

Section Verifier.
Context `{PublicClient} `{Viem}.

Definition verifyTransaction (receipt : AgentReceipt.t) : result TxVerification.t :=
  let proof := AgentReceipt.transaction receipt in
  try_catch
    (tx ← getTransaction (TransactionProof.txHash proof);
     match tx with
     | None =>
         Ok (TxVerification.mk false false ["Transaction not found on chain"])
     | Some tx =>
         txReceipt ← getTransactionReceipt (TransactionProof.txHash proof);
         match txReceipt with
         | None =>
             Ok (TxVerification.mk true false ["Transaction receipt not found"])
         | Some txReceipt =>
             let errors := [] in
             let errors :=
               push_if
                 (negb (Z.eqb (TransactionReceipt.blockNumber txReceipt)
                              (TransactionProof.blockNumber proof)))
                 errors
                 ("Block number mismatch: expected "
                    ++ pretty (TransactionProof.blockNumber proof)
                    ++ ", got " ++ pretty (TransactionReceipt.blockNumber txReceipt)) in
             let errors :=
               push_if
                 (negb (String.eqb (TransactionReceipt.blockHash txReceipt)
                                   (TransactionProof.blockHash proof)))
                 errors "Block hash mismatch" in
             let errors :=
               push_if
                 (negb (String.eqb (TransactionReceipt.status txReceipt) "success"))
                 errors "Transaction was not successful" in
             Ok (TxVerification.mk true (Nat.eqb (List.length errors) 0) errors)
         end
     end)
    (fun error =>
       Ok (TxVerification.mk false false ["Error fetching transaction: " ++ error])).

(** The errors pushed for the entries of the result map that are false. *)
Definition invalid_signature_errors (results : Js.Map) : list string :=
  map (fun kv => "Invalid signature from " ++ fst kv)
      (filter (fun kv => snd kv = false) results).

Definition verifyReceipt (input : VerifyReceiptInput.t)
  : result VerificationResult.t :=
  let receipt := VerifyReceiptInput.receipt input in
  let checkOnChain := default true (VerifyReceiptInput.checkOnChain input) in
  let errors : list string := [] in
  (* 1. transaction on chain *)
  txVerification ← verifyTransaction receipt;
  let transactionExists := TxVerification.exists_ txVerification in
  let transactionMatches := TxVerification.matches txVerification in
  let errors := (errors ++ TxVerification.errors txVerification)%list in
  (* 2. attestation signatures *)
  '(signaturesValid, errors) ←
    (if Nat.eqb (List.length (AgentReceipt.attestations receipt)) 0
     then Ok (false, (errors ++ ["No attestations present"])%list)
     else
       sigVerification ← verifyAllAttestations receipt;
       let errors :=
         if negb (AllAttestations.valid sigVerification)
         then (errors ++ invalid_signature_errors (AllAttestations.results sigVerification))%list
         else errors in
       let errors :=
         push_if (negb (hasRequiredAttestations receipt)) errors
           "Missing required attestations (need both buyer and seller)" in
       Ok (AllAttestations.valid sigVerification, errors));
  (* 3. on-chain anchor, if present and requested *)
  '(anchorMatches, errors) ←
    (if checkOnChain && Js.truthy_opt (AgentReceipt.anchorTxHash receipt)
     then
       anchorVerification ← verifyOnChainAnchor receipt;
       Ok (Some (AnchorVerification.exists_ anchorVerification),
           push_if (negb (AnchorVerification.exists_ anchorVerification)) errors
             "On-chain anchor not found or does not match")
     else Ok (None, errors));
  (* 4. content store, if a CID is present *)
  let ipfsAvailable :=
    if Js.truthy_opt (AgentReceipt.ipfsCid receipt) then Some true else None in
  let checks :=
    Checks.mk transactionExists transactionMatches signaturesValid
              anchorMatches ipfsAvailable in
  let confidence := confidence_score checks in
  let valid := overall_valid checks in
  Ok (VerificationResult.mk valid checks errors confidence).

End Verifier.

(** ** Anchor ledger ([contracts/ReceiptAnchor.sol])

    [bytes32], [address] and [uint256] values are natural numbers below
    their bound.  A [require] that fails, and a panic of checked
    arithmetic or of an index out of range, is a [Throw]: the
    transaction reverts and the ledger keeps its state. *)

Module ReceiptAnchor.

Abbreviation bytes32 := N.
Abbreviation address := N.
Abbreviation uint256 := N.

Definition UINT256_MAX : N := 2 ^ 256 - 1.

Record Receipt := mkReceipt {
  receiptHash : bytes32;
  ipfsCid : string;
  originalTxHash : bytes32;
  anchoredBy : address;
  anchoredAt : uint256;
}.

#[global] Instance Receipt_eq_dec : EqDecision Receipt.
Proof. solve_decision. Defined.

(** The value a mapping yields at a key never written. *)
Definition zero_Receipt : Receipt := mkReceipt 0 EmptyString 0 0 0.

Record State := mkState {
  receipts : gmap bytes32 Receipt;
  receiptIds : list bytes32;
}.

Definition initial : State := mkState ∅ [].

(** [receipts[receiptId]] *)
Definition receipts_at (s : State) (receiptId : bytes32) : Receipt :=
  default zero_Receipt (receipts s !! receiptId).

(** [msg.sender] and [block.timestamp] of the executing transaction. *)
Record Env := mkEnv {
  msg_sender : address;
  block_timestamp : uint256;
}.

Record ReceiptAnchored := mkReceiptAnchored {
  ev_receiptId : bytes32;
  ev_receiptHash : bytes32;
  ev_ipfsCid : string;
  ev_originalTxHash : bytes32;
  ev_anchoredBy : address;
  ev_timestamp : uint256;
}.

Definition require (c : bool) (reason : string) : result unit :=
  if c then Ok tt else Throw reason.

Definition anchorReceipt (env : Env) (s : State)
  (receiptId receiptHash : bytes32) (ipfsCid : string) (originalTxHash : bytes32)
  : result (State * ReceiptAnchored) :=
  _ ← require (anchoredAt (receipts_at s receiptId) =? 0)%N "Receipt already anchored";
  _ ← require (negb (receiptHash =? 0)%N) "Invalid receipt hash";
  _ ← require (0 <? String.length ipfsCid)%nat "Invalid IPFS CID";
  let r := mkReceipt receiptHash ipfsCid originalTxHash
                     (msg_sender env) (block_timestamp env) in
  Ok (mkState (<[receiptId := r]> (receipts s)) (receiptIds s ++ [receiptId])%list,
      mkReceiptAnchored receiptId receiptHash ipfsCid originalTxHash
                        (msg_sender env) (block_timestamp env)).

Definition verifyReceipt (s : State) (receiptId receiptHash : bytes32) : bool :=
  let r := receipts_at s receiptId in
  if (anchoredAt r =? 0)%N then false
  else (ReceiptAnchor.receiptHash r =? receiptHash)%N.

Definition getReceipt (s : State) (receiptId : bytes32) : Receipt :=
  receipts_at s receiptId.

Definition receiptExists (s : State) (receiptId : bytes32) : bool :=
  (0 <? anchoredAt (receipts_at s receiptId))%N.

Definition getReceiptCount (s : State) : uint256 :=
  N.of_nat (List.length (receiptIds s)).

(** [n++] on a [uint256], checked. *)
Definition checked_inc (n : uint256) : result uint256 :=
  if (n <? UINT256_MAX)%N then Ok (n + 1)%N else Throw "Panic(0x11)".

(** [a[i]] and [a[i] = x], checked. *)
Definition read_at (a : list bytes32) (i : uint256) : result bytes32 :=
  match a !! N.to_nat i with
  | Some x => Ok x
  | None => Throw "Panic(0x32)"
  end.

Definition write_at (a : list bytes32) (i : uint256) (x : bytes32)
  : result (list bytes32) :=
  if (i <? N.of_nat (List.length a))%N then Ok (<[N.to_nat i := x]> a)
  else Throw "Panic(0x32)".

(** The first loop of [getReceiptsByAgent], entered with [i] and
    [count]; [fuel] bounds the number of times the loop condition is
    evaluated. *)
Fixpoint count_loop (fuel : nat) (s : State) (agent : address)
  (i count : uint256) : result uint256 :=
  match fuel with
  | O => Throw "out of fuel"
  | S fuel' =>
      if (i <? N.of_nat (List.length (receiptIds s)))%N then
        id ← read_at (receiptIds s) i;
        count ← (if (anchoredBy (receipts_at s id) =? agent)%N
                  then checked_inc count else Ok count);
        i ← checked_inc i;
        count_loop fuel' s agent i count
      else Ok count
  end.

(** The second loop, entered with [i], [result] and [idx]. *)
Fixpoint build_loop (fuel : nat) (s : State) (agent : address)
  (i : uint256) (result_ : list bytes32) (idx : uint256)
  : result (list bytes32) :=
  match fuel with
  | O => Throw "out of fuel"
  | S fuel' =>
      if (i <? N.of_nat (List.length (receiptIds s)))%N then
        id ← read_at (receiptIds s) i;
        '(result_, idx) ←
          (if (anchoredBy (receipts_at s id) =? agent)%N
           then
             result_ ← write_at result_ idx id;
             idx ← checked_inc idx;
             Ok (result_, idx)
           else Ok (result_, idx));
        i ← checked_inc i;
        build_loop fuel' s agent i result_ idx
      else Ok result_
  end.

Definition getReceiptsByAgent (s : State) (agent : address)
  : result (list bytes32) :=
  let fuel := S (List.length (receiptIds s)) in
  count ← count_loop fuel s agent 0%N 0%N;
  let result_ := replicate (N.to_nat count) 0%N in
  build_loop fuel s agent 0%N result_ 0%N.

(** A transaction sent to [anchorReceipt], and the ledger after it:
    a reverted transaction changes nothing. *)
Record Call := mkCall {
  call_env : Env;
  call_receiptId : bytes32;
  call_receiptHash : bytes32;
  call_ipfsCid : string;
  call_originalTxHash : bytes32;
}.

Definition call_anchorReceipt (s : State) (c : Call)
  : result (State * ReceiptAnchored) :=
  anchorReceipt (call_env c) s (call_receiptId c) (call_receiptHash c)
                (call_ipfsCid c) (call_originalTxHash c).

Definition exec (s : State) (c : Call) : State :=
  match call_anchorReceipt s c with
  | Ok (s', _) => s'
  | Throw _ => s
  end.

Definition run (s : State) (calls : list Call) : State :=
  foldl exec s calls.

(** A transaction in a block whose timestamp is not zero: every block
    after the genesis block. *)
Definition timely (c : Call) : Prop := block_timestamp (call_env c) <> 0%N.

(** The enumeration and the mapping agree: the ids listed are the ids
    that have a record, each once. *)
Definition consistent (s : State) : Prop :=
  NoDup (receiptIds s)
  /\ forall id, id ∈ receiptIds s <-> anchoredAt (receipts_at s id) <> 0%N.

End ReceiptAnchor.

(** Two attestations are of the same signer when their addresses are
    equal once in lower case: the test of [addAttestation]. *)
Definition same_signer (a b : Attestation.t) : Prop :=
  Js.toLowerCase (Attestation.agent a) = Js.toLowerCase (Attestation.agent b).

(** ** A demonstration world

    The receipt of the demo script ([demo/demo.ts]) and stand-ins for
    the collaborators: a chain that knows one transaction, a digest that
    is the length of its input, and a signature scheme in which the
    signature of an address is the address itself behind a tag; a
    signature that is not hexadecimal text makes recovery throw. *)

Module Demo.

Definition DEMO_TX_HASH : string :=
  "0x1234567890abcdef1234567890abcdef1234567890abcdef1234567890abcdef".

Definition buyerAddress : string := "0xAb5801a7D398351b8bE11C439e05C5B3259aeC9B".
Definition sellerAddress : string := "0x1Db3439a222C519ab44bb1144fC28167b4Fa6EE6".
Definition payerOnChain : string := "0x00000000000000000000000000000000000000AA".
Definition payeeOnChain : string := "0x00000000000000000000000000000000000000BB".

Definition commerce : CommerceContext.t :=
  CommerceContext.mk
    service_payment
    "Premium AI data analysis - 30 day subscription"
    (Some "0xabc123def456...")
    None
    (Some (CommerceTerms.mk
             (Some "30d") (Some "99.9% uptime")
             (Some ["Daily reports"; "API access"; "24/7 support"])
             (Some "Pro-rata if SLA breached") None))
    paid_in_full
    (Some [("tier", Json.JStr "premium"); ("startDate", Json.JStr "2026-02-08")]).

Definition mockReceipt : AgentReceipt.t :=
  AgentReceipt.mk
    "550e8400-e29b-41d4-a716-446655440000" "1.0" "2026-02-08T12:00:00.000Z"
    (TransactionProof.mk base_sepolia DEMO_TX_HASH 12345678 "0xblock123..."
       "2026-02-08T12:00:00.000Z" buyerAddress sellerAddress "500.00" USDC None)
    commerce [] None None None.

Definition chain_client : PublicClient := {|
  getTransaction h :=
    if String.eqb h DEMO_TX_HASH
    then Ok (Some (Transaction.mk payerOnChain (Some payeeOnChain) "0x" "0xblock123..."))
    else Ok None;
  getTransactionReceipt h :=
    if String.eqb h DEMO_TX_HASH
    then Ok (Some (TransactionReceipt.mk 12345678 "0xblock123..." "success" [] 21000))
    else Ok None;
  getBlock _ := Ok (Block.mk 1770552000);
|}.

Definition toy_signature (address : string) : string :=
  "0xsigned:" ++ Js.toLowerCase address.

Definition viem : Viem := {|
  keccak256 bs := "0x" ++ pretty (List.length bs);
  formatUnits value decimals := pretty value;
  verifyTypedData address typedData signature :=
    if String.prefix "0x" signature
    then Ok (String.eqb signature (toy_signature address))
    else Throw "InvalidSignatureError";
|}.

Definition runtime : Runtime := {|
  BigInt text := Throw "SyntaxError: Cannot convert to a BigInt";
  toISOString ms := Ok "2026-02-08T12:00:00.000Z";
|}.

Definition buyerAttestation : Attestation.t :=
  Attestation.mk buyerAddress None (toy_signature buyerAddress)
                 "2026-02-08T12:01:00.000Z" buyer.
Definition sellerAttestation : Attestation.t :=
  Attestation.mk sellerAddress None (toy_signature sellerAddress)
                 "2026-02-08T12:02:00.000Z" seller.
Definition malformedAttestation : Attestation.t :=
  Attestation.mk sellerAddress None "not-a-signature"
                 "2026-02-08T12:03:00.000Z" seller.
(** The buyer's address once more, in lower case. *)
Definition repeatedAttestation : Attestation.t :=
  Attestation.mk (Js.toLowerCase buyerAddress) None (toy_signature buyerAddress)
                 "2026-02-08T12:04:00.000Z" witness.

(** A store that holds [mockReceipt] at reference 1, its (empty)
    attestation array at reference 1 of the arrays. *)
Definition store : Heap.t :=
  Heap.mk {[ 1%positive := AgentReceipt.spread_with_attestations mockReceipt 1%positive ]}
          {[ 1%positive := [] ]}.

(** The same store after the buyer has attested. *)
Definition store_signed : Heap.t :=
  Heap.mk {[ 1%positive := AgentReceipt.spread_with_attestations mockReceipt 1%positive ]}
          {[ 1%positive := [buyerAttestation] ]}.

End Demo.

(** ** Ledger scenarios *)

Module LedgerScenario.
Import ReceiptAnchor.

Definition alice : address := 0xA11CE%N.
Definition bob : address := 0xB0B%N.

Definition anchor_by (who : address) (time : uint256) (id : bytes32) : Call :=
  mkCall (mkEnv who time) id (id + 0x1000)%N "bafyreigdemo" (id + 0x2000)%N.

(** Three anchors by [alice] interleaved with two by [bob]. *)
Definition five_anchors : list Call :=
  [anchor_by alice 1700000001 1; anchor_by bob 1700000002 2;
   anchor_by alice 1700000003 3; anchor_by bob 1700000004 4;
   anchor_by alice 1700000005 5]%N.

Definition after_five : State := run initial five_anchors.
End LedgerScenario.

(** * Further operations

    The functions of the same files that the properties below are
    about: the quick path of the verifier, signing, pinning, anchoring
    through calldata and the complete flow of [src/index.ts]. *)

Module JsText.

(** [a.join(sep)] *)
Fixpoint join (sep : string) (l : list string) : string :=
  match l with
  | [] => EmptyString
  | [x] => x
  | x :: l' => x ++ sep ++ join sep l'
  end.

(** [s.slice(a, b)] for [0 <= a <= b]. *)
Definition slice (a b : nat) (s : string) : string :=
  String.substring a (b - a) s.

Definition newline : string := String (ascii_of_nat 10) EmptyString.

End JsText.

Module JsonIndent.
Import Json.

(** [JSON.stringify(v, null, gap)]: [indent] is the indentation of the
    line the value starts on. *)
Fixpoint stringify (gap indent : string) (v : json) : string :=
  match v with
  | JNull => "null"
  | JBool true => "true"
  | JBool false => "false"
  | JNum z => pretty z
  | JStr s => quote s
  | JArr [] => "[]"
  | JArr l =>
      let inner := indent ++ gap in
      "[" ++ JsText.newline ++ inner
          ++ JsText.join ("," ++ JsText.newline ++ inner) (map (stringify gap inner) l)
          ++ JsText.newline ++ indent ++ "]"
  | JObj [] => "{}"
  | JObj l =>
      let inner := indent ++ gap in
      "{" ++ JsText.newline ++ inner
          ++ JsText.join ("," ++ JsText.newline ++ inner)
               (map (fun kv => quote (fst kv) ++ ": " ++ stringify gap inner (snd kv)) l)
          ++ JsText.newline ++ indent ++ "}"
  end.

End JsonIndent.

Definition Role_text (r : Role) : string :=
  match r with
  | buyer => "buyer"
  | seller => "seller"
  | witness => "witness"
  | arbiter => "arbiter"
  end.

(** The JSON values of an attestation and of a whole receipt, keys in
    the order of the interface declarations, which is the order in which
    [signReceipt], [createReceipt] and [createAndSignReceipt] set them. *)
Definition Attestation_json (a : Attestation.t) : Json.json :=
  Json.JObj
    ([("agent", Json.JStr (Attestation.agent a))]
     ++ Json.opt_field "agentId" (Json.JStr <$> Attestation.agentId a)
     ++ [("signature", Json.JStr (Attestation.signature a));
         ("timestamp", Json.JStr (Attestation.timestamp a));
         ("role", Json.JStr (Role_text (Attestation.role a)))]).

Definition AgentReceipt_json (r : AgentReceipt.t) : Json.json :=
  Json.JObj
    ([("receiptId", Json.JStr (AgentReceipt.receiptId r));
      ("version", Json.JStr (AgentReceipt.version r));
      ("createdAt", Json.JStr (AgentReceipt.createdAt r));
      ("transaction", TransactionProof_json (AgentReceipt.transaction r));
      ("commerce", CommerceContext_json (AgentReceipt.commerce r));
      ("attestations", Json.JArr (map Attestation_json (AgentReceipt.attestations r)))]
     ++ Json.opt_field "ipfsCid" (Json.JStr <$> AgentReceipt.ipfsCid r)
     ++ Json.opt_field "onChainAnchor" (Json.JStr <$> AgentReceipt.onChainAnchor r)
     ++ Json.opt_field "anchorTxHash" (Json.JStr <$> AgentReceipt.anchorTxHash r)).

(** The account and wallet primitives of viem.  The account is the one
    of the private key; [sendTransaction] is given the recipient, the
    calldata and the value. *)
Class Wallet := {
  privateKeyToAccount : string -> result string;
  signTypedData : string -> Eip712.TypedData -> result string;
  sendTransaction : string -> string -> string -> Z -> result string;
}.

Module SignReceiptInput.
Record t := mk {
  receipt : AgentReceipt.t;
  privateKey : string;
  role : Role;
}.
End SignReceiptInput.

Module QuickVerification.
Record t := mk { valid : bool; message : string }.
End QuickVerification.

Module Anchoring.
Record t := mk { hash : string; txHash : string }.
End Anchoring.

Section FurtherOperations.
Context `{PublicClient} `{Viem} `{Wallet}.

(** [src/verifier.ts], [quickVerify]. *)
Definition quickVerify (receipt : AgentReceipt.t) : result QuickVerification.t :=
  txVerification ← verifyTransaction receipt;
  if negb (TxVerification.exists_ txVerification)
  then Ok (QuickVerification.mk false "Transaction not found on chain")
  else if negb (TxVerification.matches txVerification)
  then Ok (QuickVerification.mk false
             ("Transaction data mismatch: "
                ++ JsText.join ", " (TxVerification.errors txVerification)))
  else Ok (QuickVerification.mk true "Transaction verified on chain").

(** [src/signer.ts], [signReceipt]; [now] is what
    [new Date().toISOString()] returns at the call. *)
Definition signReceipt (now : string) (input : SignReceiptInput.t)
  : result Attestation.t :=
  account ← privateKeyToAccount (SignReceiptInput.privateKey input);
  let typedData := getReceiptSigningMessage (SignReceiptInput.receipt input) in
  signature ← signTypedData (SignReceiptInput.privateKey input) typedData;
  Ok (Attestation.mk account None signature now (SignReceiptInput.role input)).

(** [src/storage.ts], [pinToIPFS]. *)
Definition pinToIPFS (receipt : AgentReceipt.t) : string :=
  let receiptJson :=
    JsonIndent.stringify "  " EmptyString (AgentReceipt_json receipt) in
  let contentHash := keccak256 (toBytes receiptJson) in
  "bafyreig" ++ JsText.slice 2 50 contentHash.

(** [src/storage.ts], [fetchFromIPFS]: [null] for every CID. *)
Definition fetchFromIPFS (cid : string) : option AgentReceipt.t := None.

(** [src/storage.ts], [anchorOnChain]. *)
Definition anchorOnChain (receipt : AgentReceipt.t) (privateKey : string)
  : result Anchoring.t :=
  let receiptHash := computeReceiptHash receipt in
  account ← privateKeyToAccount privateKey;
  txHash ← sendTransaction privateKey account receiptHash 0;
  Ok (Anchoring.mk receiptHash txHash).

End FurtherOperations.

(** ** The complete flow ([src/index.ts])

    A computation on the object store that may throw. *)

Definition Flow (A : Type) : Type := Heap.t -> option (Heap.t * result A).

Module FlowOps.

Definition ret {A} (a : A) : Flow A := fun h => Some (h, Ok a).

Definition bind {A B} (m : Flow A) (k : A -> Flow B) : Flow B :=
  fun h =>
    match m h with
    | Some (h', Ok a) => k a h'
    | Some (h', Throw e) => Some (h', Throw e)
    | None => None
    end.

(** A call that does not touch the store. *)
Definition lift {A} (m : result A) : Flow A := fun h => Some (h, m).

(** Reading the receipt a reference denotes. *)
Definition load (l : loc) : Flow AgentReceipt.t :=
  fun h => r ← Heap.load h l; Some (h, Ok r).

(** The object a function builds and returns: its attestation array
    and the object itself are new. *)
Definition alloc (r : AgentReceipt.t) : Flow loc :=
  fun h =>
    let '(h1, arr) := Heap.alloc_array h (AgentReceipt.attestations r) in
    let '(h2, obj) :=
      Heap.alloc_object h1 (AgentReceipt.spread_with_attestations r arr) in
    Some (h2, Ok obj).

(** [o.ipfsCid = v], [o.onChainAnchor = v] and [o.anchorTxHash = v] on
    the object at [l]. *)
Definition assign (f : AgentReceipt.over loc -> AgentReceipt.over loc) (l : loc)
  : Flow unit :=
  fun h =>
    o ← Heap.objects h !! l;
    Some (Heap.mk (<[l := f o]> (Heap.objects h)) (Heap.arrays h), Ok tt).

Definition set_ipfsCid (v : string) (o : AgentReceipt.over loc) :=
  AgentReceipt.with_anchoring o (Some v)
    (AgentReceipt.onChainAnchor o) (AgentReceipt.anchorTxHash o).
Definition set_onChainAnchor (v : string) (o : AgentReceipt.over loc) :=
  AgentReceipt.with_anchoring o (AgentReceipt.ipfsCid o)
    (Some v) (AgentReceipt.anchorTxHash o).
Definition set_anchorTxHash (v : string) (o : AgentReceipt.over loc) :=
  AgentReceipt.with_anchoring o (AgentReceipt.ipfsCid o)
    (AgentReceipt.onChainAnchor o) (Some v).

End FlowOps.

Notation "'let*' x ':=' m 'in' k" := (FlowOps.bind m (fun x => k))
  (at level 10, x name, m at level 100, k at level 200).

Module FlowParams.
Record t := mk {
  txHash : string;
  commerce : CommerceContext.t;
  buyerPrivateKey : string;
  sellerPrivateKey : string;
  buyerAddress : string;
  sellerAddress : string;
  anchor : option bool;
  anchorPrivateKey : option string;
}.
End FlowParams.

(** What [uuidv4()] and the three readings of the clock return during
    one run of the flow. *)
Module FlowStamps.
Record t := mk {
  uuid : string;
  createdAt : string;
  buyerSignedAt : string;
  sellerSignedAt : string;
}.
End FlowStamps.

Section CompleteFlow.
Context `{PublicClient} `{Viem} `{Runtime} `{Wallet}.

(** The last step of the flow: [if (params.anchor &&
    params.anchorPrivateKey) { ... }] on the receipt at [receipt]. *)
Definition anchor_if_requested (params : FlowParams.t) (receipt : loc) : Flow unit :=
  match FlowParams.anchorPrivateKey params with
  | Some anchorPrivateKey =>
      if default false (FlowParams.anchor params) && Js.truthy anchorPrivateKey
      then
        let* value := FlowOps.load receipt in
        let* anchored := FlowOps.lift (anchorOnChain value anchorPrivateKey) in
        let* _ :=
          FlowOps.assign (FlowOps.set_onChainAnchor (Anchoring.hash anchored))
                         receipt in
        FlowOps.assign (FlowOps.set_anchorTxHash (Anchoring.txHash anchored))
                       receipt
      else FlowOps.ret tt
  | None => FlowOps.ret tt
  end.

Definition createAndSignReceipt (stamps : FlowStamps.t) (params : FlowParams.t)
  : Flow loc :=
  let* created :=
    FlowOps.lift
      (createReceipt (FlowStamps.uuid stamps) (FlowStamps.createdAt stamps)
         (CreateReceiptInput.mk (FlowParams.txHash params) None
            (FlowParams.commerce params)
            (Some (FlowParams.buyerAddress params))
            (Some (FlowParams.sellerAddress params)))) in
  let* receipt := FlowOps.alloc created in
  (* buyer signs *)
  let* value := FlowOps.load receipt in
  let* buyerAttestation :=
    FlowOps.lift
      (signReceipt (FlowStamps.buyerSignedAt stamps)
         (SignReceiptInput.mk value (FlowParams.buyerPrivateKey params) buyer)) in
  let* receipt := (fun h => addAttestation h receipt buyerAttestation) in
  (* seller signs *)
  let* value := FlowOps.load receipt in
  let* sellerAttestation :=
    FlowOps.lift
      (signReceipt (FlowStamps.sellerSignedAt stamps)
         (SignReceiptInput.mk value (FlowParams.sellerPrivateKey params) seller)) in
  let* receipt := (fun h => addAttestation h receipt sellerAttestation) in
  (* pin *)
  let* value := FlowOps.load receipt in
  let* _ := FlowOps.assign (FlowOps.set_ipfsCid (pinToIPFS value)) receipt in
  (* anchor, if requested *)
  let* _ := anchor_if_requested params receipt in
  FlowOps.ret receipt.

(** [verifyAndPrint]: the [valid] field of the full verification. *)
Definition verifyAndPrint (receipt : AgentReceipt.t) : result bool :=
  res ← verifyReceipt (VerifyReceiptInput.mk receipt None);
  Ok (VerificationResult.valid res).

End CompleteFlow.

(** ** Vocabulary of the further properties *)


(** Whatever a reference denotes in [h] it denotes in [h']. *)
Definition preserved (h h' : Heap.t) : Prop :=
  forall k v, Heap.load h k = Some v -> Heap.load h' k = Some v.

(** ** A demonstration wallet

    Two private keys with the buyer's and the seller's account of
    [Demo], a third key with the buyer's account written in lower case;
    signing gives the toy signature of the account; a transaction that
    is sent gets one fixed hash.  [chain_after_anchor] is the chain of
    [Demo] once that transaction, with the digest of [Demo.mockReceipt]
    as calldata, is on it. *)

Module DemoWallet.

Definition buyerKey : string := "0xkey-of-buyer".
Definition sellerKey : string := "0xkey-of-seller".
Definition buyerAgainKey : string := "0xsecond-key-of-buyer".
Definition anchorTx : string := "0xa11c0de5".

Definition account_of (key : string) : result string :=
  if String.eqb key buyerKey then Ok Demo.buyerAddress
  else if String.eqb key sellerKey then Ok Demo.sellerAddress
  else if String.eqb key buyerAgainKey then Ok (Js.toLowerCase Demo.buyerAddress)
  else Throw "InvalidPrivateKeyError".

Definition wallet : Wallet := {|
  privateKeyToAccount := account_of;
  signTypedData key typedData :=
    account ← account_of key; Ok (Demo.toy_signature account);
  sendTransaction key to data value := Ok anchorTx;
|}.

Definition chain_after_anchor : PublicClient := {|
  getTransaction h :=
    if String.eqb h anchorTx
    then Ok (Some (Transaction.mk Demo.buyerAddress (Some Demo.buyerAddress)
                     (@computeReceiptHash Demo.viem _ Demo.mockReceipt) "0xblock9"))
    else @getTransaction Demo.chain_client h;
  getTransactionReceipt := @getTransactionReceipt Demo.chain_client;
  getBlock := @getBlock Demo.chain_client;
|}.

Definition params : FlowParams.t :=
  FlowParams.mk Demo.DEMO_TX_HASH Demo.commerce buyerKey sellerKey
                Demo.buyerAddress Demo.sellerAddress None None.

Definition stamps : FlowStamps.t :=
  FlowStamps.mk "550e8400-e29b-41d4-a716-446655440000"
                "2026-02-08T12:00:00.000Z" "2026-02-08T12:01:00.000Z"
                "2026-02-08T12:02:00.000Z".


(** A runtime whose [BigInt] reads two texts. *)
Definition runtime : Runtime := {|
  BigInt text :=
    if String.eqb text "0x1dcd6500" then Ok 500000000%Z
    else if String.eqb text "0x0f4240" then Ok 1000000%Z
    else Throw "SyntaxError: Cannot convert to a BigInt";
  toISOString ms := Ok "2026-02-08T12:00:00.000Z";
|}.

End DemoWallet.

(** * Properties *)

(** ** The anchor ledger *)

Section LedgerProperties.
Import ReceiptAnchor.

Lemma anchorReceipt_fresh env s id h cid tx :
  anchoredAt (receipts_at s id) = 0%N ->
  h <> 0%N ->
  cid <> EmptyString ->
  anchorReceipt env s id h cid tx =
    Ok (mkState
          (<[id := mkReceipt h cid tx (msg_sender env) (block_timestamp env)]>
             (receipts s))
          (receiptIds s ++ [id])%list,
        mkReceiptAnchored id h cid tx (msg_sender env) (block_timestamp env)).
Proof.
  intros Hat Hh Hcid. unfold anchorReceipt.
  rewrite Hat. simpl.
  destruct (N.eqb_spec h 0) as [->|_]; [done|]. simpl.
  destruct cid as [|c cid']; [done|]. reflexivity.
Qed.

Lemma anchorReceipt_taken env s id h cid tx :
  anchoredAt (receipts_at s id) <> 0%N ->
  anchorReceipt env s id h cid tx = Throw "Receipt already anchored".
Proof.
  intros Hat. unfold anchorReceipt.
  destruct (N.eqb_spec (anchoredAt (receipts_at s id)) 0); [done|].
  reflexivity.
Qed.

(** What a successful call leaves in the ledger. *)
Lemma anchorReceipt_inv env s id h cid tx s' ev :
  anchorReceipt env s id h cid tx = Ok (s', ev) ->
  anchoredAt (receipts_at s id) = 0%N /\
  s' = mkState
         (<[id := mkReceipt h cid tx (msg_sender env) (block_timestamp env)]>
            (receipts s))
         (receiptIds s ++ [id])%list.
Proof.
  unfold anchorReceipt.
  destruct (N.eqb_spec (anchoredAt (receipts_at s id)) 0) as [Hz|]; [|done].
  simpl. destruct (h =? 0)%N; [done|]. simpl.
  destruct (0 <? String.length cid)%nat; [|done]. simpl.
  intros [= <- _]. done.
Qed.

(** A record that exists is never touched again. *)
Lemma exec_keeps_anchored s c id :
  anchoredAt (receipts_at s id) <> 0%N ->
  receipts_at (exec s c) id = receipts_at s id.
Proof.
  intros Hat. unfold exec, call_anchorReceipt.
  destruct (anchorReceipt _ _ _ _ _ _) as [[s' ev]|e] eqn:E; [|done].
  apply anchorReceipt_inv in E as [Hfree ->].
  unfold receipts_at; simpl.
  destruct (decide (call_receiptId c = id)) as [Heq|Hne];
    [rewrite Heq in Hfree; done|].
  by rewrite lookup_insert_ne.
Qed.

Lemma run_keeps_anchored calls s id :
  anchoredAt (receipts_at s id) <> 0%N ->
  receipts_at (run s calls) id = receipts_at s id.
Proof.
  revert s. induction calls as [|c calls IH]; intros s Hat; [done|].
  unfold run in *; simpl.
  rewrite IH; rewrite exec_keeps_anchored; done.
Qed.

End LedgerProperties.

Section LedgerInvariant.
Import ReceiptAnchor.

Lemma initial_consistent : consistent initial.
Proof.
  split; [constructor|].
  intros id. unfold receipts_at; simpl. rewrite lookup_empty. simpl.
  split; [by intros ?%elem_of_nil|done].
Qed.

Lemma exec_consistent s c :
  timely c -> consistent s -> consistent (exec s c).
Proof.
  intros Htime [Hnodup Hlisted]. unfold exec, call_anchorReceipt.
  destruct (anchorReceipt _ _ _ _ _ _) as [[s' ev]|e] eqn:E; [|done].
  apply anchorReceipt_inv in E as [Hfree ->].
  assert (Hnew : call_receiptId c ∉ receiptIds s).
  { intros Hin. by apply Hlisted in Hin. }
  split; simpl.
  - apply NoDup_app. split; [done|]. split.
    + intros x Hx ->%list_elem_of_singleton. done.
    + apply NoDup_singleton.
  - intros id. rewrite elem_of_app, list_elem_of_singleton.
    unfold receipts_at; simpl.
    destruct (decide (call_receiptId c = id)) as [<-|Hne].
    + rewrite lookup_insert_eq. simpl. split; [intros _; exact Htime|by right].
    + rewrite lookup_insert_ne by done. rewrite Hlisted.
      unfold receipts_at. split; [by intros [?|?]|by left].
Qed.

Lemma run_consistent calls : forall s,
  Forall timely calls -> consistent s -> consistent (run s calls).
Proof.
  induction calls as [|c calls IH]; intros s Htimely Hs; [done|].
  inversion Htimely as [|? ? Hc Hcalls]; subst.
  unfold run; simpl. apply IH; [done|]. by apply exec_consistent.
Qed.

(** On a ledger reached from the empty one, the ids listed under a
    writer are the ids of the records that exist and were written by it,
    each once. *)
Lemma listing_by_writer calls addr :
  Forall timely calls ->
  let s := run initial calls in
  let listing :=
    filter (fun id => anchoredBy (receipts_at s id) = addr) (receiptIds s) in
  NoDup listing
  /\ forall id,
       id ∈ listing
       <-> receiptExists s id = true /\ anchoredBy (getReceipt s id) = addr.
Proof.
  intros Htimely s listing.
  destruct (run_consistent calls initial Htimely initial_consistent)
    as [Hnodup Hlisted].
  fold s in Hnodup, Hlisted.
  split; [by apply NoDup_filter|].
  intros id. unfold listing. rewrite list_elem_of_filter, Hlisted.
  unfold receiptExists, getReceipt.
  destruct (N.ltb_spec 0 (anchoredAt (receipts_at s id))); split;
    intros [? ?]; split; (done || lia).
Qed.

End LedgerInvariant.

Section LedgerLoops.
Import ReceiptAnchor.
Variable s : State.
Variable agent : address.

Local Abbreviation anchored_by_agent :=
  (fun id : bytes32 => anchoredBy (receipts_at s id) = agent).

Lemma read_at_middle (pre suf : list bytes32) x :
  read_at (pre ++ x :: suf) (N.of_nat (List.length pre)) = Ok x.
Proof.
  unfold read_at. rewrite Nat2N.id.
  by rewrite list_lookup_middle.
Qed.

Lemma checked_inc_below n :
  (n < UINT256_MAX)%N -> checked_inc n = Ok (n + 1)%N.
Proof.
  intros Hn. unfold checked_inc.
  by destruct (N.ltb_spec n UINT256_MAX); [|lia].
Qed.

Lemma count_loop_spec suf : forall pre fuel count,
  receiptIds s = (pre ++ suf)%list ->
  (N.of_nat (List.length (receiptIds s)) <= UINT256_MAX)%N ->
  (List.length suf < fuel)%nat ->
  (count <= N.of_nat (List.length pre))%N ->
  count_loop fuel s agent (N.of_nat (List.length pre)) count =
    Ok (count + N.of_nat (List.length (filter anchored_by_agent suf)))%N.
Proof.
  induction suf as [|x suf IH]; intros pre fuel count Hids Hmax Hfuel Hcount;
    (destruct fuel as [|fuel]; [simpl in Hfuel; lia|]); simpl.
  - rewrite Hids, length_app, Nat.add_0_r, N.ltb_irrefl.
    by rewrite N.add_0_r.
  - assert (Hlen : (N.of_nat (List.length pre)
                    < N.of_nat (List.length (receiptIds s)))%N).
    { rewrite Hids, length_app. simpl. lia. }
    destruct (N.ltb_spec (N.of_nat (List.length pre))
                         (N.of_nat (List.length (receiptIds s)))); [|lia].
    rewrite Hids at 1. rewrite read_at_middle. simpl.
    assert (Hnext : (N.of_nat (List.length pre) + 1)%N
                    = N.of_nat (List.length (pre ++ [x]))).
    { rewrite length_app. simpl. lia. }
    destruct (N.eqb_spec (anchoredBy (receipts_at s x)) agent) as [Heq|Hne].
    + rewrite checked_inc_below by lia. simpl.
      rewrite checked_inc_below by lia. simpl.
      rewrite Hnext, IH.
      * rewrite filter_cons_True by done. simpl. f_equal. lia.
      * by rewrite <- app_assoc.
      * done.
      * simpl in Hfuel. lia.
      * rewrite length_app. simpl. lia.
    + simpl. rewrite checked_inc_below by lia. simpl.
      rewrite Hnext, IH.
      * by rewrite filter_cons_False.
      * by rewrite <- app_assoc.
      * done.
      * simpl in Hfuel. lia.
      * rewrite length_app. simpl. lia.
Qed.

Lemma write_at_middle (out rest : list bytes32) z x :
  write_at (out ++ z :: rest) (N.of_nat (List.length out)) x
  = Ok ((out ++ [x]) ++ rest)%list.
Proof.
  unfold write_at.
  destruct (N.ltb_spec (N.of_nat (List.length out))
                       (N.of_nat (List.length (out ++ z :: rest)))) as [_|Hge].
  - rewrite Nat2N.id.
    rewrite insert_app_r_alt by done.
    rewrite Nat.sub_diag. simpl.
    by rewrite <- app_assoc.
  - rewrite length_app in Hge. simpl in Hge. lia.
Qed.

Lemma build_loop_spec suf : forall pre fuel out rest,
  receiptIds s = (pre ++ suf)%list ->
  (N.of_nat (List.length (receiptIds s)) <= UINT256_MAX)%N ->
  (List.length suf < fuel)%nat ->
  (List.length out <= List.length pre)%nat ->
  List.length rest = List.length (filter anchored_by_agent suf) ->
  build_loop fuel s agent (N.of_nat (List.length pre))
             (out ++ rest)%list (N.of_nat (List.length out)) =
    Ok (out ++ filter anchored_by_agent suf)%list.
Proof.
  induction suf as [|x suf IH]; intros pre fuel out rest Hids Hmax Hfuel Hout Hrest;
    (destruct fuel as [|fuel]; [simpl in Hfuel; lia|]); simpl.
  - rewrite Hids, length_app, Nat.add_0_r, N.ltb_irrefl.
    rewrite filter_nil in Hrest. by destruct rest.
  - assert (Hlen : (N.of_nat (List.length pre)
                    < N.of_nat (List.length (receiptIds s)))%N).
    { rewrite Hids, length_app. simpl. lia. }
    destruct (N.ltb_spec (N.of_nat (List.length pre))
                         (N.of_nat (List.length (receiptIds s)))); [|lia].
    rewrite Hids at 1. rewrite read_at_middle. simpl.
    assert (Hnext : (N.of_nat (List.length pre) + 1)%N
                    = N.of_nat (List.length (pre ++ [x]))).
    { rewrite length_app. simpl. lia. }
    destruct (N.eqb_spec (anchoredBy (receipts_at s x)) agent) as [Heq|Hne].
    + rewrite filter_cons_True in Hrest by done.
      destruct rest as [|z rest]; [done|]. simpl in Hrest.
      rewrite write_at_middle. simpl.
      rewrite checked_inc_below by lia. simpl.
      rewrite checked_inc_below by lia. simpl.
      assert (Hidx : (N.of_nat (List.length out) + 1)%N
                     = N.of_nat (List.length (out ++ [x]))).
      { rewrite length_app. simpl. lia. }
      rewrite Hnext, Hidx, IH.
      * rewrite filter_cons_True by done. by rewrite <- app_assoc.
      * by rewrite <- app_assoc.
      * done.
      * simpl in Hfuel. lia.
      * rewrite !length_app. simpl. lia.
      * lia.
    + rewrite filter_cons_False in Hrest by done. simpl.
      rewrite checked_inc_below by lia. simpl.
      rewrite Hnext, IH.
      * by rewrite filter_cons_False.
      * by rewrite <- app_assoc.
      * done.
      * simpl in Hfuel. lia.
      * rewrite length_app. simpl. lia.
      * done.
Qed.

End LedgerLoops.

Section LedgerTheorems.
Import ReceiptAnchor.

(** C4. The ledger is write-once per receiptId.  On a ledger where
    [id] is not anchored, [anchorReceipt(id, h, loc, tx)] with a
    non-zero hash and a non-empty locator succeeds and stores the
    record of the call.  After any further transactions [later], every
    [anchorReceipt] call with the same [id], whatever its sender, hash,
    locator and transaction reference, reverts with "Receipt already
    anchored", and [getReceipt(id)] after the reverted call is still the
    record of the first call.  The existence marker is the write
    timestamp, so the first call is taken in a block whose timestamp is
    not zero, as it is for every block that carries a transaction. *)
Theorem anchor_write_once
  (s : State) (env : Env) (id h : bytes32) (loc : string) (tx : bytes32)
  (later : list Call)
  (env' : Env) (h' : bytes32) (loc' : string) (tx' : bytes32) :
  anchoredAt (receipts_at s id) = 0%N ->
  h <> 0%N ->
  loc <> EmptyString ->
  block_timestamp env <> 0%N ->
  exists s1 ev,
    anchorReceipt env s id h loc tx = Ok (s1, ev)
    /\ getReceipt s1 id
       = mkReceipt h loc tx (msg_sender env) (block_timestamp env)
    /\ anchorReceipt env' (run s1 later) id h' loc' tx'
       = Throw "Receipt already anchored"
    /\ getReceipt (exec (run s1 later) (mkCall env' id h' loc' tx')) id
       = mkReceipt h loc tx (msg_sender env) (block_timestamp env).
Proof.
  intros Hfree Hh Hloc Htime.
  eexists _, _. split; [by apply anchorReceipt_fresh|].
  set (s1 := mkState _ _).
  assert (Hrec : receipts_at s1 id
                 = mkReceipt h loc tx (msg_sender env) (block_timestamp env)).
  { unfold receipts_at, s1; simpl. by rewrite lookup_insert_eq. }
  assert (Hmark : anchoredAt (receipts_at s1 id) <> 0%N) by by rewrite Hrec.
  assert (Hlater : anchoredAt (receipts_at (run s1 later) id) <> 0%N).
  { by rewrite run_keeps_anchored. }
  split; [exact Hrec|]. split; [by apply anchorReceipt_taken|].
  unfold getReceipt.
  rewrite exec_keeps_anchored by done.
  by rewrite run_keeps_anchored.
Qed.

(** C7. [getReceiptsByAgent(addr)] returns exactly the ids of
    [receiptIds] whose stored record has [anchoredBy] equal to [addr],
    in the order of [receiptIds], and neither loop runs out of range or
    overflows.  [receiptIds.length] is a [uint256]. *)
Theorem getReceiptsByAgent_filter (s : State) (addr : address) :
  (N.of_nat (List.length (receiptIds s)) <= UINT256_MAX)%N ->
  getReceiptsByAgent s addr
  = Ok (filter (fun id => anchoredBy (receipts_at s id) = addr) (receiptIds s)).
Proof.
  intros Hmax. unfold getReceiptsByAgent.
  set (matching := filter (fun id => anchoredBy (receipts_at s id) = addr)
                          (receiptIds s)).
  assert (Hcount :
    count_loop (S (List.length (receiptIds s))) s addr 0%N 0%N
    = Ok (0 + N.of_nat (List.length matching))%N).
  { apply (count_loop_spec s addr (receiptIds s) []); simpl; (done || lia). }
  rewrite Hcount. clear Hcount.
  change (Ok (0 + N.of_nat (List.length matching))%N ≫= ?k)
    with (k (0 + N.of_nat (List.length matching))%N).
  cbv beta. rewrite N.add_0_l, Nat2N.id.
  apply (build_loop_spec s addr (receiptIds s) [] _ []); simpl; try (done || lia).
  by rewrite length_replicate.
Qed.

End LedgerTheorems.

(** Scenario C: receipt 1 is anchored, another receipt is anchored by
    someone else, and receipt 1 is presented again with another hash
    and locator. *)
Lemma anchor_write_once_witness :
  let s := ReceiptAnchor.initial in
  let env := ReceiptAnchor.mkEnv LedgerScenario.alice 1700000001 in
  let later := [LedgerScenario.anchor_by LedgerScenario.bob 1700000002 2] in
  let env' := ReceiptAnchor.mkEnv LedgerScenario.bob 1700000009 in
  ReceiptAnchor.anchoredAt (ReceiptAnchor.receipts_at s 1%N) = 0%N
  /\ 0xAA%N <> 0%N
  /\ "loc1" <> EmptyString
  /\ ReceiptAnchor.block_timestamp env <> 0%N
  /\ exists s1 ev,
      ReceiptAnchor.anchorReceipt env s 1 0xAA "loc1" 0x71 = Ok (s1, ev)
      /\ ReceiptAnchor.getReceipt s1 1%N
         = ReceiptAnchor.mkReceipt 0xAA "loc1" 0x71 LedgerScenario.alice 1700000001
      /\ ReceiptAnchor.anchorReceipt env' (ReceiptAnchor.run s1 later)
           1 0xBB "loc2" 0x72
         = Throw "Receipt already anchored"
      /\ ReceiptAnchor.getReceipt
           (ReceiptAnchor.exec (ReceiptAnchor.run s1 later)
              (ReceiptAnchor.mkCall env' 1 0xBB "loc2" 0x72)) 1%N
         = ReceiptAnchor.mkReceipt 0xAA "loc1" 0x71 LedgerScenario.alice 1700000001.
Proof.
  intros s env later env'.
  assert (H1 : ReceiptAnchor.anchoredAt (ReceiptAnchor.receipts_at s 1%N) = 0%N)
    by reflexivity.
  assert (H2 : 0xAA%N <> 0%N) by discriminate.
  assert (H3 : "loc1" <> EmptyString) by discriminate.
  assert (H4 : ReceiptAnchor.block_timestamp env <> 0%N) by discriminate.
  repeat (split; [assumption|]).
  exact (anchor_write_once s env 1 0xAA "loc1" 0x71 later env' 0xBB "loc2" 0x72
           H1 H2 H3 H4).
Defined.

(** Scenario D: three anchors by one identity and two by another. *)
Lemma getReceiptsByAgent_filter_witness :
  (N.of_nat (List.length (ReceiptAnchor.receiptIds LedgerScenario.after_five))
   <= ReceiptAnchor.UINT256_MAX)%N
  /\ ReceiptAnchor.getReceiptsByAgent LedgerScenario.after_five LedgerScenario.alice
     = Ok [1; 3; 5]%N.
Proof.
  assert (H : (N.of_nat (List.length (ReceiptAnchor.receiptIds LedgerScenario.after_five))
               <= ReceiptAnchor.UINT256_MAX)%N) by (vm_compute; discriminate).
  split; [exact H|].
  rewrite (getReceiptsByAgent_filter LedgerScenario.after_five LedgerScenario.alice H).
  vm_compute. reflexivity.
Defined.

(** ** Checks never throw *)

Section Totality.
Context `{PublicClient} `{Viem}.

Lemma try_catch_total {A} (m : result A) (h : string -> A) :
  exists a, try_catch m (fun e => Ok (h e)) = Ok a.
Proof. destruct m; simpl; eauto. Qed.

Lemma verifyTransaction_total receipt :
  exists v, verifyTransaction receipt = Ok v.
Proof. unfold verifyTransaction. apply try_catch_total. Qed.

Lemma verifyOnChainAnchor_total receipt :
  exists v, verifyOnChainAnchor receipt = Ok v.
Proof.
  unfold verifyOnChainAnchor.
  destruct (AgentReceipt.anchorTxHash receipt) as [a|]; [|eauto].
  destruct (negb (Js.truthy a)); [eauto|].
  apply (try_catch_total _ (fun _ => AnchorVerification.mk false None None)).
Qed.

Lemma verifyAttestation_total receipt attestation :
  exists b, verifyAttestation receipt attestation = Ok b.
Proof. unfold verifyAttestation. apply (try_catch_total _ (fun _ => false)). Qed.

Lemma verify_each_total receipt todo : forall results,
  exists m, verify_each receipt todo results = Ok m.
Proof.
  induction todo as [|a todo IH]; intros results; simpl; [eauto|].
  destruct (verifyAttestation_total receipt a) as [b ->]. simpl.
  apply IH.
Qed.

Lemma verifyAllAttestations_total receipt :
  exists v, verifyAllAttestations receipt = Ok v.
Proof.
  unfold verifyAllAttestations.
  destruct (verify_each_total receipt (AgentReceipt.attestations receipt) [])
    as [m ->].
  simpl. eauto.
Qed.

(** The result of [verifyReceipt], check by check. *)
Lemma verifyReceipt_shape input :
  let receipt := VerifyReceiptInput.receipt input in
  exists txVerification sigVerification anchorMatches errors,
    verifyTransaction receipt = Ok txVerification
    /\ verifyAllAttestations receipt = Ok sigVerification
    /\ (AgentReceipt.attestations receipt = [] ->
        In "No attestations present" errors)
    /\ let checks :=
         Checks.mk (TxVerification.exists_ txVerification)
                   (TxVerification.matches txVerification)
                   (match AgentReceipt.attestations receipt with
                    | [] => false
                    | _ :: _ => AllAttestations.valid sigVerification
                    end)
                   anchorMatches
                   (if Js.truthy_opt (AgentReceipt.ipfsCid receipt)
                    then Some true else None) in
       verifyReceipt input
       = Ok (VerificationResult.mk (overall_valid checks) checks errors
                                   (confidence_score checks)).
Proof.
  intros receipt. unfold verifyReceipt. fold receipt.
  destruct (verifyTransaction_total receipt) as [txv Htx]. rewrite Htx.
  destruct (verifyAllAttestations_total receipt) as [sv Hsv].
  exists txv, sv.
  change (Ok txv ≫= ?k) with (k txv). cbv beta zeta.
  destruct (AgentReceipt.attestations receipt) as [|a atts] eqn:Hatts.
  - change (Nat.eqb (List.length (@nil Attestation.t)) 0) with true. cbv iota.
    match goal with
    | |- context [Ok (false, ?e) ≫= ?k] =>
        change (Ok (false, e) ≫= k) with (k (false, e)); cbv beta iota
    end.
    destruct (default true (VerifyReceiptInput.checkOnChain input)
              && Js.truthy_opt (AgentReceipt.anchorTxHash receipt)).
    + destruct (verifyOnChainAnchor_total receipt) as [av ->].
      eexists _, _. do 2 (split; [done|]). split; [|reflexivity].
      intros _.
      unfold push_if. destruct (negb _); rewrite ?in_app_iff; simpl; auto.
    + eexists _, _. do 2 (split; [done|]). split; [|reflexivity].
      intros _. rewrite in_app_iff; simpl; auto.
  - change (Nat.eqb (List.length (a :: atts)) 0) with false. cbv iota.
    rewrite Hsv.
    change (Ok sv ≫= ?k) with (k sv). cbv beta zeta.
    match goal with
    | |- context [Ok (?b, ?e) ≫= ?k] =>
        change (Ok (b, e) ≫= k) with (k (b, e)); cbv beta iota
    end.
    destruct (default true (VerifyReceiptInput.checkOnChain input)
              && Js.truthy_opt (AgentReceipt.anchorTxHash receipt)).
    + destruct (verifyOnChainAnchor_total receipt) as [av ->].
      eexists _, _. do 2 (split; [done|]). split; [done|reflexivity].
    + eexists _, _. do 2 (split; [done|]). split; [done|reflexivity].
Qed.

End Totality.

(** ** Canonical hash *)

(** C1. [computeReceiptHash] is a function of the four fields
    [receiptId], [version], [transaction] and [commerce] alone: two
    receipts that agree on them have the same digest, whatever their
    attestations, their anchoring fields ([ipfsCid], [onChainAnchor],
    [anchorTxHash]) and their creation time.  With both receipts the
    same this is determinism: the digest of a receipt is one value,
    however often it is computed. *)
Theorem computeReceiptHash_core_fields `{Viem} (r1 r2 : AgentReceipt.t) :
  AgentReceipt.receiptId r1 = AgentReceipt.receiptId r2 ->
  AgentReceipt.version r1 = AgentReceipt.version r2 ->
  AgentReceipt.transaction r1 = AgentReceipt.transaction r2 ->
  AgentReceipt.commerce r1 = AgentReceipt.commerce r2 ->
  computeReceiptHash r1 = computeReceiptHash r2.
Proof.
  intros Hid Hversion Htransaction Hcommerce.
  unfold computeReceiptHash.
  by rewrite Hid, Hversion, Htransaction, Hcommerce.
Qed.

Lemma computeReceiptHash_core_fields_witness :
  let r1 := Demo.mockReceipt in
  let r2 := AgentReceipt.mk
              (AgentReceipt.receiptId r1) (AgentReceipt.version r1)
              (AgentReceipt.createdAt r1) (AgentReceipt.transaction r1)
              (AgentReceipt.commerce r1)
              [Demo.buyerAttestation; Demo.sellerAttestation]
              (Some "bafyreigdemo") (Some "0xfeed") (Some "0xbeef") in
  AgentReceipt.receiptId r1 = AgentReceipt.receiptId r2
  /\ AgentReceipt.version r1 = AgentReceipt.version r2
  /\ AgentReceipt.transaction r1 = AgentReceipt.transaction r2
  /\ AgentReceipt.commerce r1 = AgentReceipt.commerce r2
  /\ @computeReceiptHash Demo.viem _ r1 = @computeReceiptHash Demo.viem _ r2.
Proof.
  intros r1 r2.
  repeat (split; [reflexivity|]).
  exact (@computeReceiptHash_core_fields Demo.viem r1 r2
           eq_refl eq_refl eq_refl eq_refl).
Defined.

(** ** Verification engine *)

(** C2. For every combination of check outcomes the confidence is
    between 0 and 100, and at least 80 when the receipt is valid; and
    [verifyReceipt] always returns a result, whose [confidence] and
    [valid] are within these bounds. *)
Theorem confidence_bounds :
  (forall checks : Checks.t,
      (0 <= confidence_score checks <= 100)%Z
      /\ (overall_valid checks = true -> (80 <= confidence_score checks)%Z))
  /\ (forall (client : PublicClient) (viem : Viem) (input : VerifyReceiptInput.t),
        exists res,
          verifyReceipt input = Ok res
          /\ (0 <= VerificationResult.confidence res <= 100)%Z
          /\ (VerificationResult.valid res = true ->
              (80 <= VerificationResult.confidence res)%Z)).
Proof.
  assert (Hall : forall checks : Checks.t,
             (0 <= confidence_score checks <= 100)%Z
             /\ (overall_valid checks = true -> (80 <= confidence_score checks)%Z)).
  { intros [[] [] [] [[]|] [[]|]]; vm_compute; intuition congruence. }
  split; [exact Hall|].
  intros client viem input.
  destruct (verifyReceipt_shape input) as (txv & sv & am & errors & _ & _ & _ & ->).
  eexists. split; [reflexivity|]. simpl. apply Hall.
Qed.

Lemma confidence_bounds_witness :
  let checks := Checks.mk true true true (Some false) (Some false) in
  overall_valid checks = true /\ (80 <= confidence_score checks)%Z.
Proof.
  intros checks. split; [reflexivity|].
  exact (proj2 (proj1 confidence_bounds checks) eq_refl).
Defined.

(** The mandatory checks do not read the anchoring fields. *)
Section MandatoryChecks.
Context `{PublicClient} `{Viem}.

Lemma verify_each_anchoring receipt cid hash txHash todo : forall results,
  verify_each (AgentReceipt.with_anchoring receipt cid hash txHash) todo results
  = verify_each receipt todo results.
Proof.
  induction todo as [|a todo IH]; intros results; simpl; [done|].
  change (verifyAttestation (AgentReceipt.with_anchoring receipt cid hash txHash) a)
    with (verifyAttestation receipt a).
  destruct (verifyAttestation receipt a) as [b|e]; simpl; [apply IH|done].
Qed.

Lemma verifyAllAttestations_anchoring receipt cid hash txHash :
  verifyAllAttestations (AgentReceipt.with_anchoring receipt cid hash txHash)
  = verifyAllAttestations receipt.
Proof.
  unfold verifyAllAttestations. simpl. by rewrite verify_each_anchoring.
Qed.

End MandatoryChecks.

(** C3. The [valid] field returned by [verifyReceipt] is the conjunction
    of the three mandatory outcomes [transactionExists],
    [transactionMatches] and [signaturesValid]; the outcomes
    [anchorMatches] and [ipfsAvailable] have no part in it: whatever the
    anchoring fields of the receipt are, and whether the anchor is
    checked or not, [valid] is the same. *)
Theorem valid_is_mandatory_conjunction :
  (forall te tm sv (anchor ipfs anchor' ipfs' : option bool),
      overall_valid (Checks.mk te tm sv anchor ipfs) = te && tm && sv
      /\ overall_valid (Checks.mk te tm sv anchor ipfs)
         = overall_valid (Checks.mk te tm sv anchor' ipfs'))
  /\ (forall (client : PublicClient) (viem : Viem) (input : VerifyReceiptInput.t),
        exists res,
          verifyReceipt input = Ok res
          /\ VerificationResult.valid res
             = Checks.transactionExists (VerificationResult.checks res)
               && Checks.transactionMatches (VerificationResult.checks res)
               && Checks.signaturesValid (VerificationResult.checks res))
  /\ (forall (client : PublicClient) (viem : Viem) (receipt : AgentReceipt.t)
             (checkOnChain checkOnChain' : option bool)
             (cid hash txHash : option string),
        exists res res',
          verifyReceipt (VerifyReceiptInput.mk receipt checkOnChain) = Ok res
          /\ verifyReceipt
               (VerifyReceiptInput.mk
                  (AgentReceipt.with_anchoring receipt cid hash txHash)
                  checkOnChain') = Ok res'
          /\ VerificationResult.valid res' = VerificationResult.valid res).
Proof.
  split; [done|]. split.
  - intros client viem input.
    destruct (verifyReceipt_shape input) as (txv & sv & am & errors & _ & _ & _ & ->).
    eexists. split; reflexivity.
  - intros client viem receipt coc coc' cid hash txHash.
    destruct (verifyReceipt_shape (VerifyReceiptInput.mk receipt coc))
      as (txv & sv & am & errors & Htx & Hsv & _ & ->).
    destruct (verifyReceipt_shape
                (VerifyReceiptInput.mk
                   (AgentReceipt.with_anchoring receipt cid hash txHash) coc'))
      as (txv' & sv' & am' & errors' & Htx' & Hsv' & _ & ->).
    simpl in *.
    change (verifyTransaction (AgentReceipt.with_anchoring receipt cid hash txHash))
      with (verifyTransaction receipt) in Htx'.
    rewrite verifyAllAttestations_anchoring in Hsv'.
    assert (txv' = txv) as -> by congruence.
    assert (sv' = sv) as -> by congruence.
    eexists _, _. split; [reflexivity|]. split; [reflexivity|]. done.
Qed.

(** ** Attestations *)

(** C6. [verifyAttestation] always returns a boolean: the value of the
    recovery primitive when it returns one, [false] when it throws. *)
Theorem verifyAttestation_never_throws `{Viem}
  (receipt : AgentReceipt.t) (attestation : Attestation.t) :
  exists b : bool,
    verifyAttestation receipt attestation = Ok b
    /\ (forall e,
          verifyTypedData (Attestation.agent attestation)
                          (getReceiptSigningMessage receipt)
                          (Attestation.signature attestation) = Throw e ->
          b = false)
    /\ (forall v,
          verifyTypedData (Attestation.agent attestation)
                          (getReceiptSigningMessage receipt)
                          (Attestation.signature attestation) = Ok v ->
          b = v).
Proof.
  unfold verifyAttestation.
  destruct (verifyTypedData _ _ _) as [v|e]; simpl.
  - exists v. split; [done|]. split; [done|]. by intros ? [= ->].
  - exists false. split; [done|]. split; done.
Qed.

Lemma verifyAttestation_never_throws_witness :
  @verifyTypedData Demo.viem
     (Attestation.agent Demo.malformedAttestation)
     (getReceiptSigningMessage Demo.mockReceipt)
     (Attestation.signature Demo.malformedAttestation)
  = Throw "InvalidSignatureError"
  /\ @verifyAttestation Demo.viem Demo.mockReceipt Demo.malformedAttestation
     = Ok false.
Proof.
  split; [reflexivity|].
  destruct (@verifyAttestation_never_throws Demo.viem
              Demo.mockReceipt Demo.malformedAttestation) as (b & Hb & Hthrow & _).
  rewrite Hb. f_equal. exact (Hthrow _ eq_refl).
Defined.

(** C8. On a receipt without attestations [verifyAllAttestations]
    returns [valid = true] and an empty map; it is [verifyReceipt] that
    fails such a receipt: [signaturesValid] and [valid] are false and
    the errors hold "No attestations present". *)
Theorem verifyAllAttestations_empty `{PublicClient} `{Viem}
  (receipt : AgentReceipt.t) (checkOnChain : option bool) :
  AgentReceipt.attestations receipt = [] ->
  verifyAllAttestations receipt = Ok (AllAttestations.mk true [])
  /\ exists res,
       verifyReceipt (VerifyReceiptInput.mk receipt checkOnChain) = Ok res
       /\ Checks.signaturesValid (VerificationResult.checks res) = false
       /\ VerificationResult.valid res = false
       /\ In "No attestations present" (VerificationResult.errors res).
Proof.
  intros Hempty. split.
  - unfold verifyAllAttestations. by rewrite Hempty.
  - destruct (verifyReceipt_shape (VerifyReceiptInput.mk receipt checkOnChain))
      as (txv & sv & am & errors & _ & _ & Herr & ->).
    simpl in *. rewrite Hempty.
    eexists. split; [reflexivity|]. simpl.
    split; [done|]. split; [|by apply Herr].
    unfold overall_valid; simpl. by rewrite andb_false_r.
Qed.

Lemma verifyAllAttestations_empty_witness :
  AgentReceipt.attestations Demo.mockReceipt = []
  /\ @verifyAllAttestations Demo.viem Demo.mockReceipt
     = Ok (AllAttestations.mk true [])
  /\ exists res,
       @verifyReceipt Demo.chain_client Demo.viem
          (VerifyReceiptInput.mk Demo.mockReceipt None) = Ok res
       /\ Checks.signaturesValid (VerificationResult.checks res) = false
       /\ VerificationResult.valid res = false
       /\ In "No attestations present" (VerificationResult.errors res).
Proof.
  split; [reflexivity|].
  exact (@verifyAllAttestations_empty Demo.chain_client Demo.viem
           Demo.mockReceipt None eq_refl).
Defined.

(** ** Appending an attestation *)

Section AddAttestation.

Lemma load_inv h l r :
  Heap.load h l = Some r ->
  exists o atts,
    Heap.objects h !! l = Some o
    /\ Heap.arrays h !! AgentReceipt.attestations o = Some atts
    /\ r = AgentReceipt.spread_with_attestations o atts.
Proof.
  unfold Heap.load. intros Hload.
  destruct (Heap.objects h !! l) as [o|] eqn:Ho; [|done]. simpl in Hload.
  destruct (Heap.arrays h !! AgentReceipt.attestations o) as [atts|] eqn:Ha;
    [|done].
  simpl in Hload. injection Hload as <-. eauto.
Qed.

Lemma find_signer_some atts a :
  Exists (fun x => same_signer x a) atts ->
  exists x,
    find (fun x => String.eqb (Js.toLowerCase (Attestation.agent x))
                              (Js.toLowerCase (Attestation.agent a))) atts
    = Some x.
Proof.
  induction 1 as [x atts Hx|x atts _ IH]; simpl.
  - unfold same_signer in Hx. rewrite Hx, String.eqb_refl. eauto.
  - destruct (String.eqb _ _); eauto.
Qed.

Lemma find_signer_none atts a :
  ~ Exists (fun x => same_signer x a) atts ->
  find (fun x => String.eqb (Js.toLowerCase (Attestation.agent x))
                            (Js.toLowerCase (Attestation.agent a))) atts
  = None.
Proof.
  induction atts as [|x atts IH]; intros Hno; simpl; [done|].
  destruct (String.eqb_spec (Js.toLowerCase (Attestation.agent x))
                            (Js.toLowerCase (Attestation.agent a))) as [Heq|_].
  - exfalso. apply Hno. by left.
  - apply IH. intros Hex. apply Hno. by right.
Qed.

End AddAttestation.

(** C5. If an attestation of [r] has the signer address of [a], compared
    without regard to case, [addAttestation(r, a)] throws the
    duplicate-attestation error and the store, so also the attestation
    list of [r], is as before.  Otherwise it returns a reference to a new
    object whose fields are those of [r] and whose attestation list is
    that of [r] with [a] appended at the end; the reference was not in
    use before, and whatever a reference denoted before the call,
    [r] included, it denotes after it. *)
Theorem addAttestation_spec
  (h : Heap.t) (l : loc) (r : AgentReceipt.t) (a : Attestation.t) :
  Heap.load h l = Some r ->
  (Exists (fun x => same_signer x a) (AgentReceipt.attestations r) ->
     addAttestation h l a = Some (h, Throw (already_attested (Attestation.agent a))))
  /\ (~ Exists (fun x => same_signer x a) (AgentReceipt.attestations r) ->
      exists h' l',
        addAttestation h l a = Some (h', Ok l')
        /\ Heap.load h' l'
           = Some (AgentReceipt.spread_with_attestations r
                     (AgentReceipt.attestations r ++ [a])%list)
        /\ Heap.load h l' = None
        /\ Heap.load h' l = Some r
        /\ forall k v, Heap.load h k = Some v -> Heap.load h' k = Some v).
Proof.
  intros Hload.
  destruct (load_inv h l r Hload) as (o & atts & Ho & Ha & ->).
  simpl. unfold addAttestation. rewrite Ho. simpl. rewrite Ha. simpl.
  split.
  - intros Hdup. by destruct (find_signer_some atts a Hdup) as [x ->].
  - intros Hnew. rewrite (find_signer_none atts a Hnew).
    set (la := fresh (dom (Heap.arrays h))).
    set (lo := fresh (dom (Heap.objects h))).
    assert (Hla : Heap.arrays h !! la = None)
      by (apply not_elem_of_dom, is_fresh).
    assert (Hlo : Heap.objects h !! lo = None)
      by (apply not_elem_of_dom, is_fresh).
    assert (Hkeep : forall k v,
      Heap.load h k = Some v ->
      Heap.load
        (Heap.mk
           (<[lo := AgentReceipt.spread_with_attestations o la]> (Heap.objects h))
           (<[la := (atts ++ [a])%list]> (Heap.arrays h))) k = Some v).
    { intros k v Hk.
      destruct (load_inv h k v Hk) as (o' & atts' & Ho' & Ha' & ->).
      unfold Heap.load; simpl.
      rewrite lookup_insert_ne by congruence. rewrite Ho'. simpl.
      rewrite lookup_insert_ne by congruence. by rewrite Ha'. }
    eexists _, lo. split; [reflexivity|]. split; [|split; [|split]].
    + unfold Heap.load; simpl.
      rewrite lookup_insert_eq. simpl. by rewrite lookup_insert_eq.
    + unfold Heap.load. by rewrite Hlo.
    + by apply Hkeep.
    + exact Hkeep.
Qed.

(** The buyer's address in lower case is refused once the buyer has
    attested. *)
Lemma addAttestation_spec_witness :
  Heap.load Demo.store_signed 1%positive
  = Some (AgentReceipt.spread_with_attestations Demo.mockReceipt
            [Demo.buyerAttestation])
  /\ Exists (fun x => same_signer x Demo.repeatedAttestation) [Demo.buyerAttestation]
  /\ addAttestation Demo.store_signed 1%positive Demo.repeatedAttestation
     = Some (Demo.store_signed,
             Throw (already_attested (Attestation.agent Demo.repeatedAttestation))).
Proof.
  assert (Hload : Heap.load Demo.store_signed 1%positive
                  = Some (AgentReceipt.spread_with_attestations Demo.mockReceipt
                            [Demo.buyerAttestation])) by reflexivity.
  assert (Hdup : Exists (fun x => same_signer x Demo.repeatedAttestation)
                        [Demo.buyerAttestation])
    by (apply Exists_cons_hd; reflexivity).
  split; [exact Hload|]. split; [exact Hdup|].
  exact (proj1 (addAttestation_spec Demo.store_signed 1%positive _
                  Demo.repeatedAttestation Hload) Hdup).
Defined.

(** ** The content-store check *)

(** C9. The content-store check of [verifyReceipt] cannot fail:
    [ipfsAvailable] is never [false]; for a receipt that carries an
    [ipfsCid] (a non-empty one: the test is the truthiness of the
    property) it is [true], and the confidence holds the 10 points of
    the check on top of those of the other four.  No content store is
    consulted: [verifyReceipt] has none among its collaborators. *)
Theorem ipfs_check_cannot_fail `{PublicClient} `{Viem} (input : VerifyReceiptInput.t) :
  exists res,
    verifyReceipt input = Ok res
    /\ Checks.ipfsAvailable (VerificationResult.checks res) <> Some false
    /\ (Js.truthy_opt (AgentReceipt.ipfsCid (VerifyReceiptInput.receipt input)) = true ->
        let checks := VerificationResult.checks res in
        Checks.ipfsAvailable checks = Some true
        /\ VerificationResult.confidence res
           = ((if Checks.transactionExists checks then 25 else 0)
              + (if Checks.transactionMatches checks then 25 else 0)
              + (if Checks.signaturesValid checks then 30 else 0)
              + match Checks.anchorMatches checks with
                | Some true => 10
                | Some false => 0
                | None => 5
                end
              + 10)%Z).
Proof.
  destruct (verifyReceipt_shape input) as (txv & sv & am & errors & _ & _ & _ & ->).
  eexists. split; [reflexivity|]. simpl. split.
  - by destruct (Js.truthy_opt _).
  - intros ->. split; [done|].
    unfold confidence_score; simpl.
    destruct (TxVerification.exists_ txv), (TxVerification.matches txv),
      (match AgentReceipt.attestations (VerifyReceiptInput.receipt input) with
       | [] => false
       | _ :: _ => AllAttestations.valid sv
       end), am as [[]|]; reflexivity.
Qed.

Lemma ipfs_check_cannot_fail_witness :
  let receipt :=
    AgentReceipt.mk
      (AgentReceipt.receiptId Demo.mockReceipt) (AgentReceipt.version Demo.mockReceipt)
      (AgentReceipt.createdAt Demo.mockReceipt)
      (AgentReceipt.transaction Demo.mockReceipt)
      (AgentReceipt.commerce Demo.mockReceipt)
      [Demo.buyerAttestation; Demo.sellerAttestation]
      (Some "bafyreigdemo") None None in
  Js.truthy_opt (AgentReceipt.ipfsCid receipt) = true
  /\ exists res,
       @verifyReceipt Demo.chain_client Demo.viem
          (VerifyReceiptInput.mk receipt None) = Ok res
       /\ Checks.ipfsAvailable (VerificationResult.checks res) = Some true.
Proof.
  intros receipt. split; [reflexivity|].
  destruct (@ipfs_check_cannot_fail Demo.chain_client Demo.viem
              (VerifyReceiptInput.mk receipt None)) as (res & Hres & _ & Hcid).
  exists res. split; [exact Hres|]. exact (proj1 (Hcid eq_refl)).
Defined.

(** ** Receipt creation *)

Section CreateReceipt.
Context `{PublicClient} `{Viem} `{Runtime}.

(** The parties of a fetched proof are those of the chain transaction. *)
Lemma fetchTransactionProof_parties txHash proof :
  fetchTransactionProof txHash = Ok proof ->
  exists tx,
    getTransaction txHash = Ok (Some tx)
    /\ TransactionProof.from proof = Transaction.from tx
    /\ TransactionProof.to proof = default EmptyString (Transaction.to tx).
Proof.
  unfold fetchTransactionProof.
  destruct (getTransaction txHash) as [[tx|]|]; simpl; [|done..].
  destruct (getTransactionReceipt txHash) as [[rc|]|]; simpl; [|done..].
  destruct (getBlock _) as [block|]; simpl; [|done].
  destruct (parse_amount _ _) as [amount|]; simpl; [|done].
  destruct (toISOString _) as [ts|]; simpl; [|done].
  intros [= <-]. exists tx. simpl. split; [done|]. split; [done|].
  by destruct (Transaction.to tx) as [[|c a]|].
Qed.

End CreateReceipt.

(** C10. When the chain holds the transaction, [createReceipt] returns a
    receipt whose [from] is the [buyerAgent] of the input when one is
    supplied and whose [to] is the [sellerAgent] when one is supplied,
    in place of the parties of the chain transaction; a party that is
    not supplied (absent or empty) is the one of the chain transaction. *)
Theorem createReceipt_parties `{PublicClient} `{Viem} `{Runtime}
  (uuid now : string) (input : CreateReceiptInput.t) (proof : TransactionProof.t) :
  fetchTransactionProof (CreateReceiptInput.txHash input) = Ok proof ->
  exists tx receipt,
    getTransaction (CreateReceiptInput.txHash input) = Ok (Some tx)
    /\ createReceipt uuid now input = Ok receipt
    /\ (forall a, CreateReceiptInput.buyerAgent input = Some a -> a <> EmptyString ->
          TransactionProof.from (AgentReceipt.transaction receipt) = a)
    /\ (forall a, CreateReceiptInput.sellerAgent input = Some a -> a <> EmptyString ->
          TransactionProof.to (AgentReceipt.transaction receipt) = a)
    /\ (Js.truthy_opt (CreateReceiptInput.buyerAgent input) = false ->
          TransactionProof.from (AgentReceipt.transaction receipt)
          = Transaction.from tx)
    /\ (Js.truthy_opt (CreateReceiptInput.sellerAgent input) = false ->
          TransactionProof.to (AgentReceipt.transaction receipt)
          = default EmptyString (Transaction.to tx)).
Proof.
  intros Hfetch.
  destruct (fetchTransactionProof_parties _ _ Hfetch) as (tx & Htx & Hfrom & Hto).
  exists tx. unfold createReceipt. rewrite Hfetch. simpl.
  eexists. split; [exact Htx|]. split; [reflexivity|]. simpl.
  destruct (CreateReceiptInput.buyerAgent input) as [[|cb b]|],
           (CreateReceiptInput.sellerAgent input) as [[|cs s]|]; simpl;
    repeat split; (congruence || done).
Qed.

Lemma createReceipt_parties_witness :
  let input :=
    CreateReceiptInput.mk Demo.DEMO_TX_HASH None Demo.commerce
                          (Some Demo.buyerAddress) None in
  (exists proof,
      @fetchTransactionProof Demo.chain_client Demo.viem Demo.runtime
         (CreateReceiptInput.txHash input) = Ok proof)
  /\ exists receipt,
       @createReceipt Demo.chain_client Demo.viem Demo.runtime
          "550e8400-e29b-41d4-a716-446655440000" "2026-02-08T12:00:00.000Z" input
       = Ok receipt
       /\ TransactionProof.from (AgentReceipt.transaction receipt) = Demo.buyerAddress
       /\ TransactionProof.to (AgentReceipt.transaction receipt) = Demo.payeeOnChain.
Proof.
  intros input.
  split; [eexists; reflexivity|].
  destruct (@createReceipt_parties Demo.chain_client Demo.viem Demo.runtime
              "550e8400-e29b-41d4-a716-446655440000" "2026-02-08T12:00:00.000Z"
              input _ eq_refl)
    as (tx & receipt & Htx & Hcreate & Hbuyer & _ & _ & Hseller).
  exists receipt. split; [exact Hcreate|]. split.
  - apply Hbuyer; [reflexivity|discriminate].
  - rewrite (Hseller eq_refl).
    injection Htx as <-. reflexivity.
Defined.


(** ** Scenarios on the demonstration world *)

(** The text that is hashed for the receipt of the demo script. *)
Example normalized_text_of_mockReceipt :
  String.length
    (Json.stringify
       (Json.JObj
          [("receiptId", Json.JStr (AgentReceipt.receiptId Demo.mockReceipt));
           ("version", Json.JStr (AgentReceipt.version Demo.mockReceipt));
           ("transaction",
             TransactionProof_json (AgentReceipt.transaction Demo.mockReceipt));
           ("commerce",
             CommerceContext_json (AgentReceipt.commerce Demo.mockReceipt))]))
  = 783%nat
  /\ Json.stringify (CommerceTerms_json (CommerceTerms.mk (Some "30d") None
                                          (Some ["a"; "b"]) None None))
     = String "{" (Json.quote "period" ++ ":" ++ Json.quote "30d" ++ ","
                   ++ Json.quote "deliverables" ++ ":["
                   ++ Json.quote "a" ++ "," ++ Json.quote "b" ++ "]}").
Proof. split; reflexivity. Qed.

(** Scenario A: no attestations. *)
Example scenario_A :
  hasRequiredAttestations Demo.mockReceipt = false
  /\ @verifyReceipt Demo.chain_client Demo.viem
       (VerifyReceiptInput.mk Demo.mockReceipt None)
     = Ok (VerificationResult.mk false
             (Checks.mk true true false None None)
             ["No attestations present"] 60).
Proof. split; reflexivity. Qed.

(** Scenario B: buyer and seller have attested. *)
Example scenario_B :
  let receipt :=
    AgentReceipt.spread_with_attestations Demo.mockReceipt
      [Demo.buyerAttestation; Demo.sellerAttestation] in
  hasRequiredAttestations receipt = true
  /\ @verifyAllAttestations Demo.viem receipt
     = Ok (AllAttestations.mk true
             [(Demo.buyerAddress, true); (Demo.sellerAddress, true)])
  /\ @verifyReceipt Demo.chain_client Demo.viem
       (VerifyReceiptInput.mk receipt None)
     = Ok (VerificationResult.mk true
             (Checks.mk true true true None None) [] 90).
Proof. repeat split; reflexivity. Qed.

(** Appending to the store of the demo: the receipt at reference 1 is
    as before, the new receipt holds the buyer's attestation. *)
Example addAttestation_on_store :
  exists h' l',
    addAttestation Demo.store 1%positive Demo.buyerAttestation = Some (h', Ok l')
    /\ l' <> 1%positive
    /\ Heap.load h' 1%positive = Some Demo.mockReceipt
    /\ Heap.load h' l'
       = Some (AgentReceipt.spread_with_attestations Demo.mockReceipt
                 [Demo.buyerAttestation]).
Proof.
  eexists _, _. split; [reflexivity|]. split; [by vm_compute|].
  split; by vm_compute.
Qed.

(** A malformed signature among valid ones: the check is false, never
    an exception. *)
Example malformed_signature_is_invalid :
  let receipt :=
    AgentReceipt.spread_with_attestations Demo.mockReceipt
      [Demo.buyerAttestation; Demo.malformedAttestation] in
  @verifyReceipt Demo.chain_client Demo.viem (VerifyReceiptInput.mk receipt None)
  = Ok (VerificationResult.mk false
          (Checks.mk true true false None None)
          ["Invalid signature from " ++ Demo.sellerAddress] 60).
Proof. reflexivity. Qed.


(** * Further properties *)

(** ** The anchor ledger beyond one receipt *)

Section LedgerFurther.
Import ReceiptAnchor.

(** X1. A successful [anchorReceipt(id, ...)] touches nothing but [id]:
    the record, the existence and the hash check of every other id are
    as before, [receiptIds] is the old list with [id] appended, and the
    event carries the fields of the record that is stored. *)
Theorem anchorReceipt_frame env s id h cid tx s' ev :
  anchorReceipt env s id h cid tx = Ok (s', ev) ->
  receiptIds s' = (receiptIds s ++ [id])%list
  /\ getReceiptCount s' = (getReceiptCount s + 1)%N
  /\ getReceipt s' id
     = mkReceipt (ev_receiptHash ev) (ev_ipfsCid ev) (ev_originalTxHash ev)
                 (ev_anchoredBy ev) (ev_timestamp ev)
  /\ ev_receiptId ev = id
  /\ forall id', id' <> id ->
       getReceipt s' id' = getReceipt s id'
       /\ receiptExists s' id' = receiptExists s id'
       /\ forall h', verifyReceipt s' id' h' = verifyReceipt s id' h'.
Proof.
  intros Hcall.
  assert (Hev : ev = mkReceiptAnchored id h cid tx (msg_sender env)
                                       (block_timestamp env)).
  { revert Hcall. unfold anchorReceipt.
    destruct (anchoredAt (receipts_at s id) =? 0)%N; [|done]. simpl.
    destruct (h =? 0)%N; [done|]. simpl.
    destruct (0 <? String.length cid)%nat; [|done]. simpl.
    by intros [= _ <-]. }
  subst ev. simpl.
  apply anchorReceipt_inv in Hcall as [_ ->]. simpl.
  split; [done|]. split.
  { unfold getReceiptCount; simpl. rewrite length_app. simpl. lia. }
  split.
  { unfold getReceipt, receipts_at; simpl. by rewrite lookup_insert_eq. }
  split; [done|].
  intros id' Hne.
  assert (Hsame : receipts_at
                    (mkState
                       (<[id := mkReceipt h cid tx (msg_sender env)
                                          (block_timestamp env)]> (receipts s))
                       (receiptIds s ++ [id])%list) id'
                  = receipts_at s id').
  { unfold receipts_at; simpl. by rewrite lookup_insert_ne. }
  unfold getReceipt, receiptExists, verifyReceipt. rewrite Hsame. done.
Qed.

(** X2. Anchor and check, a round trip: before [id] is anchored the
    ledger confirms no hash for it; once it is anchored with [h], in a
    block with a timestamp, and whatever transactions follow, the
    ledger confirms [h] and no other hash, and reports that [id]
    exists. *)
Theorem anchor_then_verify
  (s : State) (env : Env) (id h : bytes32) (cid : string) (tx : bytes32)
  (later : list Call) (h' : bytes32) :
  anchoredAt (receipts_at s id) = 0%N ->
  h <> 0%N ->
  cid <> EmptyString ->
  block_timestamp env <> 0%N ->
  verifyReceipt s id h' = false
  /\ receiptExists s id = false
  /\ exists s1 ev,
       anchorReceipt env s id h cid tx = Ok (s1, ev)
       /\ receiptExists (run s1 later) id = true
       /\ (verifyReceipt (run s1 later) id h' = true <-> h' = h).
Proof.
  intros Hfree Hh Hcid Htime.
  split; [unfold verifyReceipt; by rewrite Hfree|].
  split; [unfold receiptExists; by rewrite Hfree|].
  eexists _, _. split; [by apply anchorReceipt_fresh|].
  set (s1 := mkState _ _).
  assert (Hrec : receipts_at s1 id
                 = mkReceipt h cid tx (msg_sender env) (block_timestamp env)).
  { unfold receipts_at, s1; simpl. by rewrite lookup_insert_eq. }
  assert (Hkept : receipts_at (run s1 later) id
                  = mkReceipt h cid tx (msg_sender env) (block_timestamp env)).
  { rewrite run_keeps_anchored; [done|]. by rewrite Hrec. }
  unfold receiptExists, verifyReceipt. rewrite Hkept. simpl.
  destruct (N.eqb_spec (block_timestamp env) 0) as [|_]; [done|].
  split.
  - apply N.ltb_lt. lia.
  - rewrite N.eqb_eq. split; congruence.
Qed.

(** X3. [receiptIds] is append-only: whatever transactions are sent,
    reverted or not, the list before them is a prefix of the list after
    them, and the count never goes down. *)
Theorem receiptIds_append_only (s : State) (calls : list Call) :
  receiptIds s `prefix_of` receiptIds (run s calls)
  /\ (getReceiptCount s <= getReceiptCount (run s calls))%N.
Proof.
  assert (Hprefix : receiptIds s `prefix_of` receiptIds (run s calls)).
  { revert s. induction calls as [|c calls IH]; intros s; [done|].
    unfold run in *; simpl.
    transitivity (receiptIds (exec s c)); [|apply IH].
    unfold exec, call_anchorReceipt.
    destruct (anchorReceipt _ _ _ _ _ _) as [[s' ev]|e] eqn:E; [|done].
    apply anchorReceipt_inv in E as [_ ->]. simpl. by apply prefix_app_r. }
  split; [done|].
  unfold getReceiptCount. apply prefix_length in Hprefix. lia.
Qed.

(** X4. On a ledger reached from the empty one by transactions in
    blocks with a timestamp, the enumeration and the records agree: an
    id exists exactly when it is listed, it is listed once, and the
    count is the number of ids that exist. *)
Theorem enumeration_matches_records (calls : list Call) :
  Forall timely calls ->
  let s := run initial calls in
  NoDup (receiptIds s)
  /\ (forall id, receiptExists s id = true <-> id ∈ receiptIds s)
  /\ forall ids : list bytes32,
       NoDup ids ->
       (forall id, id ∈ ids <-> receiptExists s id = true) ->
       getReceiptCount s = N.of_nat (List.length ids).
Proof.
  intros Htimely s.
  destruct (run_consistent calls initial Htimely initial_consistent)
    as [Hnodup Hlisted].
  fold s in Hnodup, Hlisted.
  assert (Hexists : forall id, receiptExists s id = true <-> id ∈ receiptIds s).
  { intros id. rewrite Hlisted. unfold receiptExists.
    rewrite N.ltb_lt. lia. }
  split; [done|]. split; [done|].
  intros ids Hids Hall. unfold getReceiptCount. f_equal.
  apply Permutation_length, NoDup_Permutation; [done..|].
  intros id. by rewrite Hall, Hexists.
Qed.

(** X5. The existence marker is the block timestamp and nothing else:
    after a successful anchor the ledger reports the id as existing
    exactly when the timestamp of the block is not zero.  In a block
    with timestamp zero the record is stored but does not count as
    existing: its hash is not confirmed, and the same id can be anchored
    again, which replaces the record and lists the id a second time. *)
Theorem existence_marker_is_timestamp env s id h cid tx s' ev :
  anchorReceipt env s id h cid tx = Ok (s', ev) ->
  receiptExists s' id = negb (block_timestamp env =? 0)%N
  /\ verifyReceipt s' id h = negb (block_timestamp env =? 0)%N
  /\ (block_timestamp env = 0%N ->
      forall env2 h2 cid2 tx2,
        h2 <> 0%N -> cid2 <> EmptyString ->
        exists s2 ev2,
          anchorReceipt env2 s' id h2 cid2 tx2 = Ok (s2, ev2)
          /\ getReceipt s2 id
             = mkReceipt h2 cid2 tx2 (msg_sender env2) (block_timestamp env2)
          /\ receiptIds s2 = (receiptIds s ++ [id; id])%list).
Proof.
  intros Hcall. apply anchorReceipt_inv in Hcall as [_ ->].
  set (s1 := mkState _ _).
  assert (Hrec : receipts_at s1 id
                 = mkReceipt h cid tx (msg_sender env) (block_timestamp env)).
  { unfold receipts_at, s1; simpl. by rewrite lookup_insert_eq. }
  unfold receiptExists, verifyReceipt. rewrite Hrec. simpl.
  split; [|split].
  - destruct (N.eqb_spec (block_timestamp env) 0) as [->|Hne]; [done|].
    apply N.ltb_lt. lia.
  - destruct (block_timestamp env =? 0)%N; [done|]. apply N.eqb_refl.
  - intros Hzero env2 h2 cid2 tx2 Hh2 Hcid2.
    eexists _, _. split.
    + apply anchorReceipt_fresh; [|done..]. by rewrite Hrec.
    + split.
      * unfold getReceipt, receipts_at; simpl. by rewrite lookup_insert_eq.
      * unfold s1; simpl. by rewrite <- app_assoc.
Qed.

End LedgerFurther.

Lemma anchorReceipt_frame_witness :
  let env := ReceiptAnchor.mkEnv LedgerScenario.alice 1700000010 in
  let s := LedgerScenario.after_five in
  exists s' ev,
    ReceiptAnchor.anchorReceipt env s 9 0xAA "loc9" 0x71 = Ok (s', ev)
    /\ ReceiptAnchor.receiptIds s' = [1; 2; 3; 4; 5; 9]%N
    /\ ReceiptAnchor.getReceipt s' 2%N = ReceiptAnchor.getReceipt s 2%N.
Proof.
  intros env s.
  destruct (ReceiptAnchor.anchorReceipt env s 9 0xAA "loc9" 0x71)
    as [[s' ev]|e] eqn:E; [|by vm_compute in E].
  exists s', ev. split; [reflexivity|].
  destruct (anchorReceipt_frame env s 9%N 0xAA%N "loc9" 0x71%N s' ev E)
    as (Hids & _ & _ & _ & Hother).
  split; [rewrite Hids; reflexivity|].
  apply (Hother 2%N). discriminate.
Defined.

Lemma anchor_then_verify_witness :
  let s := ReceiptAnchor.initial in
  let env := ReceiptAnchor.mkEnv LedgerScenario.alice 1700000001 in
  let later := [LedgerScenario.anchor_by LedgerScenario.bob 1700000002 2] in
  ReceiptAnchor.anchoredAt (ReceiptAnchor.receipts_at s 1%N) = 0%N
  /\ 0xAA%N <> 0%N
  /\ "loc1" <> EmptyString
  /\ ReceiptAnchor.block_timestamp env <> 0%N
  /\ exists s1 ev,
       ReceiptAnchor.anchorReceipt env s 1 0xAA "loc1" 0x71 = Ok (s1, ev)
       /\ ReceiptAnchor.receiptExists (ReceiptAnchor.run s1 later) 1%N = true
       /\ (ReceiptAnchor.verifyReceipt (ReceiptAnchor.run s1 later) 1 0xBB = true
           <-> 0xBB%N = 0xAA%N).
Proof.
  intros s env later.
  assert (H1 : ReceiptAnchor.anchoredAt (ReceiptAnchor.receipts_at s 1%N) = 0%N)
    by reflexivity.
  assert (H2 : 0xAA%N <> 0%N) by discriminate.
  assert (H3 : "loc1" <> EmptyString) by discriminate.
  assert (H4 : ReceiptAnchor.block_timestamp env <> 0%N) by discriminate.
  repeat (split; [assumption|]).
  exact (proj2 (proj2 (anchor_then_verify s env 1 0xAA "loc1" 0x71 later 0xBB
                         H1 H2 H3 H4))).
Defined.

Lemma enumeration_matches_records_witness :
  Forall ReceiptAnchor.timely LedgerScenario.five_anchors
  /\ NoDup (ReceiptAnchor.receiptIds LedgerScenario.after_five)
  /\ (ReceiptAnchor.receiptExists LedgerScenario.after_five 7%N = true
      <-> 7%N ∈ ReceiptAnchor.receiptIds LedgerScenario.after_five).
Proof.
  assert (H : Forall ReceiptAnchor.timely LedgerScenario.five_anchors)
    by (repeat constructor; discriminate).
  split; [exact H|].
  destruct (enumeration_matches_records LedgerScenario.five_anchors H)
    as (Hnodup & Hexists & _).
  split; [exact Hnodup|exact (Hexists 7%N)].
Defined.

(** An anchor in a block with timestamp zero, and the same id again. *)
Lemma existence_marker_is_timestamp_witness :
  let env := ReceiptAnchor.mkEnv LedgerScenario.alice 0 in
  let env2 := ReceiptAnchor.mkEnv LedgerScenario.bob 1700000002 in
  exists s' ev,
    ReceiptAnchor.anchorReceipt env ReceiptAnchor.initial 1 0xAA "loc1" 0x71
    = Ok (s', ev)
    /\ ReceiptAnchor.block_timestamp env = 0%N
    /\ ReceiptAnchor.receiptExists s' 1%N = false
    /\ exists s2 ev2,
         ReceiptAnchor.anchorReceipt env2 s' 1 0xBB "loc2" 0x72 = Ok (s2, ev2)
         /\ ReceiptAnchor.getReceipt s2 1%N
            = ReceiptAnchor.mkReceipt 0xBB "loc2" 0x72 LedgerScenario.bob 1700000002
         /\ ReceiptAnchor.receiptIds s2 = [1; 1]%N.
Proof.
  intros env env2.
  destruct (ReceiptAnchor.anchorReceipt env ReceiptAnchor.initial 1 0xAA "loc1" 0x71)
    as [[s' ev]|e] eqn:E; [|by vm_compute in E].
  exists s', ev. split; [reflexivity|]. split; [reflexivity|].
  destruct (existence_marker_is_timestamp env ReceiptAnchor.initial
              1%N 0xAA%N "loc1" 0x71%N s' ev E) as (Hexists & _ & Hagain).
  split; [exact Hexists|].
  apply (Hagain eq_refl env2 0xBB%N "loc2" 0x72%N); discriminate.
Defined.

(** ** The verifier in full *)

Section VerifierFurther.
Context `{PublicClient} `{Viem}.

(** The cases of [verifyTransaction]. *)
Lemma verifyTransaction_cases receipt :
  let proof := AgentReceipt.transaction receipt in
  let h := TransactionProof.txHash proof in
  (exists e, getTransaction h = Throw e
     /\ verifyTransaction receipt
        = Ok (TxVerification.mk false false ["Error fetching transaction: " ++ e]))
  \/ (getTransaction h = Ok None
      /\ verifyTransaction receipt
         = Ok (TxVerification.mk false false ["Transaction not found on chain"]))
  \/ (exists tx e, getTransaction h = Ok (Some tx)
      /\ getTransactionReceipt h = Throw e
      /\ verifyTransaction receipt
         = Ok (TxVerification.mk false false ["Error fetching transaction: " ++ e]))
  \/ (exists tx, getTransaction h = Ok (Some tx)
      /\ getTransactionReceipt h = Ok None
      /\ verifyTransaction receipt
         = Ok (TxVerification.mk true false ["Transaction receipt not found"]))
  \/ (exists tx txr errors, getTransaction h = Ok (Some tx)
      /\ getTransactionReceipt h = Ok (Some txr)
      /\ verifyTransaction receipt
         = Ok (TxVerification.mk true (Nat.eqb (List.length errors) 0) errors)
      /\ (errors = []
          <-> TransactionReceipt.blockNumber txr = TransactionProof.blockNumber proof
              /\ TransactionReceipt.blockHash txr = TransactionProof.blockHash proof
              /\ TransactionReceipt.status txr = "success")).
Proof.
  intros proof h. unfold verifyTransaction. fold proof. fold h.
  destruct (getTransaction h) as [[tx|]|e]; simpl.
  2: { right. left. done. }
  2: { left. eauto. }
  destruct (getTransactionReceipt h) as [[txr|]|e]; simpl.
  2: { do 3 right. left. eauto. }
  2: { do 2 right. left. eauto. }
  do 4 right. eexists tx, txr, _. split; [done|]. split; [done|].
  split; [reflexivity|].
  unfold push_if.
  destruct (Z.eqb_spec (TransactionReceipt.blockNumber txr)
                       (TransactionProof.blockNumber proof));
    destruct (String.eqb_spec (TransactionReceipt.blockHash txr)
                              (TransactionProof.blockHash proof));
    destruct (String.eqb_spec (TransactionReceipt.status txr) "success");
    simpl; split; (done || (intros (? & ? & ?); done)).
Qed.

(** X6. What [verifyTransaction] reports.  [matches] holds exactly when
    the chain returns the transaction and its settlement receipt and
    the receipt has the block number and block hash of the proof and
    status "success"; it holds exactly when no error is listed, and
    then [exists] holds too.  [exists] holds exactly when the chain
    returns the transaction and answers the request for its settlement
    receipt: a failure of that second request reports the transaction
    as not existing. *)
Theorem verifyTransaction_report (receipt : AgentReceipt.t) :
  let proof := AgentReceipt.transaction receipt in
  let h := TransactionProof.txHash proof in
  exists v,
    verifyTransaction receipt = Ok v
    /\ (TxVerification.matches v = true
        <-> exists tx txr,
              getTransaction h = Ok (Some tx)
              /\ getTransactionReceipt h = Ok (Some txr)
              /\ TransactionReceipt.blockNumber txr = TransactionProof.blockNumber proof
              /\ TransactionReceipt.blockHash txr = TransactionProof.blockHash proof
              /\ TransactionReceipt.status txr = "success")
    /\ (TxVerification.matches v = true <-> TxVerification.errors v = [])
    /\ (TxVerification.matches v = true -> TxVerification.exists_ v = true)
    /\ (TxVerification.exists_ v = true
        <-> exists tx o,
              getTransaction h = Ok (Some tx) /\ getTransactionReceipt h = Ok o).
Proof.
  intros proof h.
  destruct (verifyTransaction_cases receipt)
    as [(e & Htx & ->)|[(Htx & ->)|[(tx & e & Htx & Hrc & ->)
        |[(tx & Htx & Hrc & ->)|(tx & txr & errors & Htx & Hrc & -> & Herr)]]]];
    fold proof in Htx; fold h in Htx;
    try (fold proof in Hrc; fold h in Hrc);
    eexists; (split; [reflexivity|]); simpl.
  - repeat split; try done; intros; repeat
      match goal with
      | H : exists _, _ |- _ => destruct H
      | H : _ /\ _ |- _ => destruct H
      end; congruence.
  - repeat split; try done; intros; repeat
      match goal with
      | H : exists _, _ |- _ => destruct H
      | H : _ /\ _ |- _ => destruct H
      end; congruence.
  - repeat split; try done; intros; repeat
      match goal with
      | H : exists _, _ |- _ => destruct H
      | H : _ /\ _ |- _ => destruct H
      end; congruence.
  - repeat split; try done; intros; repeat
      match goal with
      | H : exists _, _ |- _ => destruct H
      | H : _ /\ _ |- _ => destruct H
      end; try congruence. eauto.
  - fold proof in Herr.
    assert (Hnil : Nat.eqb (List.length errors) 0 = true <-> errors = []).
    { destruct errors; simpl; split; done. }
    split; [|split; [|split; [|split]]].
    + rewrite Hnil, Herr. split.
      * intros (? & ? & ?). exists tx, txr. done.
      * intros (tx' & txr' & Htx' & Hrc' & ?). congruence.
    + exact Hnil.
    + done.
    + intros _. eauto.
    + done.
Qed.

End VerifierFurther.

Section VerifyReceiptFurther.
Context `{PublicClient} `{Viem}.

(** Whether [verifyReceipt] attempts the anchor check. *)
Local Abbreviation anchor_attempted input :=
  (default true (VerifyReceiptInput.checkOnChain input)
   && Js.truthy_opt (AgentReceipt.anchorTxHash (VerifyReceiptInput.receipt input))).

(** Every field of the result of [verifyReceipt]. *)
Lemma verifyReceipt_full input :
  let receipt := VerifyReceiptInput.receipt input in
  exists txv sv av,
    verifyTransaction receipt = Ok txv
    /\ verifyAllAttestations receipt = Ok sv
    /\ verifyOnChainAnchor receipt = Ok av
    /\ let checks :=
         Checks.mk (TxVerification.exists_ txv) (TxVerification.matches txv)
           (match AgentReceipt.attestations receipt with
            | [] => false
            | _ :: _ => AllAttestations.valid sv
            end)
           (if anchor_attempted input
            then Some (AnchorVerification.exists_ av) else None)
           (if Js.truthy_opt (AgentReceipt.ipfsCid receipt)
            then Some true else None) in
       let errors :=
         (TxVerification.errors txv
          ++ match AgentReceipt.attestations receipt with
             | [] => ["No attestations present"]
             | _ :: _ =>
                 (if AllAttestations.valid sv then []
                  else invalid_signature_errors (AllAttestations.results sv))
                 ++ (if hasRequiredAttestations receipt then []
                     else ["Missing required attestations (need both buyer and seller)"])
             end
          ++ (if anchor_attempted input && negb (AnchorVerification.exists_ av)
              then ["On-chain anchor not found or does not match"] else []))%list in
       verifyReceipt input
       = Ok (VerificationResult.mk (overall_valid checks) checks errors
                                   (confidence_score checks)).
Proof.
  intros receipt. unfold verifyReceipt. fold receipt.
  destruct (verifyTransaction_total receipt) as [txv Htx]. rewrite Htx.
  destruct (verifyAllAttestations_total receipt) as [sv Hsv].
  destruct (verifyOnChainAnchor_total receipt) as [av Hav].
  exists txv, sv, av. do 3 (split; [done|]).
  change (Ok txv ≫= ?k) with (k txv). cbv beta zeta.
  destruct (AgentReceipt.attestations receipt) as [|a atts] eqn:Hatts.
  - change (Nat.eqb (List.length (@nil Attestation.t)) 0) with true. cbv iota.
    match goal with
    | |- context [Ok (false, ?e) ≫= ?k] =>
        change (Ok (false, e) ≫= k) with (k (false, e)); cbv beta iota
    end.
    destruct (default true (VerifyReceiptInput.checkOnChain input)
              && Js.truthy_opt (AgentReceipt.anchorTxHash receipt)).
    + rewrite Hav. simpl. unfold push_if.
      destruct (AnchorVerification.exists_ av); simpl;
        by rewrite ?app_nil_r, <- ?app_assoc.
    + simpl. by rewrite ?app_nil_r.
  - change (Nat.eqb (List.length (a :: atts)) 0) with false. cbv iota.
    rewrite Hsv.
    change (Ok sv ≫= ?k) with (k sv). cbv beta zeta.
    match goal with
    | |- context [Ok (?b, ?e) ≫= ?k] =>
        change (Ok (b, e) ≫= k) with (k (b, e)); cbv beta iota
    end.
    destruct (default true (VerifyReceiptInput.checkOnChain input)
              && Js.truthy_opt (AgentReceipt.anchorTxHash receipt)).
    + rewrite Hav. simpl. unfold push_if.
      destruct (AllAttestations.valid sv), (hasRequiredAttestations receipt),
        (AnchorVerification.exists_ av); simpl;
        by rewrite ?app_nil_r, <- ?app_assoc.
    + simpl. unfold push_if.
      destruct (AllAttestations.valid sv), (hasRequiredAttestations receipt); simpl;
        by rewrite ?app_nil_r, <- ?app_assoc.
Qed.

(** An aggregate that is not valid names at least one signer. *)
Lemma invalid_names_a_signer (results : Js.Map) :
  Js.every (Js.map_values results) = false ->
  invalid_signature_errors results <> [].
Proof.
  unfold invalid_signature_errors, Js.every, Js.map_values.
  unfold Js.Map in *.
  induction results as [|[k v] results IH]; [done|].
  destruct v.
  - rewrite filter_cons_False by (simpl; done). exact IH.
  - intros _. by rewrite filter_cons_True by done.
Qed.

Lemma verifyAllAttestations_valid_every receipt sv :
  verifyAllAttestations receipt = Ok sv ->
  AllAttestations.valid sv = Js.every (Js.map_values (AllAttestations.results sv)).
Proof.
  unfold verifyAllAttestations.
  destruct (verify_each _ _ _) as [m|e]; simpl; [|done].
  by intros [= <-].
Qed.

End VerifyReceiptFurther.

(** X7. [quickVerify] never throws and is the transaction part of the
    full verification: its [valid] is [transactionExists] and
    [transactionMatches] of [verifyReceipt] on the same receipt, so a
    receipt that passes the full verification passes the quick one; and
    [valid] holds exactly when the message is "Transaction verified on
    chain". *)
Theorem quickVerify_is_transaction_part `{PublicClient} `{Viem}
  (receipt : AgentReceipt.t) (checkOnChain : option bool) :
  exists q res,
    quickVerify receipt = Ok q
    /\ verifyReceipt (VerifyReceiptInput.mk receipt checkOnChain) = Ok res
    /\ QuickVerification.valid q
       = Checks.transactionExists (VerificationResult.checks res)
         && Checks.transactionMatches (VerificationResult.checks res)
    /\ (VerificationResult.valid res = true -> QuickVerification.valid q = true)
    /\ (QuickVerification.valid q = true
        <-> QuickVerification.message q = "Transaction verified on chain").
Proof.
  destruct (verifyReceipt_full (VerifyReceiptInput.mk receipt checkOnChain))
    as (txv & sv & av & Htx & _ & _ & Hres).
  simpl in Htx, Hres. rewrite Hres. clear Hres.
  unfold quickVerify. rewrite Htx. simpl.
  destruct (TxVerification.exists_ txv), (TxVerification.matches txv); simpl;
    eexists _, _; (split; [reflexivity|]); (split; [reflexivity|]); simpl;
    (split; [reflexivity|]); (split; [unfold overall_valid; simpl; done|]);
    split; done.
Qed.

(** X8. The threshold is exact: for every combination of check outcomes,
    and so for every result of [verifyReceipt], [valid] holds exactly
    when the confidence is at least 80. *)
Theorem valid_iff_confidence_80 :
  (forall checks : Checks.t,
      overall_valid checks = true <-> (80 <= confidence_score checks)%Z)
  /\ (forall (client : PublicClient) (viem : Viem) (input : VerifyReceiptInput.t),
        exists res,
          verifyReceipt input = Ok res
          /\ (VerificationResult.valid res = true
              <-> (80 <= VerificationResult.confidence res)%Z)).
Proof.
  assert (Hall : forall checks : Checks.t,
             overall_valid checks = true <-> (80 <= confidence_score checks)%Z).
  { intros [[] [] [] [[]|] [[]|]]; vm_compute; split; congruence. }
  split; [exact Hall|].
  intros client viem input.
  destruct (verifyReceipt_full input) as (txv & sv & av & _ & _ & _ & ->).
  eexists. split; [reflexivity|]. simpl. apply Hall.
Qed.

(** In the report of the transaction check, [matches] is the absence
    of errors and implies [exists]. *)
Lemma verifyTransaction_matches_errors `{PublicClient} receipt v :
  verifyTransaction receipt = Ok v ->
  (TxVerification.matches v = true <-> TxVerification.errors v = [])
  /\ (TxVerification.matches v = true -> TxVerification.exists_ v = true).
Proof.
  intros Hv.
  destruct (verifyTransaction_cases receipt)
    as [(e & _ & Hc)|[(_ & Hc)|[(tx & e & _ & _ & Hc)
        |[(tx & _ & _ & Hc)|(tx & txr & errors & _ & _ & Hc & _)]]]];
    rewrite Hv in Hc; injection Hc as ->; simpl; try done.
  split; [|done]. by destruct errors.
Qed.

(** X9. A result without errors: [verifyReceipt] lists no error
    exactly when the receipt is valid, carries a buyer and a seller
    attestation, and the anchor check, if it was attempted, did not
    fail.  A valid receipt can thus come with errors: a missing role
    or a failed anchor is reported and does not make it invalid. *)
Theorem no_errors_iff `{PublicClient} `{Viem} (input : VerifyReceiptInput.t) :
  exists res,
    verifyReceipt input = Ok res
    /\ (VerificationResult.errors res = []
        <-> VerificationResult.valid res = true
            /\ hasRequiredAttestations (VerifyReceiptInput.receipt input) = true
            /\ Checks.anchorMatches (VerificationResult.checks res) <> Some false).
Proof.
  destruct (verifyReceipt_full input) as (txv & sv & av & Htx & Hsv & _ & ->).
  eexists. split; [reflexivity|]. simpl.
  set (receipt := VerifyReceiptInput.receipt input) in *.
  destruct (verifyTransaction_matches_errors receipt txv Htx) as [Hmatch Hexists].
  pose proof (verifyAllAttestations_valid_every receipt sv Hsv) as Hevery.
  pose proof (invalid_names_a_signer (AllAttestations.results sv)) as Hnamed.
  unfold overall_valid; simpl.
  rewrite !app_nil, !andb_true_iff.
  destruct (AgentReceipt.attestations receipt) as [|a atts] eqn:Hatts.
  - split; [intros (_ & ? & _); done|intros ((_ & ?) & _); done].
  - rewrite app_nil. split.
    + intros (Herr & (Hsig & Hroles) & Hanchor).
      apply Hmatch in Herr. split; [|split].
      * split; [split; [by apply Hexists|done]|].
        destruct (AllAttestations.valid sv) eqn:Hv; [done|].
        exfalso. apply Hnamed; [by rewrite <- Hevery|done].
      * by destruct (hasRequiredAttestations receipt).
      * destruct (default true (VerifyReceiptInput.checkOnChain input)
                  && Js.truthy_opt (AgentReceipt.anchorTxHash receipt)); [|done].
        simpl in Hanchor. by destruct (AnchorVerification.exists_ av).
    + intros (((_ & Hm) & Hv) & Hroles & Hanchor).
      split; [by apply Hmatch|]. rewrite Hv, Hroles. split; [done|].
      destruct (default true (VerifyReceiptInput.checkOnChain input)
                && Js.truthy_opt (AgentReceipt.anchorTxHash receipt)); [|done].
      simpl. by destruct (AnchorVerification.exists_ av).
Qed.

(** The errors of the transaction check and of the signature check do
    not speak of the anchor. *)
Lemma anchor_error_not_of_transaction `{PublicClient} receipt v :
  verifyTransaction receipt = Ok v ->
  ~ In "On-chain anchor not found or does not match" (TxVerification.errors v).
Proof.
  unfold verifyTransaction.
  destruct (getTransaction _) as [[tx|]|e]; simpl;
    [|intros [= <-]; simpl; intros [Heq|[]]; discriminate Heq..].
  destruct (getTransactionReceipt _) as [[txr|]|e]; simpl;
    [|intros [= <-]; simpl; intros [Heq|[]]; discriminate Heq..].
  intros [= <-]. unfold push_if.
  destruct (negb (_ =? _)%Z), (negb (String.eqb _ _)), (negb (String.eqb _ _));
    simpl; intros Hin;
    repeat (destruct Hin as [Hin|Hin]; [discriminate Hin|]); done.
Qed.

Lemma anchor_error_not_of_signatures (m : Js.Map) :
  ~ In "On-chain anchor not found or does not match" (invalid_signature_errors m).
Proof.
  unfold invalid_signature_errors. rewrite in_map_iff.
  intros (kv & Heq & _). discriminate Heq.
Qed.

(** X10. The anchor check is attempted exactly when [checkOnChain] is
    not [false] (it is [true] when left out) and the receipt carries a
    non-empty [anchorTxHash]; when it is attempted its outcome is what
    [verifyOnChainAnchor] reports, and when it is not, nothing about an
    anchor is listed among the errors. *)
Theorem anchor_check_attempted `{PublicClient} `{Viem} (input : VerifyReceiptInput.t) :
  let receipt := VerifyReceiptInput.receipt input in
  exists res av,
    verifyReceipt input = Ok res
    /\ verifyOnChainAnchor receipt = Ok av
    /\ (Checks.anchorMatches (VerificationResult.checks res) = None
        <-> VerifyReceiptInput.checkOnChain input = Some false
            \/ Js.truthy_opt (AgentReceipt.anchorTxHash receipt) = false)
    /\ (Checks.anchorMatches (VerificationResult.checks res) <> None ->
        Checks.anchorMatches (VerificationResult.checks res)
        = Some (AnchorVerification.exists_ av))
    /\ (Checks.anchorMatches (VerificationResult.checks res) <> Some false <->
        ~ In "On-chain anchor not found or does not match"
             (VerificationResult.errors res)).
Proof.
  intros receipt.
  destruct (verifyReceipt_full input) as (txv & sv & av & Htx & Hsv & Hav & ->).
  fold receipt in Htx, Hsv, Hav. fold receipt.
  eexists _, av. split; [reflexivity|]. split; [done|]. simpl.
  pose proof (anchor_error_not_of_transaction receipt txv Htx) as Htxerr.
  pose proof anchor_error_not_of_signatures as Hsigerr.
  assert (Hsig :
    ~ In "On-chain anchor not found or does not match"
         match AgentReceipt.attestations receipt with
         | [] => ["No attestations present"]
         | _ :: _ =>
             ((if AllAttestations.valid sv then []
               else invalid_signature_errors (AllAttestations.results sv))
              ++ (if hasRequiredAttestations receipt then []
                  else ["Missing required attestations (need both buyer and seller)"]))%list
         end).
  { destruct (AgentReceipt.attestations receipt).
    - intros [Heq|[]]. discriminate Heq.
    - rewrite in_app_iff. intros [Hin|Hin].
      + destruct (AllAttestations.valid sv); [done|]. by apply Hsigerr in Hin.
      + destruct (hasRequiredAttestations receipt); [done|].
        destruct Hin as [Heq|[]]. discriminate Heq. }
  set (attempted := default true (VerifyReceiptInput.checkOnChain input)
                    && Js.truthy_opt (AgentReceipt.anchorTxHash receipt)) in *.
  split; [|split].
  - unfold attempted.
    destruct (VerifyReceiptInput.checkOnChain input) as [[]|],
      (Js.truthy_opt (AgentReceipt.anchorTxHash receipt)); simpl;
      split; first [done | intros [?|?]; done | auto].
  - by destruct attempted.
  - rewrite !in_app_iff. split.
    + intros Hne [Hin|[Hin|Hin]]; [by apply Htxerr|by apply Hsig|].
      destruct attempted; [|done]. simpl in Hin.
      destruct (AnchorVerification.exists_ av); [done|]. by apply Hne.
    + intros Hno Heq. apply Hno. right. right.
      destruct attempted; [|done]. injection Heq as ->. simpl. by left.
Qed.

(** ** Signatures *)

Section SignerFurther.
Context `{Viem}.

Lemma map_set_fresh (m : Js.Map) k v :
  k ∉ map fst m -> Js.map_set m k v = (m ++ [(k, v)])%list.
Proof.
  induction m as [|[k' v'] m IH]; simpl; intros Hfresh; [done|].
  apply not_elem_of_cons in Hfresh as [Hne Hfresh].
  destruct (String.eqb_spec k' k) as [->|_]; [done|].
  by rewrite IH.
Qed.

Lemma verify_each_distinct receipt todo : forall results,
  NoDup (map fst results ++ map Attestation.agent todo) ->
  exists verdicts,
    Forall2 (fun a b => verifyAttestation receipt a = Ok b) todo verdicts
    /\ verify_each receipt todo results
       = Ok (results ++ zip (map Attestation.agent todo) verdicts)%list.
Proof.
  induction todo as [|a todo IH]; intros results Hnodup; simpl.
  - exists []. split; [constructor|]. by rewrite app_nil_r.
  - destruct (verifyAttestation_total receipt a) as [b Hb]. rewrite Hb. simpl.
    apply NoDup_app in Hnodup as (Hres & Hdisj & Htodo).
    apply NoDup_cons in Htodo as [Hfresh Htodo].
    rewrite map_set_fresh.
    2: { intros Hin. apply (Hdisj _ Hin). by left. }
    destruct (IH (results ++ [(Attestation.agent a, b)])%list) as (vs & Hvs & ->).
    { rewrite map_app. simpl. rewrite <- app_assoc. simpl.
      apply NoDup_app. split; [done|]. split.
      - intros x Hx. apply Hdisj. done.
      - by apply NoDup_cons. }
    exists (b :: vs). split; [by constructor|].
    simpl. by rewrite <- app_assoc.
Qed.

(** X11. When the attestations of a receipt have pairwise different
    [agent] strings, [verifyAllAttestations] returns one entry per
    attestation, in the order of the attestations, each with the verdict
    of [verifyAttestation], and [valid] is the conjunction of the
    verdicts. *)
Theorem verifyAllAttestations_distinct (receipt : AgentReceipt.t) :
  NoDup (map Attestation.agent (AgentReceipt.attestations receipt)) ->
  exists verdicts,
    Forall2 (fun a b => verifyAttestation receipt a = Ok b)
            (AgentReceipt.attestations receipt) verdicts
    /\ verifyAllAttestations receipt
       = Ok (AllAttestations.mk
               (forallb (fun v => v) verdicts)
               (zip (map Attestation.agent (AgentReceipt.attestations receipt))
                    verdicts)).
Proof.
  intros Hnodup.
  destruct (verify_each_distinct receipt (AgentReceipt.attestations receipt) [])
    as (vs & Hvs & Heach); [done|].
  exists vs. split; [done|].
  unfold verifyAllAttestations. rewrite Heach. simpl.
  unfold Js.every, Js.map_values. do 2 f_equal.
  apply Forall2_length in Hvs.
  rewrite snd_zip; [done|]. rewrite length_map. lia.
Qed.

(** The verdicts of attestations that share one [agent] string fill one
    entry. *)
Lemma verify_each_same_agent receipt k todo : forall results,
  Forall (fun a => Attestation.agent a = k) todo ->
  (results = [] \/ exists b, results = [(k, b)]) ->
  exists m,
    verify_each receipt todo results = Ok m
    /\ (m = [] /\ results = [] \/ exists b, m = [(k, b)]).
Proof.
  induction todo as [|a todo IH]; intros results Hsame Hres; simpl.
  - exists results. split; [done|]. destruct Hres as [->|?]; auto.
  - inversion Hsame as [|? ? Ha Htodo]; subst.
    destruct (verifyAttestation_total receipt a) as [b ->]. simpl.
    destruct (IH (Js.map_set results (Attestation.agent a) b) Htodo)
      as (m & -> & Hm).
    { right. exists b. destruct Hres as [->|[b' ->]]; simpl; [done|].
      by rewrite String.eqb_refl. }
    exists m. split; [done|]. right.
    destruct Hm as [[_ Hempty]|?]; [|done].
    destruct Hres as [->|[b' ->]]; simpl in Hempty; [done|].
    by rewrite String.eqb_refl in Hempty.
Qed.

(** X12. The verdict map is keyed by the [agent] string, so of several
    attestations with one [agent] string only the last counts: when
    all attestations of a receipt carry the [agent] of the last one and
    the last one verifies, [verifyAllAttestations] returns [valid =
    true] with a single entry, whatever the verdicts of the others. *)
Theorem last_attestation_of_an_agent_counts
  (receipt : AgentReceipt.t) (front : list Attestation.t) (a : Attestation.t) :
  AgentReceipt.attestations receipt = (front ++ [a])%list ->
  Forall (fun x => Attestation.agent x = Attestation.agent a) front ->
  verifyAttestation receipt a = Ok true ->
  verifyAllAttestations receipt
  = Ok (AllAttestations.mk true [(Attestation.agent a, true)]).
Proof.
  intros Hatts Hsame Hlast.
  unfold verifyAllAttestations. rewrite Hatts.
  assert (Hsplit : forall todo1 todo2 results m,
            verify_each receipt todo1 results = Ok m ->
            verify_each receipt (todo1 ++ todo2) results
            = verify_each receipt todo2 m).
  { induction todo1 as [|x todo1 IH]; intros todo2 results m; simpl.
    - by intros [= ->].
    - destruct (verifyAttestation receipt x) as [b|e]; simpl; [|done].
      apply IH. }
  destruct (verify_each_same_agent receipt (Attestation.agent a) front [] Hsame)
    as (m & Hm & Hshape); [by left|].
  rewrite (Hsplit front [a] [] m Hm). simpl. rewrite Hlast. simpl.
  destruct Hshape as [[-> _]|[b ->]]; simpl; [done|].
  by rewrite String.eqb_refl.
Qed.

(** X13. What a signature covers.  [verifyAttestation] reads, of the
    receipt, the receipt id, the creation time, the transaction hash and
    amount, and the type, description and status of the commerce
    context, and nothing else: on two receipts that agree on these seven
    fields an attestation has the same verdict, whatever the sender,
    recipient, block, currency, terms, metadata, attestations and
    anchoring fields of the two receipts are. *)
Theorem signature_covers_seven_fields
  (r1 r2 : AgentReceipt.t) (attestation : Attestation.t) :
  AgentReceipt.receiptId r1 = AgentReceipt.receiptId r2 ->
  AgentReceipt.createdAt r1 = AgentReceipt.createdAt r2 ->
  TransactionProof.txHash (AgentReceipt.transaction r1)
  = TransactionProof.txHash (AgentReceipt.transaction r2) ->
  TransactionProof.amount (AgentReceipt.transaction r1)
  = TransactionProof.amount (AgentReceipt.transaction r2) ->
  CommerceContext.type (AgentReceipt.commerce r1)
  = CommerceContext.type (AgentReceipt.commerce r2) ->
  CommerceContext.description (AgentReceipt.commerce r1)
  = CommerceContext.description (AgentReceipt.commerce r2) ->
  CommerceContext.status (AgentReceipt.commerce r1)
  = CommerceContext.status (AgentReceipt.commerce r2) ->
  verifyAttestation r1 attestation = verifyAttestation r2 attestation.
Proof.
  intros Hid Hcreated Htx Hamount Htype Hdescription Hstatus.
  unfold verifyAttestation, getReceiptSigningMessage.
  by rewrite Hid, Hcreated, Htx, Hamount, Htype, Hdescription, Hstatus.
Qed.

End SignerFurther.

Section ChecksAndRoles.
Context `{PublicClient} `{Viem}.

Lemma verify_each_signed_part receipt atts' receipt' : forall atts results,
  getReceiptSigningMessage receipt' = getReceiptSigningMessage receipt ->
  map (fun a => (Attestation.agent a, Attestation.signature a)) atts'
  = map (fun a => (Attestation.agent a, Attestation.signature a)) atts ->
  verify_each receipt' atts' results = verify_each receipt atts results.
Proof.
  induction atts' as [|a' atts' IH]; intros [|a atts] results Hmsg Hmap;
    simpl in *; try done.
  injection Hmap as Hagent Hsig Hrest.
  unfold verifyAttestation. rewrite Hmsg, Hagent, Hsig.
  destruct (verifyTypedData _ _ _) as [b|e]; simpl; by apply IH.
Qed.

(** X14. The checks read of an attestation its [agent] and its
    [signature] only.  Replacing the attestations of a receipt by
    attestations with the same agents and signatures in the same order,
    whatever their roles, timestamps and agent ids, leaves the five
    check outcomes, [valid] and the confidence of [verifyReceipt] as
    they are: the role decides nothing but the presence of the
    missing-attestations message among the errors. *)
Theorem checks_ignore_roles
  (receipt : AgentReceipt.t) (attestations' : list Attestation.t)
  (checkOnChain : option bool) :
  map (fun a => (Attestation.agent a, Attestation.signature a)) attestations'
  = map (fun a => (Attestation.agent a, Attestation.signature a))
        (AgentReceipt.attestations receipt) ->
  exists res res',
    verifyReceipt (VerifyReceiptInput.mk receipt checkOnChain) = Ok res
    /\ verifyReceipt
         (VerifyReceiptInput.mk
            (AgentReceipt.spread_with_attestations receipt attestations')
            checkOnChain) = Ok res'
    /\ VerificationResult.checks res' = VerificationResult.checks res
    /\ VerificationResult.valid res' = VerificationResult.valid res
    /\ VerificationResult.confidence res' = VerificationResult.confidence res.
Proof.
  intros Hmap.
  set (receipt' := AgentReceipt.spread_with_attestations receipt attestations').
  destruct (verifyReceipt_full (VerifyReceiptInput.mk receipt checkOnChain))
    as (txv & sv & av & Htx & Hsv & Hav & ->).
  destruct (verifyReceipt_full (VerifyReceiptInput.mk receipt' checkOnChain))
    as (txv' & sv' & av' & Htx' & Hsv' & Hav' & ->).
  simpl in *.
  change (verifyTransaction receipt') with (verifyTransaction receipt) in Htx'.
  change (verifyOnChainAnchor receipt') with (verifyOnChainAnchor receipt) in Hav'.
  assert (txv' = txv) as -> by congruence.
  assert (av' = av) as -> by congruence.
  assert (sv' = sv) as ->.
  { revert Hsv'. unfold verifyAllAttestations. simpl.
    rewrite (verify_each_signed_part receipt attestations' receipt'
               (AgentReceipt.attestations receipt) []) by done.
    revert Hsv. unfold verifyAllAttestations. congruence. }
  assert (Hempty :
    match attestations' with [] => false | _ :: _ => AllAttestations.valid sv end
    = match AgentReceipt.attestations receipt with
      | [] => false | _ :: _ => AllAttestations.valid sv end).
  { destruct attestations', (AgentReceipt.attestations receipt); done. }
  eexists _, _. split; [reflexivity|]. split; [reflexivity|]. simpl.
  rewrite Hempty. done.
Qed.

End ChecksAndRoles.

(** X15. [addAttestation] keeps the signers of a receipt distinct: if
    no two attestations of the receipt have the same address up to
    case, then after a successful call no two attestations of the
    returned receipt have, and the returned receipt has one attestation
    more. *)
Theorem addAttestation_keeps_signers_distinct
  (h h' : Heap.t) (l l' : loc) (r : AgentReceipt.t) (a : Attestation.t) :
  Heap.load h l = Some r ->
  NoDup (map (fun x => Js.toLowerCase (Attestation.agent x))
             (AgentReceipt.attestations r)) ->
  addAttestation h l a = Some (h', Ok l') ->
  exists r',
    Heap.load h' l' = Some r'
    /\ AgentReceipt.attestations r' = (AgentReceipt.attestations r ++ [a])%list
    /\ NoDup (map (fun x => Js.toLowerCase (Attestation.agent x))
                  (AgentReceipt.attestations r')).
Proof.
  intros Hload Hnodup.
  destruct (load_inv h l r Hload) as (o & atts & Ho & Ha & ->).
  simpl in *. unfold addAttestation. rewrite Ho. simpl. rewrite Ha. simpl.
  destruct (find _ atts) as [x|] eqn:Hfind; [done|].
  intros [= <- <-].
  eexists. split.
  { unfold Heap.load; simpl.
    rewrite lookup_insert_eq. simpl. by rewrite lookup_insert_eq. }
  simpl. split; [done|].
  rewrite map_app. simpl. apply NoDup_app. split; [done|]. split.
  - intros k Hk ->%list_elem_of_singleton.
    apply list_elem_of_fmap in Hk as (x & Hx & Hin).
    apply list_elem_of_In in Hin.
    pose proof (find_none _ _ Hfind x Hin) as Hne. simpl in Hne.
    rewrite Hx, String.eqb_refl in Hne. done.
  - apply NoDup_singleton.
Qed.

(** X16. [hasRequiredAttestations] asks for two attestations: it holds
    only if the receipt has an attestation with role buyer and another
    one with role seller, so never on fewer than two attestations; and
    once it holds, it holds after any further attestation is appended. *)
Theorem hasRequiredAttestations_needs_two (receipt : AgentReceipt.t) :
  hasRequiredAttestations receipt = true ->
  (exists a b,
      In a (AgentReceipt.attestations receipt)
      /\ In b (AgentReceipt.attestations receipt)
      /\ a <> b
      /\ Attestation.role a = buyer
      /\ Attestation.role b = seller)
  /\ (2 <= List.length (AgentReceipt.attestations receipt))%nat
  /\ forall more,
       hasRequiredAttestations
         (AgentReceipt.spread_with_attestations receipt
            (AgentReceipt.attestations receipt ++ more)%list) = true.
Proof.
  unfold hasRequiredAttestations. rewrite andb_true_iff, !existsb_exists.
  intros [(a & Ha & Hra) (b & Hb & Hrb)].
  assert (Hbuyer : Attestation.role a = buyer)
    by (by destruct (Attestation.role a)).
  assert (Hseller : Attestation.role b = seller)
    by (by destruct (Attestation.role b)).
  assert (Hne : a <> b) by (intros ->; congruence).
  split; [exists a, b; done|]. split.
  - destruct (AgentReceipt.attestations receipt) as [|x [|y atts]];
      simpl in *; [done| |lia].
    destruct Ha as [<-|[]], Hb as [<-|[]]. done.
  - intros more. simpl. rewrite andb_true_iff, !existsb_exists.
    split; [exists a|exists b]; rewrite in_app_iff; auto.
Qed.

(** X17. Sign and verify, a round trip.  When the private key gives
    an account and the typed data of the receipt is signed, [signReceipt]
    returns the attestation of that account with that signature, the
    given role and the time of the call.  If recovery is sound for the
    signatures of this wallet, the attestation verifies on the receipt,
    and it still verifies after attestations are appended to the receipt
    and its anchoring fields are set. *)
Theorem signReceipt_then_verify `{Viem} `{Wallet}
  (now : string) (input : SignReceiptInput.t) (account signature : string) :
  let receipt := SignReceiptInput.receipt input in
  privateKeyToAccount (SignReceiptInput.privateKey input) = Ok account ->
  signTypedData (SignReceiptInput.privateKey input)
                (getReceiptSigningMessage receipt) = Ok signature ->
  let attestation :=
    Attestation.mk account None signature now (SignReceiptInput.role input) in
  signReceipt now input = Ok attestation
  /\ (verifyTypedData account (getReceiptSigningMessage receipt) signature = Ok true ->
      verifyAttestation receipt attestation = Ok true
      /\ forall more cid hash txHash,
           verifyAttestation
             (AgentReceipt.with_anchoring
                (AgentReceipt.spread_with_attestations receipt
                   (AgentReceipt.attestations receipt ++ more)%list)
                cid hash txHash)
             attestation = Ok true).
Proof.
  intros receipt Haccount Hsigned attestation.
  split.
  - unfold signReceipt. rewrite Haccount. simpl. fold receipt.
    by rewrite Hsigned.
  - intros Hsound.
    assert (Hverify : verifyAttestation receipt attestation = Ok true).
    { unfold verifyAttestation. simpl. by rewrite Hsound. }
    split; [done|]. intros more cid hash txHash. exact Hverify.
Qed.

(** ** Fetching and creating *)

Section GeneratorFurther.
Context `{PublicClient} `{Viem} `{Runtime}.





(** What a fetched proof holds of the chain. *)
Lemma fetchTransactionProof_inv txHash proof :
  fetchTransactionProof txHash = Ok proof ->
  exists tx txr,
    getTransaction txHash = Ok (Some tx)
    /\ getTransactionReceipt txHash = Ok (Some txr)
    /\ TransactionProof.txHash proof = txHash
    /\ TransactionProof.chain proof = base_sepolia
    /\ TransactionProof.blockNumber proof = TransactionReceipt.blockNumber txr
    /\ TransactionProof.blockHash proof = TransactionReceipt.blockHash txr.
Proof.
  unfold fetchTransactionProof.
  destruct (getTransaction txHash) as [[tx|]|]; simpl; [|done..].
  destruct (getTransactionReceipt txHash) as [[txr|]|]; simpl; [|done..].
  destruct (getBlock _) as [block|]; simpl; [|done].
  destruct (parse_amount _ _) as [amount|]; simpl; [|done].
  destruct (toISOString _) as [ts|]; simpl; [|done].
  intros [= <-]. exists tx, txr. done.
Qed.

(** X19. Create and verify, a round trip.  A receipt that
    [createReceipt] returns is on chain base-sepolia whatever chain the
    input names, has the transaction hash of the input, no attestation
    and no anchoring field.  Verified against the same chain, its
    transaction exists, and matches exactly when the status of the
    settlement receipt is "success": [createReceipt] does not look at
    the status.  The full verification of the fresh receipt is never
    valid, for want of attestations; its confidence is 60 when the
    transaction succeeded and 35 when it did not. *)
Theorem created_receipt_verifies
  (uuid now : string) (input : CreateReceiptInput.t) (receipt : AgentReceipt.t)
  (checkOnChain : option bool) :
  createReceipt uuid now input = Ok receipt ->
  exists txr,
    getTransactionReceipt (CreateReceiptInput.txHash input) = Ok (Some txr)
    /\ TransactionProof.chain (AgentReceipt.transaction receipt) = base_sepolia
    /\ TransactionProof.txHash (AgentReceipt.transaction receipt)
       = CreateReceiptInput.txHash input
    /\ AgentReceipt.attestations receipt = []
    /\ AgentReceipt.ipfsCid receipt = None
    /\ AgentReceipt.anchorTxHash receipt = None
    /\ let succeeded := String.eqb (TransactionReceipt.status txr) "success" in
       verifyTransaction receipt
       = Ok (TxVerification.mk true succeeded
               (if succeeded then [] else ["Transaction was not successful"]))
       /\ verifyReceipt (VerifyReceiptInput.mk receipt checkOnChain)
          = Ok (VerificationResult.mk false
                  (Checks.mk true succeeded false None None)
                  ((if succeeded then [] else ["Transaction was not successful"])
                     ++ ["No attestations present"])%list
                  (if succeeded then 60 else 35)).
Proof.
  unfold createReceipt.
  destruct (fetchTransactionProof _) as [proof|e] eqn:Hfetch; simpl; [|done].
  intros [= <-].
  destruct (fetchTransactionProof_inv _ _ Hfetch)
    as (tx & txr & Htx & Hrc & Hhash & Hchain & Hnumber & Hblock).
  exists txr. split; [done|].
  set (proof' := match CreateReceiptInput.sellerAgent input with
                 | Some a => _ | None => _ end).
  assert (Hkeep : TransactionProof.txHash proof' = CreateReceiptInput.txHash input
                  /\ TransactionProof.chain proof' = base_sepolia
                  /\ TransactionProof.blockNumber proof'
                     = TransactionReceipt.blockNumber txr
                  /\ TransactionProof.blockHash proof'
                     = TransactionReceipt.blockHash txr).
  { unfold proof'.
    destruct (CreateReceiptInput.buyerAgent input) as [[|? ?]|],
             (CreateReceiptInput.sellerAgent input) as [[|? ?]|]; simpl; done. }
  destruct Hkeep as (Hh & Hc & Hn & Hb).
  simpl. do 5 (split; [done|]).
  assert (Hverify :
    verifyTransaction
      (AgentReceipt.mk uuid "1.0" now proof' (CreateReceiptInput.commerce input)
                       [] None None None)
    = Ok (TxVerification.mk true
            (String.eqb (TransactionReceipt.status txr) "success")
            (if String.eqb (TransactionReceipt.status txr) "success"
             then [] else ["Transaction was not successful"]))).
  { unfold verifyTransaction. simpl. rewrite Hh, Htx. simpl. rewrite Hrc. simpl.
    rewrite Hn, Hb, Z.eqb_refl, String.eqb_refl. unfold push_if. simpl.
    by destruct (String.eqb (TransactionReceipt.status txr) "success"). }
  split; [exact Hverify|].
  unfold verifyReceipt. simpl. rewrite Hverify. simpl.
  rewrite andb_false_r. simpl.
  by destruct (String.eqb (TransactionReceipt.status txr) "success").
Qed.

End GeneratorFurther.

(** ** Anchoring through calldata *)

Section StorageFurther.
Context `{PublicClient} `{Viem}.


End StorageFurther.

(** X21. Anchor and verify, a round trip.  [anchorOnChain] sends the
    digest of the receipt as the calldata of a transaction from the
    account to itself and returns the digest and the hash of the
    transaction.  Once these are written into the receipt, and if the
    chain returns that transaction with the calldata it was sent with,
    and its block, [verifyOnChainAnchor] finds the anchor, names the
    sender and the time of the block, and does so whatever attestations
    the receipt has gained and whatever its locator is. *)
Theorem anchorOnChain_then_verify `{PublicClient} `{Viem} `{Wallet}
  (receipt : AgentReceipt.t) (privateKey account txHash : string)
  (tx : Transaction.t) (block : Block.t) :
  privateKeyToAccount privateKey = Ok account ->
  sendTransaction privateKey account (computeReceiptHash receipt) 0 = Ok txHash ->
  txHash <> EmptyString ->
  getTransaction txHash = Ok (Some tx) ->
  Transaction.input tx = computeReceiptHash receipt ->
  getBlock (ByHash (Transaction.blockHash tx)) = Ok block ->
  anchorOnChain receipt privateKey
  = Ok (Anchoring.mk (computeReceiptHash receipt) txHash)
  /\ forall attestations cid,
       verifyOnChainAnchor
         (AgentReceipt.with_anchoring
            (AgentReceipt.spread_with_attestations receipt attestations)
            cid (Some (computeReceiptHash receipt)) (Some txHash))
       = Ok (AnchorVerification.mk true (Some (Block.timestamp block))
                                   (Some (Transaction.from tx))).
Proof.
  intros Haccount Hsent Hhash Htx Hinput Hblock. split.
  - unfold anchorOnChain. rewrite Haccount. simpl. by rewrite Hsent.
  - intros attestations cid. unfold verifyOnChainAnchor. simpl.
    destruct txHash as [|c t]; [done|]. simpl. rewrite Htx. simpl.
    change (computeReceiptHash
              (AgentReceipt.with_anchoring
                 (AgentReceipt.spread_with_attestations receipt attestations)
                 cid (Some (computeReceiptHash receipt)) (Some (String c t))))
      with (computeReceiptHash receipt).
    rewrite Hinput, String.eqb_refl. simpl. by rewrite Hblock.
Qed.

(** The length of a slice that lies within the text. *)
Lemma substring_length (s : string) : forall n m,
  (n + m <= String.length s)%nat ->
  String.length (String.substring n m s) = m.
Proof.
  induction s as [|c s IH]; intros [|n] [|m] Hlen; simpl in *;
    try done; try lia.
  - f_equal. apply (IH 0%nat). lia.
  - apply IH. lia.
  - apply IH. lia.
Qed.

Lemma append_length (s t : string) :
  String.length (s ++ t) = (String.length s + String.length t)%nat.
Proof. induction s as [|c s IH]; simpl; [done|]. by rewrite IH. Qed.

(** X22. The locator [pinToIPFS] returns is the text "bafyreig"
    followed by the characters 2 to 49 of the digest of the indented
    JSON text of the whole receipt: it is never empty, and with a
    digest of 66 characters (["0x"] and 64 digits) it has 56 characters.
    A receipt that carries it always passes the content-store check. *)
Theorem pinToIPFS_locator `{PublicClient} `{Viem} (receipt : AgentReceipt.t) :
  let digest :=
    keccak256 (toBytes (JsonIndent.stringify "  " EmptyString
                          (AgentReceipt_json receipt))) in
  pinToIPFS receipt = "bafyreig" ++ String.substring 2 48 digest
  /\ Js.truthy (pinToIPFS receipt) = true
  /\ (String.length digest = 66%nat -> String.length (pinToIPFS receipt) = 56%nat)
  /\ forall checkOnChain hash txHash,
       exists res,
         verifyReceipt
           (VerifyReceiptInput.mk
              (AgentReceipt.with_anchoring receipt
                 (Some (pinToIPFS receipt)) hash txHash)
              checkOnChain) = Ok res
         /\ Checks.ipfsAvailable (VerificationResult.checks res) = Some true.
Proof.
  intros digest. split; [reflexivity|]. split; [reflexivity|]. split.
  - intros Hlen. unfold pinToIPFS. fold digest. unfold JsText.slice.
    rewrite append_length, substring_length by lia. reflexivity.
  - intros checkOnChain hash txHash.
    destruct (verifyReceipt_full
                (VerifyReceiptInput.mk
                   (AgentReceipt.with_anchoring receipt
                      (Some (pinToIPFS receipt)) hash txHash) checkOnChain))
      as (txv & sv & av & _ & _ & _ & ->).
    eexists. split; [reflexivity|]. reflexivity.
Qed.

(** ** The complete flow *)

Section StoreLemmas.

Lemma preserved_refl h : preserved h h.
Proof. by intros k v. Qed.

Lemma preserved_trans h1 h2 h3 :
  preserved h1 h2 -> preserved h2 h3 -> preserved h1 h3.
Proof. intros H12 H23 k v Hk. by apply H23, H12. Qed.

Lemma spread_own_attestations (r : AgentReceipt.t) (l : loc) :
  AgentReceipt.spread_with_attestations
    (AgentReceipt.spread_with_attestations r l) (AgentReceipt.attestations r) = r.
Proof. by destruct r. Qed.

(** Allocation at fresh references keeps what the store holds. *)
Lemma preserved_alloc h o atts :
  preserved h
    (Heap.mk (<[fresh (dom (Heap.objects h)) := o]> (Heap.objects h))
             (<[fresh (dom (Heap.arrays h)) := atts]> (Heap.arrays h))).
Proof.
  intros k v Hk.
  destruct (load_inv h k v Hk) as (o' & atts' & Ho' & Ha' & ->).
  assert (Hla : Heap.arrays h !! fresh (dom (Heap.arrays h)) = None)
    by (apply not_elem_of_dom, is_fresh).
  assert (Hlo : Heap.objects h !! fresh (dom (Heap.objects h)) = None)
    by (apply not_elem_of_dom, is_fresh).
  unfold Heap.load; simpl.
  rewrite lookup_insert_ne by congruence. rewrite Ho'. simpl.
  rewrite lookup_insert_ne by congruence. by rewrite Ha'.
Qed.

Lemma alloc_spec (r : AgentReceipt.t) (h : Heap.t) :
  exists h' l,
    FlowOps.alloc r h = Some (h', Ok l)
    /\ Heap.load h' l = Some r
    /\ Heap.load h l = None
    /\ preserved h h'.
Proof.
  unfold FlowOps.alloc, Heap.alloc_array, Heap.alloc_object. simpl.
  eexists _, _. split; [reflexivity|]. split; [|split].
  - unfold Heap.load; simpl. rewrite lookup_insert_eq. simpl.
    rewrite lookup_insert_eq. simpl. by rewrite spread_own_attestations.
  - unfold Heap.load.
    assert (Hlo : Heap.objects h !! fresh (dom (Heap.objects h)) = None)
      by (apply not_elem_of_dom, is_fresh).
    by rewrite Hlo.
  - apply preserved_alloc.
Qed.

Lemma addAttestation_appends h l r a :
  Heap.load h l = Some r ->
  ~ Exists (fun x => same_signer x a) (AgentReceipt.attestations r) ->
  exists h' l',
    addAttestation h l a = Some (h', Ok l')
    /\ Heap.load h' l'
       = Some (AgentReceipt.spread_with_attestations r
                 (AgentReceipt.attestations r ++ [a])%list)
    /\ Heap.load h l' = None
    /\ preserved h h'.
Proof.
  intros Hload Hnew.
  destruct (load_inv h l r Hload) as (o & atts & Ho & Ha & ->).
  simpl in *. unfold addAttestation. rewrite Ho. simpl. rewrite Ha. simpl.
  rewrite (find_signer_none atts a Hnew).
  unfold Heap.alloc_array, Heap.alloc_object. simpl.
  eexists _, _. split; [reflexivity|]. split; [|split].
  - unfold Heap.load; simpl. rewrite lookup_insert_eq. simpl.
    by rewrite lookup_insert_eq.
  - unfold Heap.load.
    assert (Hlo : Heap.objects h !! fresh (dom (Heap.objects h)) = None)
      by (apply not_elem_of_dom, is_fresh).
    by rewrite Hlo.
  - apply preserved_alloc.
Qed.

Lemma addAttestation_refuses h l r a :
  Heap.load h l = Some r ->
  Exists (fun x => same_signer x a) (AgentReceipt.attestations r) ->
  addAttestation h l a = Some (h, Throw (already_attested (Attestation.agent a))).
Proof.
  intros Hload Hdup.
  destruct (load_inv h l r Hload) as (o & atts & Ho & Ha & ->).
  simpl in *. unfold addAttestation. rewrite Ho. simpl. rewrite Ha. simpl.
  by destruct (find_signer_some atts a Hdup) as [x ->].
Qed.

(** An assignment to an anchoring field of the object at [l]. *)
Lemma assign_anchoring h l r (f : AgentReceipt.over loc -> AgentReceipt.over loc)
  (cid hash txHash : option string) :
  Heap.load h l = Some r ->
  (forall o, AgentReceipt.ipfsCid o = AgentReceipt.ipfsCid r ->
             AgentReceipt.onChainAnchor o = AgentReceipt.onChainAnchor r ->
             AgentReceipt.anchorTxHash o = AgentReceipt.anchorTxHash r ->
             f o = AgentReceipt.with_anchoring o cid hash txHash) ->
  exists h',
    FlowOps.assign f l h = Some (h', Ok tt)
    /\ Heap.load h' l = Some (AgentReceipt.with_anchoring r cid hash txHash)
    /\ forall k, k <> l -> Heap.load h' k = Heap.load h k.
Proof.
  intros Hload Hf.
  destruct (load_inv h l r Hload) as (o & atts & Ho & Ha & ->).
  unfold FlowOps.assign. rewrite Ho. simpl.
  eexists. split; [reflexivity|]. split.
  - unfold Heap.load; simpl. rewrite lookup_insert_eq. simpl.
    rewrite Hf by done. simpl. by rewrite Ha.
  - intros k Hk. unfold Heap.load; simpl. by rewrite lookup_insert_ne.
Qed.

End StoreLemmas.

Section FlowLemmas.

Lemma bind_ok {A B} (m : Flow A) (k : A -> Flow B) h h' a :
  m h = Some (h', Ok a) -> FlowOps.bind m k h = k a h'.
Proof. unfold FlowOps.bind. by intros ->. Qed.

Lemma bind_throw {A B} (m : Flow A) (k : A -> Flow B) h h' e :
  m h = Some (h', Throw e) -> FlowOps.bind m k h = Some (h', Throw e).
Proof. unfold FlowOps.bind. by intros ->. Qed.

Lemma load_ok h l r :
  Heap.load h l = Some r -> FlowOps.load l h = Some (h, Ok r).
Proof. unfold FlowOps.load. by intros ->. Qed.

Lemma createReceipt_fresh `{PublicClient} `{Viem} `{Runtime} uuid now input r :
  createReceipt uuid now input = Ok r ->
  AgentReceipt.attestations r = []
  /\ AgentReceipt.ipfsCid r = None
  /\ AgentReceipt.onChainAnchor r = None
  /\ AgentReceipt.anchorTxHash r = None.
Proof.
  unfold createReceipt.
  destruct (fetchTransactionProof _) as [proof|e]; simpl; [|done].
  by intros [= <-].
Qed.

End FlowLemmas.

Section FlowUntilPinned.
Context `{PublicClient} `{Viem} `{Runtime} `{Wallet}.
Variables (stamps : FlowStamps.t) (params : FlowParams.t) (h : Heap.t).
Variables (created : AgentReceipt.t).
Variables (buyerAccount buyerSignature sellerAccount sellerSignature : string).

Hypothesis Hcreate :
  createReceipt (FlowStamps.uuid stamps) (FlowStamps.createdAt stamps)
    (CreateReceiptInput.mk (FlowParams.txHash params) None
       (FlowParams.commerce params)
       (Some (FlowParams.buyerAddress params))
       (Some (FlowParams.sellerAddress params))) = Ok created.
Hypothesis Hbk :
  privateKeyToAccount (FlowParams.buyerPrivateKey params) = Ok buyerAccount.
Hypothesis Hbs :
  signTypedData (FlowParams.buyerPrivateKey params)
                (getReceiptSigningMessage created) = Ok buyerSignature.
Hypothesis Hsk :
  privateKeyToAccount (FlowParams.sellerPrivateKey params) = Ok sellerAccount.
Hypothesis Hss :
  signTypedData (FlowParams.sellerPrivateKey params)
                (getReceiptSigningMessage created) = Ok sellerSignature.

Local Abbreviation buyerAttestation :=
  (Attestation.mk buyerAccount None buyerSignature
                  (FlowStamps.buyerSignedAt stamps) buyer).
Local Abbreviation sellerAttestation :=
  (Attestation.mk sellerAccount None sellerSignature
                  (FlowStamps.sellerSignedAt stamps) seller).

(** The flow up to the seller's attestation. *)
Lemma flow_until_second_attestation :
  exists h2 l2,
    Heap.load h2 l2
    = Some (AgentReceipt.spread_with_attestations created [buyerAttestation])
    /\ preserved h h2
    /\ createAndSignReceipt stamps params h
       = FlowOps.bind (fun h => addAttestation h l2 sellerAttestation)
           (fun receipt =>
              let* value := FlowOps.load receipt in
              let* _ :=
                FlowOps.assign (FlowOps.set_ipfsCid (pinToIPFS value)) receipt in
              let* _ := anchor_if_requested params receipt in
              FlowOps.ret receipt) h2.
Proof.
  destruct (createReceipt_fresh _ _ _ _ Hcreate) as (Hnone & _).
  destruct (alloc_spec created h) as (h1 & l1 & Halloc & Hload1 & Hfresh1 & Hkeep1).
  assert (Hsign1 :
    signReceipt (FlowStamps.buyerSignedAt stamps)
      (SignReceiptInput.mk created (FlowParams.buyerPrivateKey params) buyer)
    = Ok buyerAttestation).
  { unfold signReceipt. simpl. rewrite Hbk. simpl. by rewrite Hbs. }
  destruct (addAttestation_appends h1 l1 created buyerAttestation Hload1)
    as (h2 & l2 & Hadd1 & Hload2 & Hfresh2 & Hkeep2).
  { rewrite Hnone. by intros ?%Exists_nil. }
  rewrite Hnone in Hload2. simpl in Hload2.
  assert (Hsign2 :
    signReceipt (FlowStamps.sellerSignedAt stamps)
      (SignReceiptInput.mk
         (AgentReceipt.spread_with_attestations created [buyerAttestation])
         (FlowParams.sellerPrivateKey params) seller)
    = Ok sellerAttestation).
  { unfold signReceipt. simpl. rewrite Hsk. simpl.
    change (getReceiptSigningMessage
              (AgentReceipt.spread_with_attestations created [buyerAttestation]))
      with (getReceiptSigningMessage created).
    by rewrite Hss. }
  exists h2, l2. split; [done|]. split; [by apply (preserved_trans h h1 h2)|].
  unfold createAndSignReceipt.
  erewrite bind_ok; [|unfold FlowOps.lift; by rewrite Hcreate].
  erewrite bind_ok; [|exact Halloc].
  erewrite bind_ok; [|by apply load_ok].
  erewrite bind_ok; [|unfold FlowOps.lift; by rewrite Hsign1].
  erewrite bind_ok; [|exact Hadd1].
  erewrite bind_ok; [|by apply load_ok].
  erewrite bind_ok; [|unfold FlowOps.lift; by rewrite Hsign2].
  reflexivity.
Qed.

(** The flow up to the pinned receipt, when the two signers differ. *)
Lemma flow_until_pinned :
  Js.toLowerCase buyerAccount <> Js.toLowerCase sellerAccount ->
  let signed :=
    AgentReceipt.spread_with_attestations created
      [buyerAttestation; sellerAttestation] in
  exists h4 l3,
    Heap.load h4 l3
    = Some (AgentReceipt.with_anchoring signed (Some (pinToIPFS signed)) None None)
    /\ Heap.load h l3 = None
    /\ preserved h h4
    /\ createAndSignReceipt stamps params h
       = FlowOps.bind (anchor_if_requested params l3)
                      (fun _ => FlowOps.ret l3) h4.
Proof.
  intros Hdiff signed.
  destruct (createReceipt_fresh _ _ _ _ Hcreate) as (_ & Hcid & Hhash & Htx).
  destruct flow_until_second_attestation as (h2 & l2 & Hload2 & Hkeep2 & ->).
  destruct (addAttestation_appends h2 l2 _ sellerAttestation Hload2)
    as (h3 & l3 & Hadd2 & Hload3 & Hfresh3 & Hkeep3).
  { intros Hex. apply Exists_cons in Hex as [Hex|Hex%Exists_nil]; done. }
  change (AgentReceipt.spread_with_attestations
            (AgentReceipt.spread_with_attestations created [buyerAttestation])
            (AgentReceipt.attestations
               (AgentReceipt.spread_with_attestations created [buyerAttestation])
             ++ [sellerAttestation])%list)
    with signed in Hload3.
  destruct (assign_anchoring h3 l3 signed
              (FlowOps.set_ipfsCid (pinToIPFS signed))
              (Some (pinToIPFS signed)) None None Hload3)
    as (h4 & Hassign & Hload4 & Hother4).
  { intros o Ho1 Ho2 Ho3. unfold FlowOps.set_ipfsCid.
    rewrite Ho2, Ho3. simpl. by rewrite Hhash, Htx. }
  assert (Hnew : forall k v, Heap.load h k = Some v -> k <> l3).
  { intros k v Hk ->. apply Hkeep2 in Hk. congruence. }
  exists h4, l3. split; [exact Hload4|]. split; [|split].
  - destruct (Heap.load h l3) as [v|] eqn:Hv; [|done].
    by destruct (Hnew l3 v Hv).
  - intros k v Hk. rewrite Hother4; [|by apply (Hnew k v)].
    by apply Hkeep3, Hkeep2.
  - erewrite bind_ok; [|exact Hadd2].
    erewrite bind_ok; [|by apply load_ok].
    erewrite bind_ok; [|exact Hassign].
    reflexivity.
Qed.

End FlowUntilPinned.

(** X23. The complete flow without anchoring.  When the receipt is
    created and both keys sign, [createAndSignReceipt] ends in one of
    two ways.  If the two keys have the same account up to case, the
    seller's attestation is refused and the flow throws the
    already-attested error.  Otherwise it returns a new object: the
    created receipt with the buyer's attestation followed by the
    seller's, its [ipfsCid] the locator of that signed receipt, and no
    anchor; the receipt has the required attestations.  In both cases
    every object the store held before is as it was. *)
Theorem createAndSignReceipt_result `{PublicClient} `{Viem} `{Runtime} `{Wallet}
  (stamps : FlowStamps.t) (params : FlowParams.t) (h : Heap.t)
  (created : AgentReceipt.t)
  (buyerAccount buyerSignature sellerAccount sellerSignature : string) :
  default false (FlowParams.anchor params)
  && Js.truthy_opt (FlowParams.anchorPrivateKey params) = false ->
  createReceipt (FlowStamps.uuid stamps) (FlowStamps.createdAt stamps)
    (CreateReceiptInput.mk (FlowParams.txHash params) None
       (FlowParams.commerce params)
       (Some (FlowParams.buyerAddress params))
       (Some (FlowParams.sellerAddress params))) = Ok created ->
  privateKeyToAccount (FlowParams.buyerPrivateKey params) = Ok buyerAccount ->
  signTypedData (FlowParams.buyerPrivateKey params)
                (getReceiptSigningMessage created) = Ok buyerSignature ->
  privateKeyToAccount (FlowParams.sellerPrivateKey params) = Ok sellerAccount ->
  signTypedData (FlowParams.sellerPrivateKey params)
                (getReceiptSigningMessage created) = Ok sellerSignature ->
  let buyerAttestation :=
    Attestation.mk buyerAccount None buyerSignature
                   (FlowStamps.buyerSignedAt stamps) buyer in
  let sellerAttestation :=
    Attestation.mk sellerAccount None sellerSignature
                   (FlowStamps.sellerSignedAt stamps) seller in
  let signed :=
    AgentReceipt.spread_with_attestations created
      [buyerAttestation; sellerAttestation] in
  (Js.toLowerCase buyerAccount = Js.toLowerCase sellerAccount ->
   exists h',
     createAndSignReceipt stamps params h
     = Some (h', Throw (already_attested sellerAccount))
     /\ preserved h h')
  /\ (Js.toLowerCase buyerAccount <> Js.toLowerCase sellerAccount ->
      exists h' l,
        createAndSignReceipt stamps params h = Some (h', Ok l)
        /\ Heap.load h' l
           = Some (AgentReceipt.with_anchoring signed
                     (Some (pinToIPFS signed)) None None)
        /\ Heap.load h l = None
        /\ preserved h h'
        /\ hasRequiredAttestations signed = true).
Proof.
  intros Hanchor Hcreate Hbk Hbs Hsk Hss buyerAttestation sellerAttestation signed.
  assert (Hskip : forall l, anchor_if_requested params l = FlowOps.ret tt).
  { intros l. unfold anchor_if_requested.
    destruct (FlowParams.anchorPrivateKey params) as [key|]; [|done].
    simpl in Hanchor. by rewrite Hanchor. }
  split.
  - intros Hsame.
    destruct (flow_until_second_attestation stamps params h created
                buyerAccount buyerSignature sellerAccount sellerSignature
                Hcreate Hbk Hbs Hsk Hss) as (h2 & l2 & Hload2 & Hkeep2 & ->).
    exists h2. split; [|done].
    apply bind_throw.
    apply (addAttestation_refuses h2 l2 _ sellerAttestation Hload2).
    apply Exists_cons_hd. exact Hsame.
  - intros Hdiff.
    destruct (flow_until_pinned stamps params h created
                buyerAccount buyerSignature sellerAccount sellerSignature
                Hcreate Hbk Hbs Hsk Hss Hdiff)
      as (h4 & l3 & Hload4 & Hfresh & Hkeep & ->).
    exists h4, l3. rewrite Hskip. done.
Qed.

(** X24. The complete flow with anchoring.  When anchoring is asked
    for with a key, the receipt is created, both keys sign and the two
    signers differ, the flow anchors the pinned receipt: if the anchoring
    key gives an account and the transaction is sent, the returned
    object is the signed receipt with its locator, with the digest of
    the created receipt as [onChainAnchor] (the attestations and the
    locator do not enter the digest) and with the hash of the anchoring
    transaction; if the anchoring key gives no account, the flow throws
    that error.  In both cases every object the store held before is
    as it was. *)
Theorem createAndSignReceipt_anchored `{PublicClient} `{Viem} `{Runtime} `{Wallet}
  (stamps : FlowStamps.t) (params : FlowParams.t) (h : Heap.t)
  (created : AgentReceipt.t)
  (buyerAccount buyerSignature sellerAccount sellerSignature anchorKey : string) :
  FlowParams.anchor params = Some true ->
  FlowParams.anchorPrivateKey params = Some anchorKey ->
  anchorKey <> EmptyString ->
  createReceipt (FlowStamps.uuid stamps) (FlowStamps.createdAt stamps)
    (CreateReceiptInput.mk (FlowParams.txHash params) None
       (FlowParams.commerce params)
       (Some (FlowParams.buyerAddress params))
       (Some (FlowParams.sellerAddress params))) = Ok created ->
  privateKeyToAccount (FlowParams.buyerPrivateKey params) = Ok buyerAccount ->
  signTypedData (FlowParams.buyerPrivateKey params)
                (getReceiptSigningMessage created) = Ok buyerSignature ->
  privateKeyToAccount (FlowParams.sellerPrivateKey params) = Ok sellerAccount ->
  signTypedData (FlowParams.sellerPrivateKey params)
                (getReceiptSigningMessage created) = Ok sellerSignature ->
  Js.toLowerCase buyerAccount <> Js.toLowerCase sellerAccount ->
  let signed :=
    AgentReceipt.spread_with_attestations created
      [Attestation.mk buyerAccount None buyerSignature
                      (FlowStamps.buyerSignedAt stamps) buyer;
       Attestation.mk sellerAccount None sellerSignature
                      (FlowStamps.sellerSignedAt stamps) seller] in
  (forall account txHash,
      privateKeyToAccount anchorKey = Ok account ->
      sendTransaction anchorKey account (computeReceiptHash created) 0 = Ok txHash ->
      exists h' l,
        createAndSignReceipt stamps params h = Some (h', Ok l)
        /\ Heap.load h' l
           = Some (AgentReceipt.with_anchoring signed
                     (Some (pinToIPFS signed))
                     (Some (computeReceiptHash created)) (Some txHash))
        /\ Heap.load h l = None
        /\ preserved h h')
  /\ (forall e,
        privateKeyToAccount anchorKey = Throw e ->
        exists h',
          createAndSignReceipt stamps params h = Some (h', Throw e)
          /\ preserved h h').
Proof.
  intros Hanchor Hkey Htruthy Hcreate Hbk Hbs Hsk Hss Hdiff signed.
  destruct (flow_until_pinned stamps params h created
              buyerAccount buyerSignature sellerAccount sellerSignature
              Hcreate Hbk Hbs Hsk Hss Hdiff)
    as (h4 & l3 & Hload4 & Hfresh & Hkeep & ->).
  fold signed in Hload4.
  set (pinned := AgentReceipt.with_anchoring signed (Some (pinToIPFS signed))
                   None None) in *.
  assert (Hnew : forall k v, Heap.load h k = Some v -> k <> l3)
    by (intros k v Hk ->; congruence).
  unfold anchor_if_requested. rewrite Hkey, Hanchor.
  destruct anchorKey as [|c key]; [done|]. simpl.
  set (anchorKey := String c key) in *.
  split.
  - intros account txHash Haccount Hsent.
    assert (Hanchored :
      anchorOnChain pinned anchorKey
      = Ok (Anchoring.mk (computeReceiptHash created) txHash)).
    { unfold anchorOnChain. rewrite Haccount. simpl.
      change (computeReceiptHash pinned) with (computeReceiptHash created).
      by rewrite Hsent. }
    destruct (assign_anchoring h4 l3 pinned
                (FlowOps.set_onChainAnchor (computeReceiptHash created))
                (Some (pinToIPFS signed)) (Some (computeReceiptHash created)) None
                Hload4) as (h5 & Hassign5 & Hload5 & Hother5).
    { intros o Ho1 Ho2 Ho3. unfold FlowOps.set_onChainAnchor.
      by rewrite Ho1, Ho3. }
    destruct (assign_anchoring h5 l3 _
                (FlowOps.set_anchorTxHash txHash)
                (Some (pinToIPFS signed)) (Some (computeReceiptHash created))
                (Some txHash) Hload5) as (h6 & Hassign6 & Hload6 & Hother6).
    { intros o Ho1 Ho2 Ho3. unfold FlowOps.set_anchorTxHash.
      by rewrite Ho1, Ho2. }
    exists h6, l3. split; [|split; [|split]].
    + erewrite bind_ok; [reflexivity|].
      erewrite bind_ok; [|by apply load_ok].
      erewrite bind_ok; [|unfold FlowOps.lift; by rewrite Hanchored].
      erewrite bind_ok; [|exact Hassign5].
      exact Hassign6.
    + exact Hload6.
    + exact Hfresh.
    + intros k v Hk.
      rewrite Hother6, Hother5 by by apply (Hnew k v).
      by apply Hkeep.
  - intros e Haccount. exists h4. split; [|done].
    apply bind_throw.
    erewrite bind_ok; [|by apply load_ok].
    apply bind_throw.
    unfold FlowOps.lift, anchorOnChain. by rewrite Haccount.
Qed.

Section FlowVerification.
Context `{PublicClient} `{Viem} `{Runtime}.

(** The transaction check of a receipt that carries the proof of a
    created receipt. *)
Lemma created_proof_verifies uuid now input created :
  createReceipt uuid now input = Ok created ->
  exists txr,
    getTransactionReceipt (CreateReceiptInput.txHash input) = Ok (Some txr)
    /\ forall receipt,
         AgentReceipt.transaction receipt = AgentReceipt.transaction created ->
         verifyTransaction receipt
         = Ok (TxVerification.mk true
                 (String.eqb (TransactionReceipt.status txr) "success")
                 (if String.eqb (TransactionReceipt.status txr) "success"
                  then [] else ["Transaction was not successful"])).
Proof.
  unfold createReceipt.
  destruct (fetchTransactionProof _) as [proof|e] eqn:Hfetch; simpl; [|done].
  intros [= <-].
  destruct (fetchTransactionProof_inv _ _ Hfetch)
    as (tx & txr & Htx & Hrc & Hhash & _ & Hnumber & Hblock).
  exists txr. split; [done|]. intros receipt Hsame. simpl in Hsame.
  set (proof' := match CreateReceiptInput.sellerAgent input with
                 | Some a => _ | None => _ end) in Hsame.
  assert (Hkeep : TransactionProof.txHash proof' = CreateReceiptInput.txHash input
                  /\ TransactionProof.blockNumber proof'
                     = TransactionReceipt.blockNumber txr
                  /\ TransactionProof.blockHash proof'
                     = TransactionReceipt.blockHash txr).
  { unfold proof'.
    destruct (CreateReceiptInput.buyerAgent input) as [[|? ?]|],
             (CreateReceiptInput.sellerAgent input) as [[|? ?]|]; simpl; done. }
  destruct Hkeep as (Hh & Hn & Hb).
  unfold verifyTransaction. rewrite Hsame, Hh, Htx. simpl. rewrite Hrc. simpl.
  rewrite Hn, Hb, Z.eqb_refl, String.eqb_refl. unfold push_if. simpl.
  by destruct (String.eqb (TransactionReceipt.status txr) "success").
Qed.

(** X25. What the flow produces verifies.  Take a created receipt,
    the attestation of a buyer and of a seller with different accounts
    whose signatures recover to these accounts, and the locator of the
    signed receipt, as [createAndSignReceipt] without anchoring puts
    them together.  Verified on the chain it was created from, the
    receipt is valid exactly when the transaction succeeded; its
    signatures are valid, the anchor check is not attempted and the
    content-store check passes; the confidence is 95 when the
    transaction succeeded and 70 when it did not, and no error is
    listed in the first case. *)
Theorem flow_receipt_verifies
  (uuid now : string) (input : CreateReceiptInput.t) (created : AgentReceipt.t)
  (buyerAccount buyerSignature buyerSignedAt : string)
  (sellerAccount sellerSignature sellerSignedAt : string)
  (checkOnChain : option bool) :
  createReceipt uuid now input = Ok created ->
  verifyTypedData buyerAccount (getReceiptSigningMessage created) buyerSignature
  = Ok true ->
  verifyTypedData sellerAccount (getReceiptSigningMessage created) sellerSignature
  = Ok true ->
  buyerAccount <> sellerAccount ->
  let signed :=
    AgentReceipt.spread_with_attestations created
      [Attestation.mk buyerAccount None buyerSignature buyerSignedAt buyer;
       Attestation.mk sellerAccount None sellerSignature sellerSignedAt seller] in
  let final :=
    AgentReceipt.with_anchoring signed (Some (pinToIPFS signed)) None None in
  exists txr,
    getTransactionReceipt (CreateReceiptInput.txHash input) = Ok (Some txr)
    /\ let succeeded := String.eqb (TransactionReceipt.status txr) "success" in
       verifyReceipt (VerifyReceiptInput.mk final checkOnChain)
       = Ok (VerificationResult.mk succeeded
               (Checks.mk true succeeded true None (Some true))
               (if succeeded then [] else ["Transaction was not successful"])
               (if succeeded then 95 else 70)).
Proof.
  intros Hcreate Hbuyer Hseller Hdiff signed final.
  destruct (created_proof_verifies uuid now input created Hcreate)
    as (txr & Hrc & Hverify).
  exists txr. split; [exact Hrc|].
  assert (Hsigs :
    verifyAllAttestations final
    = Ok (AllAttestations.mk true [(buyerAccount, true); (sellerAccount, true)])).
  { unfold verifyAllAttestations. simpl.
    unfold verifyAttestation. simpl.
    change (getReceiptSigningMessage final)
      with (getReceiptSigningMessage created).
    rewrite Hbuyer. simpl. rewrite Hseller. simpl.
    destruct (String.eqb_spec buyerAccount sellerAccount) as [?|_]; done. }
  unfold verifyReceipt. simpl.
  rewrite (Hverify final eq_refl). simpl.
  rewrite Hsigs. simpl.
  rewrite andb_false_r. simpl.
  by destruct (String.eqb (TransactionReceipt.status txr) "success").
Qed.

End FlowVerification.

(** ** The further properties on the demonstration world *)

Lemma verifyAllAttestations_distinct_witness :
  let receipt :=
    AgentReceipt.spread_with_attestations Demo.mockReceipt
      [Demo.buyerAttestation; Demo.malformedAttestation] in
  NoDup (map Attestation.agent (AgentReceipt.attestations receipt))
  /\ exists verdicts,
       Forall2 (fun a b => @verifyAttestation Demo.viem receipt a = Ok b)
               (AgentReceipt.attestations receipt) verdicts
       /\ @verifyAllAttestations Demo.viem receipt
          = Ok (AllAttestations.mk
                  (forallb (fun v => v) verdicts)
                  (zip (map Attestation.agent (AgentReceipt.attestations receipt))
                       verdicts)).
Proof.
  intros receipt.
  assert (Hnodup : NoDup (map Attestation.agent (AgentReceipt.attestations receipt))).
  { apply NoDup_cons. split; [|apply NoDup_singleton].
    rewrite list_elem_of_singleton. discriminate. }
  split; [exact Hnodup|].
  exact (@verifyAllAttestations_distinct Demo.viem receipt Hnodup).
Defined.

(** A malformed attestation under the seller's address, followed by
    the seller's own. *)
Lemma last_attestation_of_an_agent_counts_witness :
  let receipt :=
    AgentReceipt.spread_with_attestations Demo.mockReceipt
      [Demo.malformedAttestation; Demo.sellerAttestation] in
  AgentReceipt.attestations receipt
  = ([Demo.malformedAttestation] ++ [Demo.sellerAttestation])%list
  /\ Forall (fun x => Attestation.agent x = Attestation.agent Demo.sellerAttestation)
            [Demo.malformedAttestation]
  /\ @verifyAttestation Demo.viem receipt Demo.malformedAttestation = Ok false
  /\ @verifyAttestation Demo.viem receipt Demo.sellerAttestation = Ok true
  /\ @verifyAllAttestations Demo.viem receipt
     = Ok (AllAttestations.mk true [(Demo.sellerAddress, true)]).
Proof.
  intros receipt.
  assert (Hsame : Forall (fun x => Attestation.agent x
                                   = Attestation.agent Demo.sellerAttestation)
                         [Demo.malformedAttestation])
    by (repeat constructor).
  split; [reflexivity|]. split; [exact Hsame|]. split; [reflexivity|].
  split; [reflexivity|].
  exact (@last_attestation_of_an_agent_counts Demo.viem receipt
           [Demo.malformedAttestation] Demo.sellerAttestation
           eq_refl Hsame eq_refl).
Defined.

(** The receipt of the demo with another recipient, another block and
    no terms: the buyer's signature verifies as before. *)
Lemma signature_covers_seven_fields_witness :
  let r1 := Demo.mockReceipt in
  let r2 :=
    AgentReceipt.mk
      (AgentReceipt.receiptId r1) "2.0" (AgentReceipt.createdAt r1)
      (TransactionProof.mk ethereum Demo.DEMO_TX_HASH 1 "0xother"
         "2030-01-01T00:00:00.000Z" Demo.payerOnChain Demo.payeeOnChain
         "500.00" USDC None)
      (CommerceContext.mk service_payment
         "Premium AI data analysis - 30 day subscription"
         None None None paid_in_full None)
      [] None None None in
  AgentReceipt.receiptId r1 = AgentReceipt.receiptId r2
  /\ @verifyAttestation Demo.viem r2 Demo.buyerAttestation = Ok true
  /\ @verifyAttestation Demo.viem r1 Demo.buyerAttestation
     = @verifyAttestation Demo.viem r2 Demo.buyerAttestation.
Proof.
  intros r1 r2. split; [reflexivity|]. split; [reflexivity|].
  exact (@signature_covers_seven_fields Demo.viem r1 r2 Demo.buyerAttestation
           eq_refl eq_refl eq_refl eq_refl eq_refl eq_refl eq_refl).
Defined.

(** The buyer and the seller both recorded as witnesses. *)
Lemma checks_ignore_roles_witness :
  let receipt :=
    AgentReceipt.spread_with_attestations Demo.mockReceipt
      [Demo.buyerAttestation; Demo.sellerAttestation] in
  let attestations' :=
    [Attestation.mk Demo.buyerAddress (Some "agent-7")
       (Demo.toy_signature Demo.buyerAddress) "2031-01-01T00:00:00.000Z" witness;
     Attestation.mk Demo.sellerAddress None
       (Demo.toy_signature Demo.sellerAddress) "2031-01-01T00:00:00.000Z" witness] in
  map (fun a => (Attestation.agent a, Attestation.signature a)) attestations'
  = map (fun a => (Attestation.agent a, Attestation.signature a))
        (AgentReceipt.attestations receipt)
  /\ exists res res',
       @verifyReceipt Demo.chain_client Demo.viem
          (VerifyReceiptInput.mk receipt None) = Ok res
       /\ @verifyReceipt Demo.chain_client Demo.viem
            (VerifyReceiptInput.mk
               (AgentReceipt.spread_with_attestations receipt attestations') None)
          = Ok res'
       /\ VerificationResult.checks res' = VerificationResult.checks res
       /\ VerificationResult.valid res' = VerificationResult.valid res
       /\ VerificationResult.confidence res' = VerificationResult.confidence res.
Proof.
  intros receipt attestations'. split; [reflexivity|].
  exact (@checks_ignore_roles Demo.chain_client Demo.viem receipt attestations'
           None eq_refl).
Defined.

Lemma addAttestation_keeps_signers_distinct_witness :
  exists h' l',
    Heap.load Demo.store_signed 1%positive
    = Some (AgentReceipt.spread_with_attestations Demo.mockReceipt
              [Demo.buyerAttestation])
    /\ NoDup (map (fun x => Js.toLowerCase (Attestation.agent x))
                  [Demo.buyerAttestation])
    /\ addAttestation Demo.store_signed 1%positive Demo.sellerAttestation
       = Some (h', Ok l')
    /\ exists r',
         Heap.load h' l' = Some r'
         /\ AgentReceipt.attestations r'
            = [Demo.buyerAttestation; Demo.sellerAttestation]
         /\ NoDup (map (fun x => Js.toLowerCase (Attestation.agent x))
                       (AgentReceipt.attestations r')).
Proof.
  destruct (addAttestation Demo.store_signed 1%positive Demo.sellerAttestation)
    as [[h' [l'|e]]|] eqn:E; [|by vm_compute in E..].
  exists h', l'.
  assert (Hload : Heap.load Demo.store_signed 1%positive
                  = Some (AgentReceipt.spread_with_attestations Demo.mockReceipt
                            [Demo.buyerAttestation])) by reflexivity.
  assert (Hnodup : NoDup (map (fun x => Js.toLowerCase (Attestation.agent x))
                              [Demo.buyerAttestation])) by apply NoDup_singleton.
  split; [exact Hload|]. split; [exact Hnodup|]. split; [reflexivity|].
  exact (addAttestation_keeps_signers_distinct Demo.store_signed h'
           1%positive l' _ Demo.sellerAttestation Hload Hnodup E).
Defined.

Lemma hasRequiredAttestations_needs_two_witness :
  let receipt :=
    AgentReceipt.spread_with_attestations Demo.mockReceipt
      [Demo.buyerAttestation; Demo.sellerAttestation] in
  hasRequiredAttestations receipt = true
  /\ (2 <= List.length (AgentReceipt.attestations receipt))%nat
  /\ hasRequiredAttestations
       (AgentReceipt.spread_with_attestations receipt
          (AgentReceipt.attestations receipt ++ [Demo.malformedAttestation])%list)
     = true.
Proof.
  intros receipt. split; [reflexivity|].
  destruct (hasRequiredAttestations_needs_two receipt eq_refl)
    as (_ & Hlen & Hmore).
  split; [exact Hlen|exact (Hmore [Demo.malformedAttestation])].
Defined.

Lemma signReceipt_then_verify_witness :
  let input :=
    SignReceiptInput.mk Demo.mockReceipt DemoWallet.buyerKey buyer in
  let signature := Demo.toy_signature Demo.buyerAddress in
  @privateKeyToAccount DemoWallet.wallet DemoWallet.buyerKey = Ok Demo.buyerAddress
  /\ @signTypedData DemoWallet.wallet DemoWallet.buyerKey
       (getReceiptSigningMessage Demo.mockReceipt) = Ok signature
  /\ @verifyTypedData Demo.viem Demo.buyerAddress
       (getReceiptSigningMessage Demo.mockReceipt) signature = Ok true
  /\ @signReceipt DemoWallet.wallet "2026-02-08T12:01:00.000Z" input
     = Ok Demo.buyerAttestation
  /\ @verifyAttestation Demo.viem Demo.mockReceipt Demo.buyerAttestation = Ok true.
Proof.
  intros input signature.
  do 3 (split; [reflexivity|]).
  destruct (@signReceipt_then_verify Demo.viem DemoWallet.wallet
              "2026-02-08T12:01:00.000Z" input Demo.buyerAddress signature
              eq_refl eq_refl) as [Hsigned Hverifies].
  split; [exact Hsigned|].
  exact (proj1 (Hverifies eq_refl)).
Defined.


Lemma created_receipt_verifies_witness :
  let input :=
    CreateReceiptInput.mk Demo.DEMO_TX_HASH (Some base) Demo.commerce
                          (Some Demo.buyerAddress) (Some Demo.sellerAddress) in
  exists receipt,
    @createReceipt Demo.chain_client Demo.viem Demo.runtime
       "550e8400-e29b-41d4-a716-446655440000" "2026-02-08T12:00:00.000Z" input
    = Ok receipt
    /\ TransactionProof.chain (AgentReceipt.transaction receipt) = base_sepolia
    /\ exists txr,
         @getTransactionReceipt Demo.chain_client Demo.DEMO_TX_HASH = Ok (Some txr)
         /\ TransactionReceipt.status txr = "success"
         /\ @verifyReceipt Demo.chain_client Demo.viem
              (VerifyReceiptInput.mk receipt None)
            = Ok (VerificationResult.mk false
                    (Checks.mk true true false None None)
                    ["No attestations present"] 60).
Proof.
  intros input.
  destruct (@createReceipt Demo.chain_client Demo.viem Demo.runtime
              "550e8400-e29b-41d4-a716-446655440000" "2026-02-08T12:00:00.000Z"
              input) as [receipt|e] eqn:E; [|by vm_compute in E].
  exists receipt. split; [reflexivity|].
  destruct (@created_receipt_verifies Demo.chain_client Demo.viem Demo.runtime
              _ _ input receipt None E)
    as (txr & Hrc & Hchain & _ & _ & _ & _ & _ & Hfull).
  split; [exact Hchain|].
  exists txr. split; [exact Hrc|].
  assert (Hstatus : TransactionReceipt.status txr = "success").
  { injection Hrc as <-. reflexivity. }
  split; [exact Hstatus|].
  rewrite Hfull, Hstatus. reflexivity.
Defined.

Lemma anchorOnChain_then_verify_witness :
  let digest := @computeReceiptHash Demo.viem _ Demo.mockReceipt in
  let tx :=
    Transaction.mk Demo.buyerAddress (Some Demo.buyerAddress) digest "0xblock9" in
  @privateKeyToAccount DemoWallet.wallet DemoWallet.buyerKey = Ok Demo.buyerAddress
  /\ @sendTransaction DemoWallet.wallet DemoWallet.buyerKey Demo.buyerAddress digest 0
     = Ok DemoWallet.anchorTx
  /\ DemoWallet.anchorTx <> EmptyString
  /\ @getTransaction DemoWallet.chain_after_anchor DemoWallet.anchorTx = Ok (Some tx)
  /\ @anchorOnChain Demo.viem DemoWallet.wallet Demo.mockReceipt DemoWallet.buyerKey
     = Ok (Anchoring.mk digest DemoWallet.anchorTx)
  /\ @verifyOnChainAnchor DemoWallet.chain_after_anchor Demo.viem
       (AgentReceipt.with_anchoring
          (AgentReceipt.spread_with_attestations Demo.mockReceipt
             [Demo.buyerAttestation; Demo.sellerAttestation])
          (Some "bafyreigdemo") (Some digest) (Some DemoWallet.anchorTx))
     = Ok (AnchorVerification.mk true (Some 1770552000%Z) (Some Demo.buyerAddress)).
Proof.
  intros digest tx.
  assert (Hne : DemoWallet.anchorTx <> EmptyString) by discriminate.
  split; [reflexivity|]. split; [reflexivity|]. split; [exact Hne|].
  split; [reflexivity|].
  destruct (@anchorOnChain_then_verify DemoWallet.chain_after_anchor Demo.viem
              DemoWallet.wallet Demo.mockReceipt DemoWallet.buyerKey
              Demo.buyerAddress DemoWallet.anchorTx tx (Block.mk 1770552000)
              eq_refl eq_refl Hne eq_refl eq_refl eq_refl) as [Hsent Hfound].
  split; [exact Hsent|].
  exact (Hfound [Demo.buyerAttestation; Demo.sellerAttestation]
                (Some "bafyreigdemo")).
Defined.

Lemma createAndSignReceipt_result_witness :
  let h := Heap.mk ∅ ∅ in
  exists created,
    @createReceipt Demo.chain_client Demo.viem Demo.runtime
       (FlowStamps.uuid DemoWallet.stamps) (FlowStamps.createdAt DemoWallet.stamps)
       (CreateReceiptInput.mk (FlowParams.txHash DemoWallet.params) None
          (FlowParams.commerce DemoWallet.params)
          (Some (FlowParams.buyerAddress DemoWallet.params))
          (Some (FlowParams.sellerAddress DemoWallet.params))) = Ok created
    /\ Js.toLowerCase Demo.buyerAddress <> Js.toLowerCase Demo.sellerAddress
    /\ exists h' l,
         @createAndSignReceipt Demo.chain_client Demo.viem Demo.runtime
            DemoWallet.wallet DemoWallet.stamps DemoWallet.params h
         = Some (h', Ok l)
         /\ Heap.load h' l
            = Some (AgentReceipt.with_anchoring
                      (AgentReceipt.spread_with_attestations created
                         [Demo.buyerAttestation; Demo.sellerAttestation])
                      (Some (@pinToIPFS Demo.viem
                               (AgentReceipt.spread_with_attestations created
                                  [Demo.buyerAttestation; Demo.sellerAttestation])))
                      None None).
Proof.
  intros h.
  destruct (@createReceipt Demo.chain_client Demo.viem Demo.runtime
              (FlowStamps.uuid DemoWallet.stamps)
              (FlowStamps.createdAt DemoWallet.stamps)
              (CreateReceiptInput.mk (FlowParams.txHash DemoWallet.params) None
                 (FlowParams.commerce DemoWallet.params)
                 (Some (FlowParams.buyerAddress DemoWallet.params))
                 (Some (FlowParams.sellerAddress DemoWallet.params))))
    as [created|e] eqn:E; [|by vm_compute in E].
  exists created. split; [reflexivity|].
  assert (Hdiff : Js.toLowerCase Demo.buyerAddress
                  <> Js.toLowerCase Demo.sellerAddress) by discriminate.
  split; [exact Hdiff|].
  destruct (proj2 (@createAndSignReceipt_result Demo.chain_client Demo.viem
                     Demo.runtime DemoWallet.wallet DemoWallet.stamps
                     DemoWallet.params h created
                     Demo.buyerAddress (Demo.toy_signature Demo.buyerAddress)
                     Demo.sellerAddress (Demo.toy_signature Demo.sellerAddress)
                     eq_refl E eq_refl eq_refl eq_refl eq_refl) Hdiff)
    as (h' & l & Hflow & Hload & _).
  exists h', l. split; [exact Hflow|exact Hload].
Defined.

Lemma createAndSignReceipt_anchored_witness :
  let h := Heap.mk ∅ ∅ in
  let params :=
    FlowParams.mk Demo.DEMO_TX_HASH Demo.commerce DemoWallet.buyerKey
      DemoWallet.sellerKey Demo.buyerAddress Demo.sellerAddress
      (Some true) (Some DemoWallet.buyerKey) in
  exists created,
    @createReceipt Demo.chain_client Demo.viem Demo.runtime
       (FlowStamps.uuid DemoWallet.stamps) (FlowStamps.createdAt DemoWallet.stamps)
       (CreateReceiptInput.mk (FlowParams.txHash params) None
          (FlowParams.commerce params)
          (Some (FlowParams.buyerAddress params))
          (Some (FlowParams.sellerAddress params))) = Ok created
    /\ DemoWallet.buyerKey <> EmptyString
    /\ Js.toLowerCase Demo.buyerAddress <> Js.toLowerCase Demo.sellerAddress
    /\ exists h' l receipt,
         @createAndSignReceipt Demo.chain_client Demo.viem Demo.runtime
            DemoWallet.wallet DemoWallet.stamps params h
         = Some (h', Ok l)
         /\ Heap.load h' l = Some receipt
         /\ AgentReceipt.onChainAnchor receipt
            = Some (@computeReceiptHash Demo.viem _ created)
         /\ AgentReceipt.anchorTxHash receipt = Some DemoWallet.anchorTx.
Proof.
  intros h params.
  destruct (@createReceipt Demo.chain_client Demo.viem Demo.runtime
              (FlowStamps.uuid DemoWallet.stamps)
              (FlowStamps.createdAt DemoWallet.stamps)
              (CreateReceiptInput.mk (FlowParams.txHash params) None
                 (FlowParams.commerce params)
                 (Some (FlowParams.buyerAddress params))
                 (Some (FlowParams.sellerAddress params))))
    as [created|e] eqn:E; [|by vm_compute in E].
  exists created. split; [reflexivity|].
  assert (Hkey : DemoWallet.buyerKey <> EmptyString) by discriminate.
  assert (Hdiff : Js.toLowerCase Demo.buyerAddress
                  <> Js.toLowerCase Demo.sellerAddress) by discriminate.
  split; [exact Hkey|]. split; [exact Hdiff|].
  destruct (proj1 (@createAndSignReceipt_anchored Demo.chain_client Demo.viem
                     Demo.runtime DemoWallet.wallet DemoWallet.stamps
                     params h created
                     Demo.buyerAddress (Demo.toy_signature Demo.buyerAddress)
                     Demo.sellerAddress (Demo.toy_signature Demo.sellerAddress)
                     DemoWallet.buyerKey
                     eq_refl eq_refl Hkey E eq_refl eq_refl eq_refl eq_refl Hdiff)
              Demo.buyerAddress DemoWallet.anchorTx eq_refl eq_refl)
    as (h' & l & Hflow & Hload & _).
  exists h', l. eexists. split; [exact Hflow|]. split; [exact Hload|].
  split; reflexivity.
Defined.

Lemma flow_receipt_verifies_witness :
  let input :=
    CreateReceiptInput.mk Demo.DEMO_TX_HASH None Demo.commerce
                          (Some Demo.buyerAddress) (Some Demo.sellerAddress) in
  exists created,
    @createReceipt Demo.chain_client Demo.viem Demo.runtime
       "550e8400-e29b-41d4-a716-446655440000" "2026-02-08T12:00:00.000Z" input
    = Ok created
    /\ Demo.buyerAddress <> Demo.sellerAddress
    /\ let signed :=
         AgentReceipt.spread_with_attestations created
           [Demo.buyerAttestation; Demo.sellerAttestation] in
       @verifyReceipt Demo.chain_client Demo.viem
          (VerifyReceiptInput.mk
             (AgentReceipt.with_anchoring signed
                (Some (@pinToIPFS Demo.viem signed)) None None) None)
       = Ok (VerificationResult.mk true
               (Checks.mk true true true None (Some true)) [] 95).
Proof.
  intros input.
  destruct (@createReceipt Demo.chain_client Demo.viem Demo.runtime
              "550e8400-e29b-41d4-a716-446655440000" "2026-02-08T12:00:00.000Z"
              input) as [created|e] eqn:E; [|by vm_compute in E].
  exists created. split; [reflexivity|].
  assert (Hdiff : Demo.buyerAddress <> Demo.sellerAddress) by discriminate.
  split; [exact Hdiff|].
  destruct (@flow_receipt_verifies Demo.chain_client Demo.viem Demo.runtime
              _ _ input created
              Demo.buyerAddress (Demo.toy_signature Demo.buyerAddress)
              "2026-02-08T12:01:00.000Z"
              Demo.sellerAddress (Demo.toy_signature Demo.sellerAddress)
              "2026-02-08T12:02:00.000Z" None
              E eq_refl eq_refl Hdiff) as (txr & Hrc & Hres).
  assert (Hstatus : TransactionReceipt.status txr = "success").
  { injection Hrc as <-. reflexivity. }
  simpl in Hres. rewrite Hstatus in Hres. exact Hres.
Defined.

(** One account behind both keys: the flow stops at the seller's
    attestation. *)
Example flow_refuses_one_signer :
  exists h',
    @createAndSignReceipt Demo.chain_client Demo.viem Demo.runtime
       DemoWallet.wallet DemoWallet.stamps
       (FlowParams.mk Demo.DEMO_TX_HASH Demo.commerce DemoWallet.buyerKey
          DemoWallet.buyerAgainKey Demo.buyerAddress Demo.sellerAddress None None)
       (Heap.mk ∅ ∅)
    = Some (h', Throw (already_attested (Js.toLowerCase Demo.buyerAddress))).
Proof. eexists. vm_compute. reflexivity. Qed.
